(** * AI-doc2md: the batch conversion and Markdown splitting scripts

    A shallow embedding of [scripts/split_md_by_heading.py] and
    [scripts/convert_any_to_md.py], and the properties of their
    specification that can be settled on it.

    Conventions.
    - A Python [str] is a list of Unicode code points ([N]); a file holds
      bytes, and the UTF-8 codec is a parameter of the file-system code.
    - A path is the list of its components.
    - Code that touches the file system runs in a state and error monad:
      an exception keeps the changes made before it was raised. *)

From Stdlib Require Import NArith ZArith Lia Ascii String Decimal DecimalNat Sorted.
From stdpp Require Import base option list gmap strings.

Local Open Scope N_scope.
Local Open Scope nat_scope.

(** ** Python strings *)

Abbreviation char := N.
Abbreviation str := (list N).

(** A literal: the code points of an ASCII string. *)
Definition py (s : string) : str :=
  (fun a => N_of_ascii a) <$> list_ascii_of_string s.

Definition NL : char := 10%N.      (* "\n" *)
Definition HASH : char := 35%N.    (* "#" *)
Definition USCORE : char := 95%N.  (* "_" *)

(** The line feed as a one character literal, to write texts with. *)
Definition nl : string := String (ascii_of_nat 10) EmptyString.

Definition in_range (lo hi c : char) : bool := ((lo <=? c) && (c <=? hi))%N.

(** [Py_UNICODE_ISSPACE]: what [str.strip()] removes and what [\s] matches
    in a [str] pattern. *)
Definition is_space (c : char) : bool :=
  in_range 9 13 c || in_range 28 32 c || (c =? 133)%N || (c =? 160)%N
  || (c =? 5760)%N || in_range 8192 8202 c || (c =? 8232)%N
  || (c =? 8233)%N || (c =? 8239)%N || (c =? 8287)%N || (c =? 12288)%N.

Fixpoint drop_while (p : char → bool) (s : str) : str :=
  match s with
  | c :: r => if p c then drop_while p r else s
  | [] => []
  end.

Fixpoint take_while (p : char → bool) (s : str) : str :=
  match s with
  | c :: r => if p c then c :: take_while p r else []
  | [] => []
  end.

(** [s.lstrip(chars)], [s.rstrip(chars)] and [s.strip(chars)], the set of
    characters given as a predicate. *)
Definition lstrip_by (p : char → bool) (s : str) : str := drop_while p s.
Definition rstrip_by (p : char → bool) (s : str) : str :=
  rev (drop_while p (rev s)).
Definition strip_by (p : char → bool) (s : str) : str :=
  rstrip_by p (lstrip_by p s).

(** [s.strip()] *)
Definition strip (s : str) : str := strip_by is_space s.

(** [s[a:b]] and [s[a:]] for indices that are not negative. *)
Definition slice (s : str) (a b : nat) : str := take (b - a) (drop a s).
Definition slice_from (s : str) (a : nat) : str := drop a s.

(** [s[:n]] for any integer [n]: a negative [n] counts from the end. *)
Definition slice_to (s : str) (n : Z) : str :=
  if (n <? 0)%Z then take (length s - Z.to_nat (- n)) s
  else take (Z.to_nat n) s.

(** [s.startswith(p)] *)
Fixpoint startswith (s p : str) {struct p} : bool :=
  match p, s with
  | [], _ => true
  | c :: p', d :: s' => (c =? d)%N && startswith s' p'
  | _ :: _, [] => false
  end.

(** Truth value of a string: it is not empty. *)
Definition truthy (s : str) : bool :=
  match s with [] => false | _ => true end.

(** ** The heading pattern

    [rf"^({'#' * level})\s+(.+)$"] compiled with [re.MULTILINE].  The
    matcher below follows the backtracking search of [re]: [\s+] is greedy
    and gives characters back one at a time, [.] is any character but the
    line feed, [^] holds at the start of the text and after a line feed,
    [$] holds at the end of the text and before a line feed. *)
Module Heading.

Definition not_nl (c : char) : bool := negb (c =? NL)%N.

(** [(.+)$] at the head of [s]: the longest run without a line feed; it
    ends at the end of the text or before a line feed, where [$] holds.
    The result is the number of characters matched and group 2. *)
Definition title_eol (s : str) : option (nat * str) :=
  match take_while not_nl s with
  | [] => None
  | g => Some (length g, g)
  end.

(** [\s*(.+)$]: as many white space characters as possible first, then
    one less, and so on. *)
Fixpoint ws_star_title (s : str) : option (nat * str) :=
  match s with
  | c :: r =>
      if is_space c then
        match ws_star_title r with
        | Some (n, g) => Some (S n, g)
        | None => title_eol s
        end
      else title_eol s
  | [] => None
  end.

(** [\s+(.+)$] *)
Definition ws_plus_title (s : str) : option (nat * str) :=
  match s with
  | c :: r =>
      if is_space c then
        match ws_star_title r with
        | Some (n, g) => Some (S n, g)
        | None => None
        end
      else None
  | [] => None
  end.

(** The literal prefix [p] of the pattern. *)
Fixpoint literal (p s : str) {struct p} : option str :=
  match p, s with
  | [], _ => Some s
  | c :: p', d :: s' => if (c =? d)%N then literal p' s' else None
  | _ :: _, [] => None
  end.

(** A match of [({'#' * level})\s+(.+)$] at the head of [s]: its length
    and group 2. *)
Definition match_here (level : nat) (s : str) : option (nat * str) :=
  match literal (replicate level HASH) s with
  | Some rest =>
      match ws_plus_title rest with
      | Some (n, g) => Some (level + n, g)
      | None => None
      end
  | None => None
  end.

(** [h_re.finditer(text)]: the matches from left to right, none
    overlapping another; of each match its [start()] and [group(2)].
    [bol] says whether [^] holds at the current position, [skip] counts
    the characters left of the match found last, [pos] is the current
    index. *)
Fixpoint finditer_from (level : nat) (bol : bool) (skip pos : nat)
    (s : str) : list (nat * str) :=
  match s with
  | [] => []
  | c :: r =>
      match skip with
      | S k => finditer_from level (c =? NL)%N k (S pos) r
      | O =>
          match (if bol then match_here level s else None) with
          | Some (n, g) =>
              (pos, g) :: finditer_from level (c =? NL)%N (n - 1) (S pos) r
          | None => finditer_from level (c =? NL)%N 0 (S pos) r
          end
      end
  end.

Definition finditer (level : nat) (text : str) : list (nat * str) :=
  finditer_from level true 0 0 text.

End Heading.

(** ** [split_markdown] *)

Definition PROLOGUE : str := py "prologue".

(** The loop over the matches and the tail after it: the state is
    [parts], [last_pos] and [last_title]. *)
Fixpoint split_loop (text : str) (ms : list (nat * str))
    (parts : list (str * str)) (last_pos : nat) (last_title : str)
    : list (str * str) :=
  match ms with
  | (start, g2) :: ms' =>
      let body := slice text last_pos start in
      let parts' :=
        if truthy (strip body) then parts ++ [(last_title, strip body)]
        else parts in
      split_loop text ms' parts' start (strip g2)
  | [] =>
      let tail := strip (slice_from text last_pos) in
      if truthy tail then parts ++ [(last_title, tail)] else parts
  end.

(** The second loop: a chunk that does not start with "#" is given a
    heading line made of its title. *)
Definition refine (level : nat) (part : str * str) : str * str :=
  let '(title, chunk) := part in
  if negb (startswith chunk [HASH])
  then (title, replicate level HASH ++ py " " ++ title ++ [NL; NL] ++ chunk)
  else (title, chunk).

Definition split_markdown (text : str) (level : nat) : list (str * str) :=
  refine level <$> split_loop text (Heading.finditer level text) [] 0 PROLOGUE.

(** ** [sanitize_filename] and the chapter file names *)

(** The complement of [INVALID_CHARS]' class: [A-Za-z0-9._-]. *)
Definition valid_char (c : char) : bool :=
  in_range 65 90 c || in_range 97 122 c || in_range 48 57 c
  || (c =? 46)%N || (c =? 95)%N || (c =? 45)%N.

(** [INVALID_CHARS.sub("_", s)]: every longest run of characters outside
    the class becomes one "_".  [in_run] says that the character before
    was part of such a run. *)
Fixpoint sub_invalid (in_run : bool) (s : str) : str :=
  match s with
  | [] => []
  | c :: r =>
      if valid_char c then c :: sub_invalid false r
      else if in_run then sub_invalid true r
      else USCORE :: sub_invalid true r
  end.

Definition is_uscore (c : char) : bool := (c =? USCORE)%N.

Definition UNTITLED : str := py "untitled".

(** [str(n)] for a natural number. *)
Fixpoint uint_digits (d : uint) : str :=
  match d with
  | Nil => []
  | D0 d => 48%N :: uint_digits d
  | D1 d => 49%N :: uint_digits d
  | D2 d => 50%N :: uint_digits d
  | D3 d => 51%N :: uint_digits d
  | D4 d => 52%N :: uint_digits d
  | D5 d => 53%N :: uint_digits d
  | D6 d => 54%N :: uint_digits d
  | D7 d => 55%N :: uint_digits d
  | D8 d => 56%N :: uint_digits d
  | D9 d => 57%N :: uint_digits d
  end.

Definition str_of_nat (n : nat) : str := uint_digits (Nat.to_uint n).

(** [f"{idx:02d}"]: the decimal digits, filled with "0" on the left up to
    two characters. *)
Definition format_02d (idx : nat) : str :=
  let d := str_of_nat idx in replicate (2 - length d) 48%N ++ d.

(** The order of Python on [str]: lexicographic on the code points. *)
Fixpoint str_ltb (a b : str) : bool :=
  match a, b with
  | _, [] => false
  | [], _ :: _ => true
  | x :: a', y :: b' => (x <? y)%N || ((x =? y)%N && str_ltb a' b')
  end.

(** [str.lower()] on ASCII text, where it only moves A-Z to a-z. *)
Definition lower_ascii (s : str) : str :=
  (fun c => if in_range 65 90 c then (c + 32)%N else c) <$> s.

Section Sanitize.

(** [str.lower()]: the case tables of Unicode are not part of the
    repository. *)
Variable lower : str → str.

(** [max_len] is an [int]: a negative one cuts that many characters
    off the end, as [clean[:max_len]] does. *)
Definition sanitize_filename (name : str) (max_len : Z) : str :=
  let clean := strip_by is_uscore (sub_invalid false (lower name)) in
  match slice_to clean max_len with
  | [] => UNTITLED
  | r => r
  end.

(** The default of [max_len]. *)
Definition sanitize_filename_default (name : str) : str :=
  sanitize_filename name 80.

(** [f"ch{idx:02d}_{sanitize_filename(title)}.md"] *)
Definition chapter_fname (idx : nat) (title : str) : str :=
  py "ch" ++ format_02d idx ++ py "_" ++ sanitize_filename_default title
  ++ py ".md".

(** The names [_write_chapters] gives to [enumerate(chapters)]. *)
Definition chapter_fnames (chapters : list (str * str)) : list str :=
  imap (fun idx ch => chapter_fname idx ch.1) chapters.

End Sanitize.

(** ** Paths

    A path is the list of its components; [str(path)] joins them with
    "/".  The functions below are those of [pathlib] the scripts use.

    A component list stands for one file only as long as no component is
    ".", ".." or empty: [pathlib] drops "." when it joins, and the file
    system goes up at "..".  The statements that tell two paths apart
    (what is outside a directory, what another path keeps) ask for
    [plain_path], which rules these components out. *)

Abbreviation path := (list (list N)).

Definition DOT : char := 46%N.
Definition SLASH : char := 47%N.

(** A component that names an entry of its directory: not empty, not "."
    and not "..", and without "/". *)
Definition plain_name (c : list N) : bool :=
  bool_decide (c ≠ []) && bool_decide (c ≠ [DOT])
  && bool_decide (c ≠ [DOT; DOT]) && forallb (λ x, negb (x =? SLASH)%N) c.

Definition plain_path (p : list (list N)) : bool := forallb plain_name p.

Fixpoint str_of_path (p : path) : str :=
  match p with
  | [] => py "."
  | [c] => c
  | c :: r => c ++ [SLASH] ++ str_of_path r
  end.

(** [p.name] and [p.parent] *)
Definition name (p : path) : str := List.last p [].
Definition parent (p : path) : path := removelast p.

(** [s.rfind(".")]: the index of the last ".", if there is one. *)
Fixpoint rfind_dot (s : str) : option nat :=
  match s with
  | [] => None
  | c :: r =>
      match rfind_dot r with
      | Some i => Some (S i)
      | None => if (c =? DOT)%N then Some 0 else None
      end
  end.

(** [p.suffix]: from the last "." of the name on, unless the name starts
    with that "." or ends with it. *)
Definition suffix_of_name (n : str) : str :=
  match rfind_dot n with
  | Some i => if (0 <? i) && (i <? length n - 1) then drop i n else []
  | None => []
  end.

Definition suffix (p : path) : str := suffix_of_name (name p).

(** [p.stem]: the name without its suffix. *)
Definition stem (p : path) : str :=
  take (length (name p) - length (suffix p)) (name p).

(** ** Exceptions, the world and the monad of effects *)

(** An exception of class [Exception]: its class name and [str(e)].  For
    the errors of the file system [str(e)] is cut down to the path they
    are about. *)
Record exn := Exn { exn_class : string; exn_msg : str }.

Inductive node :=
  | File (content : list Byte.byte) (mtime : Z)
  | Dir (mtime : Z).

Definition node_mtime (n : node) : Z :=
  match n with File _ t => t | Dir t => t end.

Inductive log_level := DEBUG | INFO | WARNING | ERROR.

(** The world a script runs in: the file system, the time stamp given to
    what is created or written, and the records handed to [logging]
    (the last one first). *)
Record world := World {
  files : gmap path node;
  clock : Z;
  logged : list (log_level * str)
}.

Definition M (A : Type) : Type := world → world * (exn + A).

Definition ret {A} (a : A) : M A := λ w, (w, inr a).
Definition raise {A} (e : exn) : M A := λ w, (w, inl e).
Definition bind {A B} (m : M A) (k : A → M B) : M B :=
  λ w, match m w with
       | (w', inr a) => k a w'
       | (w', inl e) => (w', inl e)
       end.

(** [try: body except Exception as e: handler(e)] *)
Definition try_except {A} (body : M A) (handler : exn → M A) : M A :=
  λ w, match body w with
       | (w', inr a) => (w', inr a)
       | (w', inl e) => handler e w'
       end.

Declare Scope eff_scope.
Delimit Scope eff_scope with eff.
Notation "x <- m ;; k" := (bind m (λ x, k))
  (at level 100, m at next level, right associativity) : eff_scope.
Notation "m ;; k" := (bind m (λ _, k))
  (at level 100, right associativity) : eff_scope.
Local Open Scope eff_scope.

Fixpoint for_each {A} (f : A → M unit) (l : list A) : M unit :=
  match l with
  | [] => ret tt
  | a :: r => f a ;; for_each f r
  end.

Definition log (lv : log_level) (msg : str) : M unit :=
  λ w, (World (files w) (clock w) ((lv, msg) :: logged w), inr tt).

(** *** [pathlib] functions that can raise *)

(** [p.with_suffix(suf)] for a well formed [suf]; a path without a name
    raises [ValueError]. *)
Definition with_suffix (p : path) (suf : str) : M path :=
  match name p with
  | [] => raise (Exn "ValueError" (str_of_path p ++ py " has an empty name"))
  | n => ret (parent p ++ [take (length n - length (suffix p)) n ++ suf])
  end.

(** [p.relative_to(root)] *)
Fixpoint relative_to_aux (p root : path) {struct root} : option path :=
  match root, p with
  | [], _ => Some p
  | c :: root', d :: p' => if bool_decide (c = d) then relative_to_aux p' root' else None
  | _ :: _, [] => None
  end.

Definition relative_to (p root : path) : M path :=
  match relative_to_aux p root with
  | Some r => ret r
  | None =>
      raise (Exn "ValueError"
               (str_of_path p ++ py " is not in the subpath of "
                ++ str_of_path root))
  end.

(** *** The file system

    The empty path is the directory the relative paths start from.  An
    entry is kept under its component list as it is: this is the file
    system of the program for plain paths, those without ".", ".." and
    empty components. *)

Definition lookup_node (w : world) (p : path) : option node :=
  match p with [] => Some (Dir 0) | _ => files w !! p end.

Definition is_dir (w : world) (p : path) : bool :=
  match lookup_node w p with Some (Dir _) => true | _ => false end.

(** [p.exists()] *)
Definition exists_ (p : path) : M bool :=
  λ w, (w, inr (bool_decide (is_Some (lookup_node w p)))).

(** [p.stat().st_mtime] *)
Definition st_mtime (p : path) : M Z :=
  λ w, match lookup_node w p with
       | Some n => (w, inr (node_mtime n))
       | None => (w, inl (Exn "FileNotFoundError" (str_of_path p)))
       end.

Definition set_node (p : path) (n : node) (w : world) : world :=
  World (<[p := n]> (files w)) (clock w) (logged w).

(** One step of [mkdir]: a directory that is there stays, a file in its
    place is an error, a missing one is made. *)
Definition ensure_dir (p : path) : M unit :=
  λ w, match lookup_node w p with
       | Some (Dir _) => (w, inr tt)
       | Some (File _ _) => (w, inl (Exn "FileExistsError" (str_of_path p)))
       | None => (set_node p (Dir (clock w)) w, inr tt)
       end.

(** [p.mkdir(parents=True, exist_ok=True)], [p] being [pre] followed by
    [rest]: the ancestors from the top down, then [p]. *)
Fixpoint mkdir_from (pre rest : path) : M unit :=
  match rest with
  | [] => ret tt
  | c :: rest' => ensure_dir (pre ++ [c]) ;; mkdir_from (pre ++ [c]) rest'
  end.

Definition mkdir_parents (p : path) : M unit := mkdir_from [] p.

(** [prefix_of p q]: [q] is [p] or lies below it. *)
Fixpoint prefix_of (p q : path) {struct p} : bool :=
  match p, q with
  | [], _ => true
  | c :: p', d :: q' => bool_decide (c = d) && prefix_of p' q'
  | _ :: _, [] => false
  end.

(** [shutil.rmtree(p)] *)
Definition rmtree (p : path) : M unit :=
  λ w, match lookup_node w p with
       | Some (Dir _) =>
           (World (filter (λ kv, prefix_of p kv.1 = false) (files w))
                  (clock w) (logged w), inr tt)
       | Some (File _ _) =>
           (w, inl (Exn "NotADirectoryError" (str_of_path p)))
       | None => (w, inl (Exn "FileNotFoundError" (str_of_path p)))
       end.

(** Reading and writing the bytes of a file. *)
Definition read_bytes (p : path) : M (list Byte.byte) :=
  λ w, match lookup_node w p with
       | Some (File c _) => (w, inr c)
       | Some (Dir _) => (w, inl (Exn "IsADirectoryError" (str_of_path p)))
       | None => (w, inl (Exn "FileNotFoundError" (str_of_path p)))
       end.

Definition write_bytes (p : path) (c : list Byte.byte) : M unit :=
  λ w, if is_dir w p then (w, inl (Exn "IsADirectoryError" (str_of_path p)))
       else if is_dir w (parent p)
       then (set_node p (File c (clock w)) w, inr tt)
       else (w, inl (Exn "FileNotFoundError" (str_of_path p))).

(** [shutil.copy(src, dst)]: into [dst] when it is a directory; the same
    file on both sides is an error. *)
Definition copy (src dst : path) : M unit :=
  d <- (λ w, (w, inr (is_dir w dst))) ;;
  let target := if d : bool then dst ++ [name src] else dst in
  if bool_decide (src = target)
  then raise (Exn "SameFileError" (str_of_path src))
  else c <- read_bytes src ;; write_bytes target c.

(** UTF-8 on ASCII text. *)
Definition decode_ascii (b : list Byte.byte) : str := Byte.to_N <$> b.
Definition encode_ascii (s : str) : list Byte.byte :=
  (λ c, default Byte.x3f (Byte.of_N c)) <$> s.

(** ** [split_md_by_heading.py] *)
Module Split.
Section Script.

(** What the repository takes from Python: [str.lower()] and the UTF-8
    codec of [read_text] and [write_text]. *)
Variable lower : str → str.
Variable decode : list Byte.byte → str.
Variable encode : str → list Byte.byte.

Definition read_text (p : path) : M str :=
  b <- read_bytes p ;; ret (decode b).

Definition write_text (p : path) (s : str) : M unit :=
  write_bytes p (encode s).

(** The body of the loop of [_write_chapters]. *)
Definition write_chapter (book_dir : path) (dry_run : bool)
    (idx : nat) (chapter : str * str) : M unit :=
  let '(title, content) := chapter in
  let fname := chapter_fname lower idx title in
  let path := book_dir ++ [fname] in
  if dry_run
  then log DEBUG (py "[DRY-RUN] would write " ++ str_of_path path)
  else
    write_text path (content ++ [NL]) ;;
    log DEBUG (py "Wrote " ++ str_of_path path).

Definition _write_chapters (book_dir : path) (chapters : list (str * str))
    (force dry_run : bool) : M unit :=
  e <- exists_ book_dir ;;
  (if force && e then rmtree book_dir else ret tt) ;;
  mkdir_parents book_dir ;;
  for_each (λ ic, write_chapter book_dir dry_run ic.1 ic.2)
           (imap pair chapters).

(** The [try] block of [process_file].  [dst_root / src_path.stem] is
    the destination root with the stem as one more component, which is
    what [pathlib] and the file system make of it for a plain stem (not
    for the stems "." and ".." of the names "..md" and "...md"). *)
Definition process_file_body (src_path dst_root : path) (level : nat)
    (force : bool) (no_split_action : str) (dry_run : bool) : M unit :=
  let book_dir := dst_root ++ [stem src_path] in
  md_text <- read_text src_path ;;
  let chapters := split_markdown md_text level in
  if length chapters <=? 1 then
    if bool_decide (no_split_action = py "copy") then
      dst <- with_suffix book_dir (py ".md") ;;
      if dry_run
      then log INFO (py "[DRY-RUN] would copy " ++ str_of_path src_path
                     ++ [32; 8594; 32]%N ++ str_of_path dst)
      else
        mkdir_parents (parent dst) ;;
        copy src_path dst ;;
        log INFO (py "Copied (no headings): " ++ name src_path)
    else log INFO (py "Skipped (no headings): " ++ name src_path)
  else
    _write_chapters book_dir chapters force dry_run ;;
    log INFO (py "Processed " ++ name src_path ++ py " ("
              ++ str_of_nat (length chapters) ++ py " chapters)").

Definition process_file (src_path dst_root : path) (level : nat)
    (force : bool) (no_split_action : str) (dry_run : bool) : M unit :=
  try_except
    (process_file_body src_path dst_root level force no_split_action
       dry_run)
    (λ e, log ERROR (py "Failed " ++ name src_path ++ py ": "
                     ++ exn_msg e)).

(** The loop of [main] for [workers == 1]. *)
Definition main_sequential (md_files : list path) (dst : path)
    (level : nat) (force : bool) (no_split_action : str)
    (dry_run : bool) : M unit :=
  for_each (λ fp, process_file fp dst level force no_split_action dry_run)
           md_files.

End Script.
End Split.

(** ** [convert_any_to_md.py] *)
Module Convert.

Inductive converter :=
  pdf_to_md | epub_to_md | doc_to_md | kindle_to_md | plain_copy.

(** The table [CONVERTERS] and its [get]. *)
Definition CONVERTERS : list (str * converter) :=
  [ (py ".pdf", pdf_to_md); (py ".epub", epub_to_md);
    (py ".doc", doc_to_md); (py ".docx", doc_to_md);
    (py ".txt", plain_copy); (py ".mobi", kindle_to_md);
    (py ".azw", kindle_to_md); (py ".azw3", kindle_to_md);
    (py ".lit", kindle_to_md) ].

Fixpoint get (table : list (str * converter)) (ext : str)
    : option converter :=
  match table with
  | [] => None
  | (k, v) :: r => if bool_decide (k = ext) then Some v else get r ext
  end.

Section Script.

Variable lower : str → str.
Variable encode : str → list Byte.byte.

(** The converters that hand the file to a tool or a library outside
    the repository: what such a call does to the world, and whether it
    raises. *)
Variable external : converter → path → path → M unit.

Definition run_converter (c : converter) (src dst : path) : M unit :=
  match c with
  | plain_copy => copy src dst
  | _ => external c src dst
  end.

(** The test of the first [if] of [process_file]:
    [not force and dst_path.exists()
     and dst_path.stat().st_mtime > src_path.stat().st_mtime]. *)
Definition up_to_date (force : bool) (src_path dst_path : path) : M bool :=
  if negb force then
    e <- exists_ dst_path ;;
    if e : bool then
      d <- st_mtime dst_path ;;
      s <- st_mtime src_path ;;
      ret (s <? d)%Z
    else ret false
  else ret false.

Definition process_file (src_path src_root dst_root : path) (force : bool)
    : M (option str) :=
  rel_path <- relative_to src_path src_root ;;
  rel_md <- with_suffix rel_path (py ".md") ;;
  let dst_path := dst_root ++ rel_md in
  skip <- up_to_date force src_path dst_path ;;
  if skip : bool then
    log DEBUG (py "Skipping (already up-to-date): " ++ str_of_path rel_path) ;;
    ret None
  else
    mkdir_parents (parent dst_path) ;;
    let ext := lower (suffix src_path) in
    match get CONVERTERS ext with
    | None =>
        log WARNING (py "No converter found for " ++ ext ++ py ", skipping: "
                     ++ str_of_path rel_path) ;;
        ret None
    | Some converter =>
        try_except
          (rel_dst <- relative_to dst_path dst_root ;;
           log INFO (py "Converting: " ++ str_of_path rel_path ++ py " -> "
                     ++ str_of_path rel_dst) ;;
           run_converter converter src_path dst_path ;;
           ret (Some (py "Successfully converted: " ++ str_of_path rel_path)))
          (λ e,
             log ERROR (py "Failed to convert " ++ str_of_path rel_path
                        ++ py ": " ++ exn_msg e) ;;
             error_file <- with_suffix dst_path (py ".error.txt") ;;
             write_bytes error_file
               (encode (py "Failed to convert " ++ str_of_path src_path
                        ++ py ":" ++ [NL; NL] ++ exn_msg e)) ;;
             ret (Some (py "ERROR converting " ++ str_of_path rel_path
                        ++ py ": " ++ exn_msg e)))
    end.

End Script.
End Convert.

(** ** Definitions the statements use *)

(** The text of the round trip example of the specification. *)
Definition example_text : str :=
  py ("Intro text" +:+ nl +:+ "# A" +:+ nl +:+ "body1" +:+ nl +:+ "# B"
      +:+ nl +:+ "body2").

(** An empty heading followed by a heading. *)
Definition swallowed_text : str :=
  py ("#" +:+ nl +:+ "# A" +:+ nl +:+ "body").

(** The slices [split_markdown] cuts the text into, with the title each
    one is filed under: from [last_pos] to the start of the next match,
    and from the last start to the end. *)
Fixpoint pieces (text : str) (ms : list (nat * str)) (last_pos : nat)
    (last_title : str) : list (str * str) :=
  match ms with
  | (start, g2) :: ms' =>
      (last_title, slice text last_pos start)
      :: pieces text ms' start (strip g2)
  | [] => [(last_title, slice_from text last_pos)]
  end.

Definition strip_piece (tp : str * str) : str * str := (tp.1, strip tp.2).
Definition kept (tp : str * str) : bool := truthy tp.2.

(** The characters a chapter file name is made of: a-z, 0-9, ".", "_"
    and "-". *)
Definition safe_char (c : char) : bool :=
  in_range 97 122 c || in_range 48 57 c
  || (c =? 46)%N || (c =? 95)%N || (c =? 45)%N.

Definition is_digit (c : char) : bool := in_range 48 57 c.

(** Reading decimal digits back. *)
Fixpoint uint_of_digits (s : str) : uint :=
  match s with
  | [] => Nil
  | c :: r =>
      let d := uint_of_digits r in
      if (c =? 48)%N then D0 d else if (c =? 49)%N then D1 d
      else if (c =? 50)%N then D2 d else if (c =? 51)%N then D3 d
      else if (c =? 52)%N then D4 d else if (c =? 53)%N then D5 d
      else if (c =? 54)%N then D6 d else if (c =? 55)%N then D7 d
      else if (c =? 56)%N then D8 d else if (c =? 57)%N then D9 d
      else Nil
  end.

(** For all [i < j < n]: both indices are printed on two characters,
    the first one below the second one. *)
Definition two_digits_ordered (n : nat) : bool :=
  forallb (λ j,
    forallb (λ i,
      (length (format_02d i) =? 2) && (length (format_02d j) =? 2)
      && str_ltb (format_02d i) (format_02d j))
    (seq 0 j))
  (seq 0 n).

(** Two titles that sanitize to the same string. *)
Definition twin_chapters : list (str * str) :=
  [ (py "Part 1!!", py "# Part 1!!"); (py "Part 1??", py "# Part 1??") ].

(** A text of 101 chapters. *)
Definition long_text : str :=
  concat (replicate 101 (py ("# A" +:+ nl))).

(** An external tool that fails. *)
Definition failing_tool (c : Convert.converter) (src dst : path) : M unit :=
  raise (Exn "CalledProcessError" (py "exit status 1")).

(** A source and its converted file with the same time stamp. *)
Definition tie_world : world :=
  World (list_to_map
           [ ([py "src"], Dir 0);
             ([py "src"; py "a.txt"], File (encode_ascii (py "new")) 5);
             ([py "out"], Dir 0);
             ([py "out"; py "a.md"], File (encode_ascii (py "old")) 5) ])
        9 [].

(** A PDF to convert. *)
Definition pdf_world : world :=
  World (list_to_map
           [ ([py "src"], Dir 0);
             ([py "src"; py "b.pdf"], File [] 5);
             ([py "out"], Dir 0) ])
        9 [].

(** A book directory of an earlier run, and the source it was made of. *)
Definition book_world : world :=
  World (list_to_map
           [ ([py "src"], Dir 0);
             ([py "src"; py "notes.md"], File (encode_ascii example_text) 5);
             ([py "out"], Dir 0);
             ([py "out"; py "notes"], Dir 6);
             ([py "out"; py "notes"; py "ch00_old.md"], File [] 6) ])
        9 [].

(** A Markdown file without a heading. *)
Definition plain_world : world :=
  World (list_to_map
           [ ([py "src"], Dir 0);
             ([py "src"; py "plain.md"], File (encode_ascii (py "just text")) 5);
             ([py "out"], Dir 0) ])
        9 [].

(** The place of a book directory taken by a file. *)
Definition blocked_world : world :=
  World (list_to_map
           [ ([py "src"], Dir 0);
             ([py "src"; py "notes.md"], File (encode_ascii example_text) 5);
             ([py "out"], Dir 0);
             ([py "out"; py "notes"], File [] 6) ])
        9 [].

(** [w1] is [w] with directories added, and nothing else changed. *)
Definition adds_dirs_only (w w1 : world) : Prop :=
  clock w1 = clock w ∧ logged w1 = logged w ∧
  ∀ p, files w1 !! p = files w !! p
       ∨ (files w !! p = None ∧ files w1 !! p = Some (Dir (clock w))).

(** A text of white space only. *)
Definition blank_text : str := py ("  " +:+ nl +:+ " ").

(** [m] keeps the relation [R] between the world it starts in and the
    world it ends in, whether it returns or raises. *)
Definition keeps {A} (R : world → world → Prop) (m : M A) : Prop :=
  ∀ w, R w (m w).1.

(** What is there outside [root] is neither changed nor removed. *)
Definition outside_kept (root : path) (w w' : world) : Prop :=
  ∀ p n, prefix_of root p = false →
         files w !! p = Some n → files w' !! p = Some n.

(** The files are the same; directories may have been added. *)
Definition dirs_added (w w' : world) : Prop :=
  clock w' = clock w ∧
  ∀ p, files w' !! p = files w !! p
       ∨ (files w !! p = None ∧ files w' !! p = Some (Dir (clock w))).

(** The records above DEBUG, the last one first. *)
Definition above_debug (r : log_level * str) : bool :=
  match r.1 with DEBUG => false | _ => true end.

Definition reports (w : world) : list (log_level * str) :=
  List.filter above_debug (logged w).

Definition same_reports (w w' : world) : Prop := reports w' = reports w.

(** Two sources under the same name. *)
Definition twin_world : world :=
  World (list_to_map
           [ ([py "src"], Dir 0);
             ([py "src"; py "a"], Dir 0);
             ([py "src"; py "a"; py "x.md"], File (encode_ascii (py "first")) 5);
             ([py "src"; py "b"], Dir 0);
             ([py "src"; py "b"; py "x.md"], File (encode_ascii (py "second")) 5);
             ([py "out"], Dir 0) ])
        9 [].

(** [m] ends with one INFO record when it returns, and with none above
    DEBUG when it raises. *)
Definition one_info (m : M unit) : Prop :=
  ∀ w, match (m w).2 with
       | inr _ => ∃ msg, reports (m w).1 = (INFO, msg) :: reports w
       | inl _ => reports (m w).1 = reports w
       end.

(** The entry [n] at [p], when it is there, stays. *)
Definition entry_kept (p : path) (n : node) (w w' : world) : Prop :=
  files w !! p = Some n → files w' !! p = Some n.

(** What is at [p], an entry or none, is the same before and after. *)
Definition same_at (p : path) (w w' : world) : Prop :=
  files w' !! p = files w !! p.

(** The parent of a destination taken by a file. *)
Definition blocked_parent_world : world :=
  World (list_to_map
           [ ([py "src"], Dir 0);
             ([py "src"; py "sub"], Dir 0);
             ([py "src"; py "sub"; py "c.txt"], File (encode_ascii (py "text")) 5);
             ([py "out"], Dir 0);
             ([py "out"; py "sub"], File [] 6) ])
        9 [].

(** A converted file that is newer than its source. *)
Definition fresh_world : world :=
  World (list_to_map
           [ ([py "src"], Dir 0);
             ([py "src"; py "a.txt"], File (encode_ascii (py "new")) 5);
             ([py "out"], Dir 0);
             ([py "out"; py "a.md"], File (encode_ascii (py "old")) 7) ])
        9 [].

(** A file of a type that has no converter. *)
Definition odd_world : world :=
  World (list_to_map
           [ ([py "src"], Dir 0);
             ([py "src"; py "deep"], Dir 0);
             ([py "src"; py "deep"; py "d.xyz"], File [] 5);
             ([py "out"], Dir 0) ])
        9 [].

(** The source directory is the destination root. *)
Definition same_dir_world : world :=
  World (list_to_map
           [ ([py "docs"], Dir 0);
             ([py "docs"; py "plain.md"], File (encode_ascii (py "just text")) 5) ])
        9 [].

(** The records that [process_file] of the splitting script can leave
    above DEBUG for the source [src_path]: the four INFO lines and the
    ERROR line of the handler. *)
Definition report_of (src_path : path) (r : log_level * str) : Prop :=
  r = (INFO, py "Copied (no headings): " ++ name src_path)
  ∨ r = (INFO, py "Skipped (no headings): " ++ name src_path)
  ∨ (∃ dst, r = (INFO, py "[DRY-RUN] would copy " ++ str_of_path src_path
                       ++ [32; 8594; 32]%N ++ str_of_path dst))
  ∨ (∃ n, r = (INFO, py "Processed " ++ name src_path ++ py " ("
                     ++ str_of_nat n ++ py " chapters)"))
  ∨ (∃ e, r = (ERROR, py "Failed " ++ name src_path ++ py ": " ++ exn_msg e)).

(** [m] ends with one record above DEBUG, one that [P] holds of, when it
    returns, and with none when it raises. *)
Definition ends_info (P : log_level * str → Prop) (m : M unit) : Prop :=
  ∀ w, match (m w).2 with
       | inr _ => ∃ r, r.1 = INFO ∧ P r ∧ reports (m w).1 = r :: reports w
       | inl _ => reports (m w).1 = reports w
       end.

(** The two entries of the destination root that [process_file] of the
    splitting script can make for a source: the book directory, named by
    the stem, and the copy, named by the stem with its own last suffix
    replaced by ".md". *)
Definition slots (src_path : path) : list (list N) :=
  [stem src_path; stem [stem src_path] ++ py ".md"].

(** [q] is one of these entries for [src_path], or lies below one. *)
Definition in_region (dst_root src_path q : path) : bool :=
  existsb (λ c, prefix_of (dst_root ++ [c]) q) (slots src_path).

(** Two sources that share none of these entries. *)
Definition apart (fp fp' : path) : bool :=
  forallb (λ c, forallb (λ c', negb (bool_decide (c = c'))) (slots fp'))
          (slots fp).

(** Any two different files of the list are apart. *)
Definition all_apart (md_files : list path) : bool :=
  forallb (λ fp,
    forallb (λ fp', bool_decide (fp = fp') || apart fp fp') md_files)
  md_files.

(** The destination root is there, with the directories above it, as
    after [args.dst.mkdir(parents=True, exist_ok=True)] of [main]. *)
Definition chain_ok (dst_root : path) (w : world) : bool :=
  forallb (λ k, is_dir w (take k dst_root)) (seq 0 (S (length dst_root))).

(** The paths [process_file] looks at for a source: the source, the
    destination root with the directories above it, and the entries of
    the source under the destination root. *)
Definition footprint (dst_root src_path q : path) : bool :=
  bool_decide (q = src_path) || prefix_of q dst_root
  || in_region dst_root src_path q.

Definition everywhere (q : path) : bool := true.

(** Two worlds with the same clock and the same entries at the paths
    of [S]. *)
Definition agree (S : path → bool) (w w' : world) : Prop :=
  clock w = clock w' ∧ ∀ q, S q = true → files w !! q = files w' !! q.

(** What [m] does depends on the clock and on the paths of [S] only: from
    two worlds that agree there it gives the same result, worlds that
    agree there again, and the same new records. *)
Definition determined {A} (S : path → bool) (m : M A) : Prop :=
  ∀ w w', agree S w w' →
    (m w).2 = (m w').2 ∧ agree S (m w).1 (m w').1 ∧
    ∃ l, logged (m w).1 = l ++ logged w ∧ logged (m w').1 = l ++ logged w'.

(** From a world where the destination root is there: it still is, the
    clock is the same, and so is everything that is not an entry of
    [src_path] under the destination root. *)
Definition region_kept (dst_root src_path : path) (w w' : world) : Prop :=
  chain_ok dst_root w = true →
  chain_ok dst_root w' = true ∧ clock w' = clock w ∧
  ∀ q, in_region dst_root src_path q = false → files w' !! q = files w !! q.

(** The same file system and the same records, up to their order. *)
Definition same_outcome (w w' : world) : Prop :=
  files w = files w' ∧ clock w = clock w' ∧ logged w ≡ₚ logged w'.

(** A file with headings and a file without, under different names. *)
Definition pair_world : world :=
  World (list_to_map
           [ ([py "src"], Dir 0);
             ([py "src"; py "notes.md"], File (encode_ascii example_text) 5);
             ([py "src"; py "plain.md"], File (encode_ascii (py "just text")) 5);
             ([py "out"], Dir 0) ])
        9 [].

(** * Properties *)

(** ** Strings *)

Lemma drop_while_snoc (p : char → bool) (l : str) (c : char) :
  p c = false → drop_while p (l ++ [c]) = drop_while p l ++ [c].
Proof.
  intros Hc. induction l as [|x l IH]; simpl.
  - by rewrite Hc.
  - destruct (p x); [exact IH | done].
Qed.

Lemma rstrip_by_cons (p : char → bool) (c : char) (s : str) :
  p c = false → rstrip_by p (c :: s) = c :: rstrip_by p s.
Proof.
  intros Hc. unfold rstrip_by. simpl rev.
  rewrite drop_while_snoc by done. rewrite rev_app_distr. done.
Qed.

Lemma strip_by_cons (p : char → bool) (c : char) (s : str) :
  p c = false → strip_by p (c :: s) = c :: rstrip_by p s.
Proof.
  intros Hc. unfold strip_by, lstrip_by. simpl. rewrite Hc.
  by apply rstrip_by_cons.
Qed.

Lemma startswith_hash (s : str) :
  startswith s [HASH] = true ↔ ∃ r, s = HASH :: r.
Proof.
  destruct s as [|c s]; cbn [startswith].
  - split; [done | by intros [r ?]].
  - rewrite andb_true_r, N.eqb_eq. split.
    + intros <-. by eexists.
    + intros [r [= ->]]. done.
Qed.

Lemma strip_hash (s : str) :
  startswith s [HASH] = true →
  startswith (strip s) [HASH] = true ∧ truthy (strip s) = true.
Proof.
  intros [r ->]%startswith_hash.
  unfold strip. rewrite strip_by_cons by done. split; [|done].
  apply startswith_hash. by eexists.
Qed.

Lemma slice_app_drop (t : str) (a b : nat) :
  a ≤ b → slice t a b ++ drop b t = drop a t.
Proof.
  intros Hab. unfold slice.
  replace (drop b t) with (drop (b - a) (drop a t)).
  - apply take_drop.
  - rewrite drop_drop. f_equal. lia.
Qed.

Lemma slice_hash (t : str) (a b : nat) :
  a < b → startswith (drop a t) [HASH] = true →
  startswith (slice t a b) [HASH] = true.
Proof.
  intros Hab [r Hr]%startswith_hash. apply startswith_hash.
  unfold slice. rewrite Hr.
  destruct (b - a) as [|k] eqn:E; [lia|]. by eexists.
Qed.

(** ** The matches of the heading pattern *)

Lemma literal_hash (level : nat) (s rest : str) :
  1 ≤ level → Heading.literal (replicate level HASH) s = Some rest →
  startswith s [HASH] = true.
Proof.
  destruct level as [|n]; [lia|]. intros _. cbn [replicate Heading.literal].
  destruct s as [|d s]; [done|].
  destruct (HASH =? d)%N eqn:E; [|done].
  intros _. apply N.eqb_eq in E. subst d. apply startswith_hash. by eexists.
Qed.

Lemma match_here_hash (level : nat) (s : str) (r : nat * str) :
  1 ≤ level → Heading.match_here level s = Some r →
  startswith s [HASH] = true.
Proof.
  intros Hl. unfold Heading.match_here.
  destruct (Heading.literal _ s) as [rest|] eqn:E; [|done].
  intros _. by eapply literal_hash.
Qed.

(** Every match starts at or after the position the search is at, on a
    "#" when the level is at least one. *)
Lemma finditer_from_starts (level : nat) (s : str) :
  ∀ bol skip pos,
    Forall (λ m : nat * str,
              pos ≤ m.1 ∧
              (1 ≤ level → startswith (drop (m.1 - pos) s) [HASH] = true))
           (Heading.finditer_from level bol skip pos s).
Proof.
  induction s as [|c r IH]; intros bol skip pos;
    cbn [Heading.finditer_from]; [constructor|].
  assert (Hshift : ∀ b k,
    Forall (λ m : nat * str,
              pos ≤ m.1 ∧
              (1 ≤ level → startswith (drop (m.1 - pos) (c :: r)) [HASH] = true))
           (Heading.finditer_from level b k (S pos) r)).
  { intros b k. eapply Forall_impl; [apply IH|].
    intros [p g] [Hp Hh]; cbn [fst] in *. split; [lia|].
    intros Hl. replace (p - pos) with (S (p - S pos)) by lia.
    cbn [drop]. by apply Hh. }
  destruct skip as [|k]; [|apply Hshift].
  destruct (if bol then Heading.match_here level (c :: r) else None)
    as [[n g]|] eqn:E; [|apply Hshift].
  constructor; [|apply Hshift].
  cbn [fst]. split; [lia|]. intros Hl. rewrite Nat.sub_diag. cbn [drop].
  destruct bol; [|done]. by eapply match_here_hash.
Qed.

(** The matches come in the order of the text, each one starting after
    the one before. *)
Lemma finditer_from_sorted (level : nat) (s : str) :
  ∀ bol skip pos,
    StronglySorted (λ a b : nat * str, a.1 < b.1)
                   (Heading.finditer_from level bol skip pos s).
Proof.
  induction s as [|c r IH]; intros bol skip pos;
    cbn [Heading.finditer_from]; [constructor|].
  destruct skip as [|k]; [|apply IH].
  destruct (if bol then Heading.match_here level (c :: r) else None)
    as [[n g]|]; [|apply IH].
  constructor; [apply IH|].
  eapply Forall_impl; [apply (finditer_from_starts level r)|].
  intros [p g'] [Hp _]; cbn [fst] in *. lia.
Qed.

(** ** The segments of [split_markdown] *)

Lemma split_loop_pieces (text : str) (ms : list (nat * str)) :
  ∀ parts last_pos last_title,
    split_loop text ms parts last_pos last_title =
    parts ++ List.filter kept (strip_piece <$> pieces text ms last_pos last_title).
Proof.
  induction ms as [|[start g2] ms IH]; intros parts lp lt;
    cbn [split_loop pieces fmap list_fmap List.filter].
  - unfold kept, strip_piece, slice_from. cbn [fst snd].
    destruct (truthy (strip (drop lp text))); [done | by rewrite app_nil_r].
  - rewrite IH. unfold kept at 2, strip_piece at 2. cbn [fst snd].
    destruct (truthy (strip (slice text lp start))); [|done].
    by rewrite <- app_assoc.
Qed.

Lemma pieces_concat (text : str) (ms : list (nat * str)) :
  ∀ last_pos last_title,
    Forall (λ m : nat * str, last_pos ≤ m.1) ms →
    StronglySorted (λ a b : nat * str, a.1 < b.1) ms →
    concat ((pieces text ms last_pos last_title).*2) = drop last_pos text.
Proof.
  induction ms as [|[start g2] ms IH]; intros lp lt Hge Hs;
    cbn [pieces fmap list_fmap concat snd].
  - unfold slice_from. by rewrite app_nil_r.
  - apply Forall_cons in Hge as [Hle _]. cbn [fst] in Hle.
    apply StronglySorted_inv in Hs as [Hs Hlt].
    rewrite IH; [by apply slice_app_drop | | done].
    eapply Forall_impl; [exact Hlt|]. intros [p g] Hp; cbn [fst] in *. lia.
Qed.

Lemma pieces_hash (text : str) (ms : list (nat * str)) :
  ∀ last_pos last_title,
    startswith (drop last_pos text) [HASH] = true →
    Forall (λ m : nat * str,
              last_pos < m.1 ∧ startswith (drop m.1 text) [HASH] = true) ms →
    StronglySorted (λ a b : nat * str, a.1 < b.1) ms →
    Forall (λ tp : str * str, startswith tp.2 [HASH] = true)
           (pieces text ms last_pos last_title).
Proof.
  induction ms as [|[start g2] ms IH]; intros lp lt Hlp Hall Hs;
    cbn [pieces].
  - constructor; [exact Hlp | constructor].
  - apply Forall_cons in Hall as [[Hlt Hh] Hall]. cbn [fst] in Hlt, Hh.
    apply StronglySorted_inv in Hs as [Hs Hlts].
    constructor; [by apply slice_hash|].
    apply IH; [done| |done].
    apply Forall_forall. intros [p g] Hin.
    rewrite Forall_forall in Hall, Hlts.
    specialize (Hall _ Hin) as [_ Hh']. specialize (Hlts _ Hin).
    cbn [fst] in *. done.
Qed.

Lemma refine_hash (level : nat) (title chunk : str) :
  startswith chunk [HASH] = true →
  refine level (title, chunk) = (title, chunk).
Proof. intros H. unfold refine. by rewrite H. Qed.

Lemma refine_kept_hash (level : nat) (rest : list (str * str)) :
  Forall (λ tp : str * str, startswith tp.2 [HASH] = true) rest →
  refine level <$> List.filter kept (strip_piece <$> rest) =
  strip_piece <$> rest.
Proof.
  induction 1 as [|[t p] rest Hp _ IH]; [done|].
  cbn [snd] in Hp. apply strip_hash in Hp as [Hh Hk].
  cbn [fmap list_fmap]. change (strip_piece (t, p)) with (t, strip p).
  cbn [List.filter]. unfold kept at 1. cbn [snd]. rewrite Hk.
  cbn [fmap list_fmap]. rewrite refine_hash by done.
  f_equal. exact IH.
Qed.

(** C2, as the code has it: the prologue of the example is given the
    heading line "# prologue" and an empty line. *)
Theorem split_example_prologue_heading :
  split_markdown example_text 1 =
  [ (py "prologue", py ("# prologue" +:+ nl +:+ nl +:+ "Intro text"));
    (py "A", py ("# A" +:+ nl +:+ "body1"));
    (py "B", py ("# B" +:+ nl +:+ "body2")) ].
Proof. vm_compute. reflexivity. Qed.

(** C2 refuted: the result is not the sequence the claim gives, whose
    first body is the bare "Intro text". *)
Lemma split_example_not_as_claimed :
  split_markdown example_text 1 ≠
  [ (py "prologue", py "Intro text");
    (py "A", py ("# A" +:+ nl +:+ "body1"));
    (py "B", py ("# B" +:+ nl +:+ "body2")) ].
Proof. vm_compute. discriminate. Qed.

(** C3, as the code has it: for a level of at least one the text is a
    prologue slice followed by slices that each start with "#" at a
    match; the segments are these slices, stripped, in this order,
    except that a prologue of white space only gives no segment and a
    prologue that does not start with "#" is passed through [refine],
    which puts the line "#...# prologue" and an empty line before it. *)
Theorem split_markdown_slices (text : str) (level : nat) :
  1 ≤ level →
  ∃ (p0 : str) (rest : list (str * str)),
    text = p0 ++ concat (rest.*2) ∧
    Forall (λ tp : str * str, startswith tp.2 [HASH] = true) rest ∧
    split_markdown text level =
      (if truthy (strip p0) then [refine level (PROLOGUE, strip p0)] else [])
      ++ (strip_piece <$> rest).
Proof.
  intros Hl. unfold split_markdown, Heading.finditer.
  pose proof (finditer_from_starts level text true 0 0) as Hst.
  pose proof (finditer_from_sorted level text true 0 0) as Hso.
  rewrite split_loop_pieces. cbn [app].
  destruct (Heading.finditer_from level true 0 0 text) as [|[start g2] ms].
  - exists text, []. cbn [pieces fmap list_fmap concat List.filter].
    unfold slice_from, kept, strip_piece. cbn [fst snd].
    rewrite drop_0, !app_nil_r. split; [done|]. split; [constructor|].
    by destruct (truthy (strip text)).
  - apply Forall_cons in Hst as [[_ Hh] Hst]. cbn [fst] in Hh.
    specialize (Hh Hl). rewrite Nat.sub_0_r in Hh.
    apply StronglySorted_inv in Hso as [Hso Hlt].
    exists (slice text 0 start), (pieces text ms start (strip g2)).
    split; [|split].
    + rewrite pieces_concat; [by rewrite slice_app_drop by lia | | done].
      eapply Forall_impl; [exact Hlt|]. intros [p g] Hp; cbn [fst] in *. lia.
    + apply pieces_hash; [done | | done].
      apply Forall_forall. intros [p g] Hin.
      rewrite Forall_forall in Hst, Hlt.
      specialize (Hst _ Hin) as [_ Hp]. specialize (Hlt _ Hin).
      cbn [fst] in *. split; [done|].
      specialize (Hp Hl). by rewrite Nat.sub_0_r in Hp.
    + cbn [pieces fmap list_fmap].
      change (strip_piece (PROLOGUE, slice text 0 start))
        with (PROLOGUE, strip (slice text 0 start)).
      cbn [List.filter]. unfold kept at 1. cbn [snd].
      assert (Hrest := refine_kept_hash level (pieces text ms start (strip g2))).
      destruct (truthy (strip (slice text 0 start)));
        cbn [fmap list_fmap app]; rewrite Hrest; try done.
      all: apply pieces_hash; [done | | done].
      all: apply Forall_forall; intros [p g] Hin.
      all: rewrite Forall_forall in Hst, Hlt.
      all: specialize (Hst _ Hin) as [_ Hp]; specialize (Hlt _ Hin).
      all: cbn [fst] in *; split; [done|].
      all: specialize (Hp Hl); by rewrite Nat.sub_0_r in Hp.
Qed.

(** C3 refuted: the first body of the example is the prologue under
    the heading line "# prologue" and an empty line, characters the text
    does not have; the bodies together are longer than the text. *)
Lemma split_example_adds_characters :
  (split_markdown example_text 1).*2 !! 0 =
    Some (py ("# prologue" +:+ nl +:+ nl +:+ "Intro text")) ∧
  length example_text < length (concat ((split_markdown example_text 1).*2)).
Proof. vm_compute. split; [reflexivity | lia]. Qed.

Lemma split_markdown_slices_witness :
  ∃ (p0 : str) (rest : list (str * str)),
    example_text = p0 ++ concat (rest.*2) ∧
    Forall (λ tp : str * str, startswith tp.2 [HASH] = true) rest ∧
    split_markdown example_text 1 =
      (if truthy (strip p0) then [refine 1 (PROLOGUE, strip p0)] else [])
      ++ (strip_piece <$> rest).
Proof. apply (split_markdown_slices example_text 1). lia. Defined.

(** A match has exactly [level] marks before its white space: a line
    with more or fewer of them starts no match. *)
Lemma match_here_exact_level (level : nat) (s : str) (r : nat * str) :
  Heading.match_here level s = Some r →
  ∃ c rest, s = replicate level HASH ++ c :: rest ∧ is_space c = true.
Proof.
  unfold Heading.match_here.
  destruct (Heading.literal (replicate level HASH) s) as [rest|] eqn:E;
    [|done].
  assert (Hs : s = replicate level HASH ++ rest).
  { clear -E. revert s E. induction (replicate level HASH) as [|x p IH];
      intros s E; cbn [Heading.literal] in E.
    - by injection E as ->.
    - destruct s as [|d s]; [done|].
      destruct (x =? d)%N eqn:Hx; [|done].
      apply N.eqb_eq in Hx as ->. cbn [app]. f_equal. by apply IH. }
  unfold Heading.ws_plus_title. destruct rest as [|c rest]; [done|].
  destruct (is_space c) eqn:Hc; [|done].
  intros _. by exists c, rest.
Qed.

(** C7 at the text "#", "# A", "body": the only match starts at the
    empty heading and runs over the line end, so the heading line "# A"
    is no boundary and the whole text is one segment under the title
    "# A". *)
Theorem heading_after_empty_heading_swallowed :
  Heading.finditer 1 swallowed_text = [(0, py "# A")] ∧
  split_markdown swallowed_text 1 = [(py "# A", swallowed_text)].
Proof. vm_compute. split; reflexivity. Qed.

(** ** [sanitize_filename] *)

Lemma elem_of_drop_while (p : char → bool) (s : str) (c : char) :
  c ∈ drop_while p s → c ∈ s.
Proof.
  induction s as [|x s IH]; cbn [drop_while]; [done|].
  destruct (p x); [|done]. intros H. right. by apply IH.
Qed.

Lemma elem_of_rev (s : str) (c : char) : c ∈ rev s ↔ c ∈ s.
Proof. rewrite !list_elem_of_In. symmetry. apply in_rev. Qed.

Lemma elem_of_strip_by (p : char → bool) (s : str) (c : char) :
  c ∈ strip_by p s → c ∈ s.
Proof.
  unfold strip_by, rstrip_by, lstrip_by. rewrite elem_of_rev.
  intros H%elem_of_drop_while. rewrite elem_of_rev in H.
  by apply elem_of_drop_while in H.
Qed.

Lemma elem_of_sub_invalid (s : str) (c : char) :
  ∀ in_run, c ∈ sub_invalid in_run s →
            c = USCORE ∨ (c ∈ s ∧ valid_char c = true).
Proof.
  induction s as [|x s IH]; intros b; cbn [sub_invalid].
  - by intros ?%elem_of_nil.
  - destruct (valid_char x) eqn:Hx.
    + intros [->|H]%elem_of_cons.
      * right. split; [left | done].
      * destruct (IH _ H) as [?|[? ?]]; [by left|]. right. split; [by right|done].
    + assert (Hrec : c ∈ sub_invalid true s →
                     c = USCORE ∨ c ∈ x :: s ∧ valid_char c = true).
      { intros H. destruct (IH _ H) as [?|[? ?]]; [by left|].
        right. split; [by right|done]. }
      destruct b; [exact Hrec|].
      intros [->|H]%elem_of_cons; [by left | by apply Hrec].
Qed.

Lemma valid_not_upper_safe (c : char) :
  valid_char c = true → in_range 65 90 c = false → safe_char c = true.
Proof.
  unfold valid_char, safe_char. intros Hv Hu. rewrite Hu in Hv. exact Hv.
Qed.

Lemma sub_invalid_all_uscore (s : str) :
  Forall (λ c, valid_char c = false ∨ c = USCORE) s →
  ∀ in_run, Forall (λ c, c = USCORE) (sub_invalid in_run s).
Proof.
  induction 1 as [|x s Hx _ IH]; intros b; cbn [sub_invalid]; [constructor|].
  destruct (valid_char x) eqn:Hv.
  - destruct Hx as [?| ->]; [done|]. constructor; [done | apply IH].
  - destruct b; [apply IH|]. constructor; [done | apply IH].
Qed.

Lemma drop_while_all (p : char → bool) (s : str) :
  Forall (λ c, p c = true) s → drop_while p s = [].
Proof.
  induction 1 as [|x s Hx _ IH]; cbn [drop_while]; [done|]. by rewrite Hx.
Qed.

Lemma strip_by_all (p : char → bool) (s : str) :
  Forall (λ c, p c = true) s → strip_by p s = [].
Proof.
  intros H. unfold strip_by, rstrip_by, lstrip_by.
  by rewrite (drop_while_all p s H).
Qed.

Lemma untitled_safe : Forall (λ c, safe_char c = true) UNTITLED.
Proof. repeat constructor. Qed.

(** C10: with the default length, [sanitize_filename] returns a string
    that is not empty, has at most 80 characters, all of them a-z, 0-9,
    ".", "_" or "-"; it is "untitled" when every character of the lowered
    name is outside [A-Za-z0-9._-] or is "_".  [str.lower()] enters by the
    one fact that it leaves no A-Z behind. *)
Theorem sanitize_filename_safe (lower : str → str) (name : str) :
  (∀ s c, c ∈ lower s → in_range 65 90 c = false) →
  sanitize_filename_default lower name ≠ [] ∧
  length (sanitize_filename_default lower name) ≤ 80 ∧
  Forall (λ c, safe_char c = true) (sanitize_filename_default lower name) ∧
  (Forall (λ c, valid_char c = false ∨ c = USCORE) (lower name) →
   sanitize_filename_default lower name = UNTITLED).
Proof.
  intros Hlow. unfold sanitize_filename_default, sanitize_filename.
  set (clean := strip_by is_uscore (sub_invalid false (lower name))).
  change (slice_to clean 80) with (take 80 clean).
  assert (Hclean : Forall (λ c, safe_char c = true) clean).
  { apply Forall_forall. intros c Hc%elem_of_strip_by.
    apply elem_of_sub_invalid in Hc as [->|[Hin Hv]]; [done|].
    apply valid_not_upper_safe; [done|]. by eapply Hlow. }
  split; [|split; [|split]].
  - destruct (take 80 clean) eqn:E; [by vm_compute | done].
  - destruct (take 80 clean) eqn:E; [vm_compute; lia|].
    rewrite <- E, length_take. lia.
  - destruct (take 80 clean) eqn:E; [apply untitled_safe|].
    rewrite <- E. apply Forall_forall. intros c Hc.
    rewrite Forall_forall in Hclean. apply Hclean.
    by apply (subseteq_take 80 clean).
  - intros Hall. subst clean. rewrite strip_by_all; [done|].
    eapply Forall_impl; [by apply sub_invalid_all_uscore|].
    intros c ->. done.
Qed.

Lemma lower_ascii_no_upper (s : str) (c : char) :
  c ∈ lower_ascii s → in_range 65 90 c = false.
Proof.
  unfold lower_ascii. intros (x & -> & _)%list_elem_of_fmap.
  unfold in_range. destruct ((65 <=? x)%N && (x <=? 90)%N) eqn:E.
  - apply andb_true_iff in E as [H1%N.leb_le H2%N.leb_le].
    apply andb_false_iff. right. apply N.leb_gt. lia.
  - exact E.
Qed.

Lemma sanitize_filename_safe_witness :
  sanitize_filename_default lower_ascii (py "Part 1!!") ≠ [] ∧
  length (sanitize_filename_default lower_ascii (py "Part 1!!")) ≤ 80 ∧
  Forall (λ c, safe_char c = true)
         (sanitize_filename_default lower_ascii (py "Part 1!!")) ∧
  (Forall (λ c, valid_char c = false ∨ c = USCORE)
          (lower_ascii (py "Part 1!!")) →
   sanitize_filename_default lower_ascii (py "Part 1!!") = UNTITLED).
Proof.
  apply (sanitize_filename_safe lower_ascii (py "Part 1!!")).
  exact lower_ascii_no_upper.
Defined.

(** ** The chapter file names *)

Lemma uint_digits_digit (d : uint) :
  Forall (λ c, is_digit c = true) (uint_digits d).
Proof. induction d; cbn [uint_digits]; constructor; done. Qed.

Lemma uint_of_uint_digits (d : uint) : uint_of_digits (uint_digits d) = d.
Proof. induction d; cbn [uint_digits uint_of_digits]; [done|..]; by rewrite IHd. Qed.

Lemma of_uint_zeros (k : nat) (s : str) :
  Nat.of_uint (uint_of_digits (replicate k 48%N ++ s)) =
  Nat.of_uint (uint_of_digits s).
Proof. induction k as [|k IH]; [done|]. cbn [replicate app uint_of_digits]. exact IH. Qed.

Lemma format_02d_value (idx : nat) :
  Nat.of_uint (uint_of_digits (format_02d idx)) = idx.
Proof.
  unfold format_02d, str_of_nat.
  rewrite of_uint_zeros, uint_of_uint_digits.
  apply DecimalNat.Unsigned.of_to.
Qed.

Lemma format_02d_digit (idx : nat) :
  Forall (λ c, is_digit c = true) (format_02d idx).
Proof.
  unfold format_02d. apply Forall_app. split.
  - apply Forall_replicate. done.
  - apply uint_digits_digit.
Qed.

(** Two runs of digits that are each followed by "_" are the same run
    when the strings are the same. *)
Lemma digits_uscore_inj (d1 : str) :
  ∀ d2 r1 r2,
    Forall (λ c, is_digit c = true) d1 →
    Forall (λ c, is_digit c = true) d2 →
    d1 ++ USCORE :: r1 = d2 ++ USCORE :: r2 → d1 = d2.
Proof.
  induction d1 as [|x d1 IH]; intros [|y d2] r1 r2 H1 H2 E; cbn [app] in E.
  - done.
  - injection E as E _. apply Forall_cons in H2 as [Hy _].
    subst y. done.
  - injection E as E _. apply Forall_cons in H1 as [Hx _].
    subst x. done.
  - injection E as -> E. f_equal.
    apply Forall_cons in H1 as [_ H1]. apply Forall_cons in H2 as [_ H2].
    by eapply IH.
Qed.

Lemma chapter_fname_inj (lower : str → str) (i j : nat) (t t' : str) :
  chapter_fname lower i t = chapter_fname lower j t' → i = j.
Proof.
  unfold chapter_fname. intros E. apply app_inv_head in E.
  change (py "_" ++ ?x) with (USCORE :: x) in E.
  apply digits_uscore_inj in E; [|apply format_02d_digit..].
  rewrite <- (format_02d_value i), <- (format_02d_value j). by rewrite E.
Qed.

Lemma str_ltb_app_head (p a b : str) : str_ltb (p ++ a) (p ++ b) = str_ltb a b.
Proof.
  induction p as [|x p IH]; [done|]. cbn [app str_ltb].
  by rewrite N.ltb_irrefl, N.eqb_refl, IH.
Qed.

Lemma str_ltb_app_tail (a : str) :
  ∀ b x y, length a = length b → str_ltb a b = true →
           str_ltb (a ++ x) (b ++ y) = true.
Proof.
  induction a as [|c a IH]; intros [|d b] x y Hlen Hlt; try done.
  cbn [app str_ltb] in *.
  apply orb_true_iff in Hlt as [Hlt|[Heq Hlt]%andb_true_iff].
  - by rewrite Hlt.
  - rewrite Heq, (IH b) by (done || by injection Hlen). apply orb_true_r.
Qed.

Lemma two_digits_ordered_100 : two_digits_ordered 100 = true.
Proof. vm_compute. reflexivity. Qed.

Lemma format_02d_lt (i j : nat) :
  i < j → j < 100 →
  length (format_02d i) = length (format_02d j) ∧
  str_ltb (format_02d i) (format_02d j) = true.
Proof.
  intros Hij Hj. pose proof two_digits_ordered_100 as H.
  unfold two_digits_ordered in H.
  rewrite forallb_forall in H. specialize (H j).
  rewrite forallb_forall in H.
  specialize (H ltac:(apply in_seq; lia) i ltac:(apply in_seq; lia)).
  apply andb_true_iff in H as [[H1%Nat.eqb_eq H2%Nat.eqb_eq]%andb_true_iff H3].
  split; [congruence | done].
Qed.

Lemma chapter_fname_lt (lower : str → str) (i j : nat) (t t' : str) :
  i < j → j < 100 →
  str_ltb (chapter_fname lower i t) (chapter_fname lower j t') = true.
Proof.
  intros Hij Hj. unfold chapter_fname. rewrite str_ltb_app_head.
  destruct (format_02d_lt i j Hij Hj) as [Hlen Hlt].
  by apply str_ltb_app_tail.
Qed.

(** C6, as the code has it: the names given to the segments of one split
    are pairwise distinct, whatever the titles and however many segments
    there are; a segment that comes earlier in the document has the
    lexicographically smaller name when there are at most 100 segments
    (the index is printed on two digits). *)
Theorem chapter_fnames_distinct_ordered (lower : str → str)
    (chapters : list (str * str)) (i j : nat) (a b : str) :
  i < j →
  chapter_fnames lower chapters !! i = Some a →
  chapter_fnames lower chapters !! j = Some b →
  a ≠ b ∧ (length chapters ≤ 100 → str_ltb a b = true).
Proof.
  unfold chapter_fnames. rewrite !list_lookup_imap. intros Hij Ha Hb.
  destruct (chapters !! i) as [ci|] eqn:Ei; [|done].
  destruct (chapters !! j) as [cj|] eqn:Ej; [|done].
  cbn [fmap option_fmap option_map] in Ha, Hb.
  injection Ha as <-. injection Hb as <-. split.
  - intros E%chapter_fname_inj. lia.
  - intros Hlen. apply lookup_lt_Some in Ej.
    apply chapter_fname_lt; lia.
Qed.

Lemma chapter_fnames_distinct_ordered_witness :
  py "ch00_part_1.md" ≠ py "ch01_part_1.md" ∧
  (length twin_chapters ≤ 100 →
   str_ltb (py "ch00_part_1.md") (py "ch01_part_1.md") = true).
Proof.
  apply (chapter_fnames_distinct_ordered lower_ascii twin_chapters 0 1).
  - lia.
  - vm_compute. reflexivity.
  - vm_compute. reflexivity.
Defined.

(** C6 refuted: a text of 101 chapters; the name of segment 100 is
    "ch100_a.md", which is below "ch11_a.md", the name of segment 11. *)
Lemma chapter_100_sorts_before_chapter_11 :
  let names := chapter_fnames lower_ascii (split_markdown long_text 1) in
  length names = 101 ∧
  names !! 11 = Some (py "ch11_a.md") ∧
  names !! 100 = Some (py "ch100_a.md") ∧
  str_ltb (py "ch100_a.md") (py "ch11_a.md") = true.
Proof. vm_compute. repeat split; reflexivity. Qed.

(** ** The monad and the file system *)

Lemma bind_ok {A B} (m : M A) (k : A → M B) (w w' : world) (a : A) :
  m w = (w', inr a) → bind m k w = k a w'.
Proof. intros H. unfold bind. by rewrite H. Qed.

Lemma bind_err {A B} (m : M A) (k : A → M B) (w w' : world) (e : exn) :
  m w = (w', inl e) → bind m k w = (w', inl e).
Proof. intros H. unfold bind. by rewrite H. Qed.

Lemma adds_dirs_only_refl (w : world) : adds_dirs_only w w.
Proof. repeat split. intros p. by left. Qed.

Lemma adds_dirs_only_trans (w w1 w2 : world) :
  adds_dirs_only w w1 → adds_dirs_only w1 w2 → adds_dirs_only w w2.
Proof.
  intros (Hc1 & Hl1 & H1) (Hc2 & Hl2 & H2).
  split; [congruence|]. split; [congruence|].
  intros p. destruct (H1 p) as [E1|[E1 E1']], (H2 p) as [E2|[E2 E2']].
  - left. congruence.
  - right. split; congruence.
  - right. split; congruence.
  - right. split; congruence.
Qed.

Lemma adds_dirs_only_lookup (w w1 : world) (p : path) (n : node) :
  adds_dirs_only w w1 → lookup_node w p = Some n → lookup_node w1 p = Some n.
Proof.
  intros (_ & _ & H). destruct p as [|c p]; [done|]. cbn [lookup_node].
  intros E. destruct (H (c :: p)) as [E1|[E1 _]]; congruence.
Qed.

Lemma ensure_dir_spec (p : path) (w : world) :
  ∃ w1 r, ensure_dir p w = (w1, r) ∧ adds_dirs_only w w1.
Proof.
  unfold ensure_dir. destruct (lookup_node w p) as [[c t|t]|] eqn:E.
  - eexists _, _. split; [done | apply adds_dirs_only_refl].
  - eexists _, _. split; [done | apply adds_dirs_only_refl].
  - eexists _, _. split; [done|]. repeat split. intros q. cbn [set_node files].
    destruct (decide (p = q)) as [<-|Hne].
    + right. rewrite lookup_insert_eq. split; [|done].
      destruct p; [done | exact E].
    + left. by rewrite lookup_insert_ne.
Qed.

Lemma mkdir_from_spec (rest : path) :
  ∀ pre w, ∃ w1 r, mkdir_from pre rest w = (w1, r) ∧ adds_dirs_only w w1.
Proof.
  induction rest as [|c rest IH]; intros pre w; cbn [mkdir_from].
  - eexists _, _. split; [done | apply adds_dirs_only_refl].
  - destruct (ensure_dir_spec (pre ++ [c]) w) as (w1 & [e|[]] & E & H1).
    + eexists _, _. split; [by apply bind_err | done].
    + destruct (IH (pre ++ [c]) w1) as (w2 & r & E2 & H2).
      eexists _, _. split.
      * erewrite bind_ok by exact E. exact E2.
      * by eapply adds_dirs_only_trans.
Qed.

Lemma relative_to_aux_app (root p : path) :
  relative_to_aux (root ++ p) root = Some p.
Proof.
  induction root as [|c root IH]; [done|].
  cbn [app relative_to_aux]. by rewrite bool_decide_eq_true_2.
Qed.

Lemma copy_ok (src dst : path) (w w2 : world) :
  copy src dst w = (w2, inr tt) →
  ∃ c t target,
    lookup_node w src = Some (File c t) ∧
    (target = dst ∨ target = dst ++ [name src]) ∧
    w2 = set_node target (File c (clock w)) w.
Proof.
  unfold copy. unfold bind at 1. cbn beta iota.
  set (target := if is_dir w dst then dst ++ [name src] else dst).
  case_bool_decide as Hsame; [unfold raise; discriminate|].
  unfold bind, read_bytes, write_bytes.
  destruct (lookup_node w src) as [[c t|t]|]; [|discriminate..].
  destruct (is_dir w target); [discriminate|].
  destruct (is_dir w (parent target)); [|discriminate].
  intros [= <-]. exists c, t, target. split; [done|]. split; [|done].
  subst target. destruct (is_dir w dst); [by right | by left].
Qed.

(** ** The staleness test of [convert_any_to_md.py] *)

(** C1, as the code has it: with the source there, the test leaves the
    world as it is, and the item goes on to conversion exactly when
    [force] is set, or the destination is missing, or the destination is
    not newer than the source; equal time stamps convert again. *)
Theorem up_to_date_processes (w : world) (force : bool)
    (src_path dst_path : path) (ns : node) :
  lookup_node w src_path = Some ns →
  ∃ skip : bool,
    Convert.up_to_date force src_path dst_path w = (w, inr skip) ∧
    (skip = false ↔
       force = true ∨ lookup_node w dst_path = None
       ∨ ∃ nd, lookup_node w dst_path = Some nd
               ∧ (node_mtime nd ≤ node_mtime ns)%Z).
Proof.
  intros Hs. unfold Convert.up_to_date.
  destruct force; cbn [negb].
  { exists false. split; [done|]. split; [by left | done]. }
  unfold bind, exists_, st_mtime, ret.
  destruct (lookup_node w dst_path) as [nd|] eqn:Hd.
  - rewrite bool_decide_eq_true_2 by by eexists.
    rewrite Hd, Hs.
    exists (node_mtime ns <? node_mtime nd)%Z. split; [done|].
    rewrite Z.ltb_ge. split.
    + intros H. right. right. by exists nd.
    + intros [?|[?|(nd' & [= <-] & H)]]; done.
  - rewrite bool_decide_eq_false_2 by by intros [? ?].
    exists false. split; [done|]. split; [|done]. intros _. right. by left.
Qed.

Lemma up_to_date_processes_witness :
  ∃ skip : bool,
    Convert.up_to_date false [py "src"; py "a.txt"] [py "out"; py "a.md"]
      tie_world = (tie_world, inr skip) ∧
    (skip = false ↔
       false = true ∨ lookup_node tie_world [py "out"; py "a.md"] = None
       ∨ ∃ nd, lookup_node tie_world [py "out"; py "a.md"] = Some nd
               ∧ (node_mtime nd ≤ node_mtime (File (encode_ascii (py "new")) 5))%Z).
Proof.
  apply (up_to_date_processes tie_world false [py "src"; py "a.txt"]
           [py "out"; py "a.md"] (File (encode_ascii (py "new")) 5)).
  vm_compute. reflexivity.
Defined.

(** C1 refuted: source and destination carry the same time stamp, [force]
    is off and the destination exists, so none of the three conditions
    of the claim holds; yet the test does not skip: the file is converted
    again and the destination overwritten. *)
Lemma equal_mtime_is_converted_again :
  lookup_node tie_world [py "src"; py "a.txt"]
    = Some (File (encode_ascii (py "new")) 5) ∧
  lookup_node tie_world [py "out"; py "a.md"]
    = Some (File (encode_ascii (py "old")) 5) ∧
  ¬ (false = true ∨ lookup_node tie_world [py "out"; py "a.md"] = None
     ∨ (5 > 5)%Z) ∧
  Convert.up_to_date false [py "src"; py "a.txt"] [py "out"; py "a.md"]
    tie_world = (tie_world, inr false) ∧
  (let r := Convert.process_file lower_ascii encode_ascii failing_tool
              [py "src"; py "a.txt"] [py "src"] [py "out"] false tie_world in
   r.2 = inr (Some (py "Successfully converted: a.txt")) ∧
   files r.1 !! [py "out"; py "a.md"] = Some (File (encode_ascii (py "new")) 9)).
Proof.
  split; [by vm_compute|]. split; [by vm_compute|]. split.
  - intros [H|[H|H]]; [done | by vm_compute in H | lia].
  - vm_compute. repeat split; reflexivity.
Qed.

(** ** The items of [split_md_by_heading.py] *)

Section SplitItems.

Variable lower : str → str.
Variable decode : list Byte.byte → str.
Variable encode : str → list Byte.byte.

Lemma log_files (lv : log_level) (msg : str) (w : world) :
  log lv msg w = (World (files w) (clock w) ((lv, msg) :: logged w), inr tt).
Proof. done. Qed.

(** The handler of [process_file] cannot raise: the call returns. *)
Lemma process_file_returns (src_path dst_root : path) (level : nat)
    (force : bool) (no_split_action : str) (dry_run : bool) (w : world) :
  ∃ w', Split.process_file lower decode encode src_path dst_root level
          force no_split_action dry_run w = (w', inr tt).
Proof.
  unfold Split.process_file, try_except.
  destruct (Split.process_file_body _ _ _ _ _ _ _ _ _ w) as [w1 [e|[]]];
    eexists; reflexivity.
Qed.

Lemma process_file_caught (src_path dst_root : path) (level : nat)
    (force : bool) (no_split_action : str) (dry_run : bool)
    (w w1 : world) (e : exn) :
  Split.process_file_body lower decode encode src_path dst_root level
    force no_split_action dry_run w = (w1, inl e) →
  Split.process_file lower decode encode src_path dst_root level
    force no_split_action dry_run w =
  (World (files w1) (clock w1)
     ((ERROR, py "Failed " ++ name src_path ++ py ": " ++ exn_msg e)
      :: logged w1), inr tt).
Proof. intros H. unfold Split.process_file, try_except. by rewrite H. Qed.

Lemma process_file_passed (src_path dst_root : path) (level : nat)
    (force : bool) (no_split_action : str) (dry_run : bool)
    (w w1 : world) :
  Split.process_file_body lower decode encode src_path dst_root level
    force no_split_action dry_run w = (w1, inr tt) →
  Split.process_file lower decode encode src_path dst_root level
    force no_split_action dry_run w = (w1, inr tt).
Proof. intros H. unfold Split.process_file, try_except. by rewrite H. Qed.

(** The loop of [main] goes through all the files. *)
Lemma main_sequential_returns (md_files : list path) (dst : path)
    (level : nat) (force : bool) (no_split_action : str) (dry_run : bool) :
  ∀ w, ∃ w', Split.main_sequential lower decode encode md_files dst level
               force no_split_action dry_run w = (w', inr tt).
Proof.
  unfold Split.main_sequential.
  induction md_files as [|fp md_files IH]; intros w; cbn [for_each].
  - by eexists.
  - destruct (process_file_returns fp dst level force no_split_action
                dry_run w) as [w1 E].
    destruct (IH w1) as [w2 E2]. exists w2.
    erewrite bind_ok by exact E. exact E2.
Qed.

(** The no heading branch when nothing is to be written: the files
    stay as they are. *)
Lemma fallback_leaves_files (src_path dst_root : path) (level : nat)
    (force : bool) (no_split_action : str) (dry_run : bool)
    (w : world) (c : list Byte.byte) (t : Z) :
  lookup_node w src_path = Some (File c t) →
  length (split_markdown (decode c) level) ≤ 1 →
  no_split_action ≠ py "copy" ∨ dry_run = true →
  files (Split.process_file lower decode encode src_path dst_root level
           force no_split_action dry_run w).1 = files w.
Proof.
  intros Hsrc Hlen Hcase.
  unfold Split.process_file, try_except, Split.process_file_body,
    Split.read_text.
  unfold bind at 1. unfold bind at 1. unfold read_bytes. rewrite Hsrc.
  unfold ret at 1. cbn beta iota.
  apply Nat.leb_le in Hlen. rewrite Hlen.
  destruct (bool_decide (no_split_action = py "copy")) eqn:Hc.
  - apply bool_decide_eq_true in Hc. destruct Hcase as [Hne| ->]; [by destruct Hne|].
    unfold bind, with_suffix, raise, ret, log.
    destruct (name (dst_root ++ [stem src_path])); reflexivity.
  - reflexivity.
Qed.

(** The copy of the no heading branch. *)
Lemma fallback_copy (src_path dst_root : path) (level : nat)
    (force : bool) (w w2 : world) (c : list Byte.byte) (t : Z) :
  lookup_node w src_path = Some (File c t) →
  length (split_markdown (decode c) level) ≤ 1 →
  Split.process_file_body lower decode encode src_path dst_root level
    force (py "copy") false w = (w2, inr tt) →
  ∃ w1 dst target,
    with_suffix (dst_root ++ [stem src_path]) (py ".md") w = (w, inr dst) ∧
    mkdir_parents (parent dst) w = (w1, inr tt) ∧
    adds_dirs_only w w1 ∧
    (target = dst ∨ target = dst ++ [name src_path]) ∧
    files w2 = <[target := File c (clock w)]> (files w1).
Proof.
  intros Hsrc Hlen.
  unfold Split.process_file_body, Split.read_text.
  unfold bind at 1. unfold bind at 1. unfold read_bytes. rewrite Hsrc.
  unfold ret at 1. cbn beta iota.
  apply Nat.leb_le in Hlen. rewrite Hlen.
  rewrite bool_decide_eq_true_2 by done.
  unfold bind at 1.
  destruct (with_suffix (dst_root ++ [stem src_path]) (py ".md") w)
    as [w0 [e|dst]] eqn:Ews; [done|].
  assert (w0 = w) as ->.
  { unfold with_suffix in Ews.
    destruct (name (dst_root ++ [stem src_path])); by injection Ews. }
  unfold bind at 1.
  destruct (mkdir_from_spec (parent dst) [] w) as (w1 & r & Emk & Hadd).
  fold (mkdir_parents (parent dst)) in Emk. rewrite Emk.
  destruct r as [e|[]]; [done|].
  unfold bind at 1.
  destruct (copy src_path dst w1) as [w1' [e|[]]] eqn:Ecopy; [done|].
  apply copy_ok in Ecopy as (c' & t' & target & Hsrc' & Htarget & ->).
  rewrite (adds_dirs_only_lookup w w1 src_path _ Hadd Hsrc) in Hsrc'.
  injection Hsrc' as <- <-.
  rewrite log_files. intros [= <-].
  exists w1, dst, target. split; [done|]. split; [done|]. split; [done|].
  split; [done|].
  cbn [files set_node]. destruct Hadd as (-> & _). done.
Qed.

End SplitItems.


(** C5 at a dry run over a file of three segments: with [force] the book
    directory of an earlier run is removed with the file in it and made
    anew; without [force] a book directory that was not there is made,
    with the destination root above it. *)
Theorem dry_run_removes_and_makes_directories :
  (let w' := (Split.process_file lower_ascii decode_ascii encode_ascii
                [py "src"; py "notes.md"] [py "out"] 1 true (py "skip") true
                book_world).1 in
   files book_world !! [py "out"; py "notes"; py "ch00_old.md"]
     = Some (File [] 6) ∧
   files w' !! [py "out"; py "notes"; py "ch00_old.md"] = None ∧
   files book_world !! [py "out"; py "notes"] = Some (Dir 6) ∧
   files w' !! [py "out"; py "notes"] = Some (Dir 9)) ∧
  (let w' := (Split.process_file lower_ascii decode_ascii encode_ascii
                [py "src"; py "notes.md"] [py "fresh"] 1 false (py "skip") true
                book_world).1 in
   files book_world !! [py "fresh"] = None ∧
   files w' !! [py "fresh"] = Some (Dir 9) ∧
   files w' !! [py "fresh"; py "notes"] = Some (Dir 9)).
Proof. vm_compute. repeat split; reflexivity. Qed.

(** ** Errors of an item *)

Lemma with_suffix_parent (p q : path) (suf : str) (w w' : world) :
  with_suffix p suf w = (w', inr q) → parent q = parent p.
Proof.
  unfold with_suffix. destruct (name p); [discriminate|].
  intros [= _ <-]. unfold parent at 1. by rewrite removelast_last.
Qed.

Section ConvertItems.

Variable lower : str → str.
Variable encode : str → list Byte.byte.
Variable external : Convert.converter → path → path → M unit.

(** The converter raises: the error is logged, the sidecar written
    beside the destination, and the call returns the error line. *)
Lemma convert_failure_sidecar (src_path src_root dst_root : path)
    (force : bool) (w w1 w2 : world) (rel_path rel_md : path)
    (converter : Convert.converter) (e : exn) (error_file : path) :
  relative_to src_path src_root w = (w, inr rel_path) →
  with_suffix rel_path (py ".md") w = (w, inr rel_md) →
  Convert.up_to_date force src_path (dst_root ++ rel_md) w = (w, inr false) →
  mkdir_parents (parent (dst_root ++ rel_md)) w = (w1, inr tt) →
  Convert.get Convert.CONVERTERS (lower (suffix src_path)) = Some converter →
  Convert.run_converter external converter src_path (dst_root ++ rel_md)
    (log INFO (py "Converting: " ++ str_of_path rel_path ++ py " -> "
               ++ str_of_path rel_md) w1).1 = (w2, inl e) →
  with_suffix (dst_root ++ rel_md) (py ".error.txt") w2
    = (w2, inr error_file) →
  is_dir w2 error_file = false →
  is_dir w2 (parent error_file) = true →
  Convert.process_file lower encode external src_path src_root dst_root
    force w =
  (World (<[error_file :=
              File (encode (py "Failed to convert " ++ str_of_path src_path
                            ++ py ":" ++ [NL; NL] ++ exn_msg e))
                   (clock w2)]> (files w2))
         (clock w2)
         ((ERROR, py "Failed to convert " ++ str_of_path rel_path
                  ++ py ": " ++ exn_msg e) :: logged w2),
   inr (Some (py "ERROR converting " ++ str_of_path rel_path ++ py ": "
              ++ exn_msg e)))
  ∧ parent error_file = parent (dst_root ++ rel_md).
Proof.
  intros Hrel Hmd Hup Hmk Hget Hrun Herr Hnd Hpd.
  split; [|by eapply with_suffix_parent].
  unfold Convert.process_file.
  rewrite (bind_ok _ _ _ _ _ Hrel). cbn beta.
  rewrite (bind_ok _ _ _ _ _ Hmd). cbn beta zeta.
  rewrite (bind_ok _ _ _ _ _ Hup). cbn beta iota.
  rewrite (bind_ok _ _ _ _ _ Hmk). cbn beta. rewrite Hget.
  unfold try_except.
  assert (Hto : relative_to (dst_root ++ rel_md) dst_root w1
                = (w1, inr rel_md)).
  { unfold relative_to. by rewrite relative_to_aux_app. }
  rewrite (bind_ok _ _ _ _ _ Hto). cbn beta.
  unfold bind at 1. rewrite log_files.
  rewrite log_files in Hrun. cbn [fst] in Hrun.
  rewrite (bind_err _ _ _ _ _ Hrun).
  unfold bind at 1. rewrite log_files.
  unfold bind at 1.
  set (w3 := World (files w2) (clock w2) _).
  assert (Herr3 : with_suffix (dst_root ++ rel_md) (py ".error.txt") w3
                  = (w3, inr error_file)).
  { unfold with_suffix in *.
    destruct (name (dst_root ++ rel_md)); [discriminate|].
    injection Herr as <-. done. }
  rewrite Herr3. unfold bind at 1. unfold write_bytes.
  change (is_dir w3 error_file) with (is_dir w2 error_file).
  change (is_dir w3 (parent error_file)) with (is_dir w2 (parent error_file)).
  rewrite Hnd, Hpd. reflexivity.
Qed.

End ConvertItems.

(** C4, as the code has it.  In the conversion script a converter that
    raises leaves an ERROR record, the sidecar [<destination>.error.txt]
    beside the destination, holding the source path and the error text,
    and the error line as result, when the sidecar can be written.  In
    the splitting script an error raised in the [try] block is caught and
    logged, nothing is written for it, and the call returns; the loop of
    [main] then goes on with the files that are left. *)
Theorem item_errors_are_contained (lower : str → str)
    (decode : list Byte.byte → str) (encode : str → list Byte.byte)
    (external : Convert.converter → path → path → M unit) :
  (∀ (src_path src_root dst_root : path) (force : bool) (w w1 w2 : world)
     (rel_path rel_md : path) (converter : Convert.converter) (e : exn)
     (error_file : path),
     relative_to src_path src_root w = (w, inr rel_path) →
     with_suffix rel_path (py ".md") w = (w, inr rel_md) →
     Convert.up_to_date force src_path (dst_root ++ rel_md) w = (w, inr false) →
     mkdir_parents (parent (dst_root ++ rel_md)) w = (w1, inr tt) →
     Convert.get Convert.CONVERTERS (lower (suffix src_path)) = Some converter →
     Convert.run_converter external converter src_path (dst_root ++ rel_md)
       (log INFO (py "Converting: " ++ str_of_path rel_path ++ py " -> "
                  ++ str_of_path rel_md) w1).1 = (w2, inl e) →
     with_suffix (dst_root ++ rel_md) (py ".error.txt") w2
       = (w2, inr error_file) →
     is_dir w2 error_file = false →
     is_dir w2 (parent error_file) = true →
     Convert.process_file lower encode external src_path src_root dst_root
       force w =
     (World (<[error_file :=
                 File (encode (py "Failed to convert " ++ str_of_path src_path
                               ++ py ":" ++ [NL; NL] ++ exn_msg e))
                      (clock w2)]> (files w2))
            (clock w2)
            ((ERROR, py "Failed to convert " ++ str_of_path rel_path
                     ++ py ": " ++ exn_msg e) :: logged w2),
      inr (Some (py "ERROR converting " ++ str_of_path rel_path ++ py ": "
                 ++ exn_msg e)))
     ∧ parent error_file = parent (dst_root ++ rel_md)) ∧
  (∀ (src_path dst_root : path) (level : nat) (force : bool)
     (no_split_action : str) (dry_run : bool) (w w1 : world) (e : exn),
     Split.process_file_body lower decode encode src_path dst_root level
       force no_split_action dry_run w = (w1, inl e) →
     Split.process_file lower decode encode src_path dst_root level
       force no_split_action dry_run w =
     (World (files w1) (clock w1)
        ((ERROR, py "Failed " ++ name src_path ++ py ": " ++ exn_msg e)
         :: logged w1), inr tt)) ∧
  (∀ (fp : path) (rest : list path) (dst : path) (level : nat)
     (force : bool) (no_split_action : str) (dry_run : bool) (w : world),
     ∃ w1,
       Split.process_file lower decode encode fp dst level force
         no_split_action dry_run w = (w1, inr tt) ∧
       Split.main_sequential lower decode encode (fp :: rest) dst level
         force no_split_action dry_run w =
       Split.main_sequential lower decode encode rest dst level
         force no_split_action dry_run w1).
Proof.
  split; [|split].
  - intros. by eapply convert_failure_sidecar.
  - intros. by apply process_file_caught.
  - intros. destruct (process_file_returns lower decode encode fp dst level
                        force no_split_action dry_run w) as [w1 E].
    exists w1. split; [exact E|].
    unfold Split.main_sequential. cbn [for_each].
    by rewrite (bind_ok _ _ _ _ _ E).
Qed.

Lemma item_errors_are_contained_witness :
  let r := Convert.process_file lower_ascii encode_ascii failing_tool
             [py "src"; py "b.pdf"] [py "src"] [py "out"] false pdf_world in
  r.2 = inr (Some (py "ERROR converting b.pdf: exit status 1")) ∧
  files r.1 !! [py "out"; py "b.error.txt"] =
    Some (File (encode_ascii
                  (py ("Failed to convert src/b.pdf:" +:+ nl +:+ nl
                       +:+ "exit status 1"))) 9).
Proof.
  destruct (proj1 (item_errors_are_contained lower_ascii decode_ascii
                     encode_ascii failing_tool)
              [py "src"; py "b.pdf"] [py "src"] [py "out"] false
              pdf_world pdf_world
              (log INFO (py "Converting: b.pdf -> b.md") pdf_world).1
              [py "b.pdf"] [py "b.md"] Convert.pdf_to_md
              (Exn "CalledProcessError" (py "exit status 1"))
              [py "out"; py "b.error.txt"]) as [Hp _];
    try (vm_compute; reflexivity).
  cbv zeta. rewrite Hp. vm_compute. split; reflexivity.
Defined.

(** C4 refuted: the book directory of a file of three segments cannot be
    made, a file is in its place.  The error is caught, the call returns,
    and the files are what they were: no sidecar is written. *)
Lemma split_failure_writes_no_sidecar :
  (∃ w1 e,
     Split.process_file_body lower_ascii decode_ascii encode_ascii
       [py "src"; py "notes.md"] [py "out"] 1 false (py "skip") false
       blocked_world = (w1, inl e)) ∧
  (let r := Split.process_file lower_ascii decode_ascii encode_ascii
              [py "src"; py "notes.md"] [py "out"] 1 false (py "skip") false
              blocked_world in
   r.2 = inr tt ∧ files r.1 = files blocked_world ∧
   (logged r.1).*1 = [ERROR]).
Proof.
  split.
  - eexists _, _. vm_compute. reflexivity.
  - vm_compute. repeat split; reflexivity.
Qed.

(** ** Examples *)

Example sanitize_twins :
  sanitize_filename_default lower_ascii (py "Part 1!!") = py "part_1" ∧
  sanitize_filename_default lower_ascii (py "Part 1??") = py "part_1".
Proof. vm_compute. split; reflexivity. Qed.

Example sanitize_nothing_left :
  sanitize_filename_default lower_ascii (py "?? __ !!") = py "untitled".
Proof. vm_compute. reflexivity. Qed.

Example twin_chapter_fnames :
  chapter_fnames lower_ascii twin_chapters =
  [py "ch00_part_1.md"; py "ch01_part_1.md"].
Proof. vm_compute. reflexivity. Qed.

Example deeper_heading_is_no_boundary :
  Heading.finditer 1 (py ("## deep" +:+ nl +:+ "text")) = [].
Proof. vm_compute. reflexivity. Qed.

Example heading_first_no_prologue :
  split_markdown (py ("# A" +:+ nl +:+ "body")) 1 =
  [(py "A", py ("# A" +:+ nl +:+ "body"))].
Proof. vm_compute. reflexivity. Qed.

Example split_writes_chapters :
  let w' := (Split.process_file lower_ascii decode_ascii encode_ascii
               [py "src"; py "notes.md"] [py "out"] 1 false (py "skip") false
               book_world).1 in
  files w' !! [py "out"; py "notes"; py "ch01_a.md"] =
    Some (File (encode_ascii (py ("# A" +:+ nl +:+ "body1" +:+ nl))) 9).
Proof. vm_compute. reflexivity. Qed.


(** * More of [split_markdown] *)

(** ** Stripping *)

Lemma drop_while_head (p : char → bool) (s r : str) (c : char) :
  drop_while p s = c :: r → p c = false.
Proof.
  induction s as [|x s IH]; cbn [drop_while]; [done|].
  destruct (p x) eqn:Hx; [exact IH|]. by intros [= <- _].
Qed.

Lemma drop_while_idemp (p : char → bool) (s : str) :
  drop_while p (drop_while p s) = drop_while p s.
Proof.
  destruct (drop_while p s) as [|c r] eqn:E; [done|].
  cbn [drop_while]. by rewrite (drop_while_head p s r c E).
Qed.

Lemma strip_by_idemp (p : char → bool) (s : str) :
  strip_by p (strip_by p s) = strip_by p s.
Proof.
  unfold strip_by, lstrip_by.
  destruct (drop_while p s) as [|c r] eqn:E; [done|].
  pose proof (drop_while_head p s r c E) as Hc.
  rewrite rstrip_by_cons by done. cbn [drop_while]. rewrite Hc.
  rewrite rstrip_by_cons by done. f_equal.
  unfold rstrip_by. by rewrite rev_involutive, drop_while_idemp.
Qed.

(** What [rstrip] leaves is empty or ends with a character that is kept. *)
Lemma rstrip_by_last (p : char → bool) (s : str) :
  rstrip_by p s = [] ∨ ∃ b c, rstrip_by p s = b ++ [c] ∧ p c = false.
Proof.
  unfold rstrip_by. destruct (drop_while p (rev s)) as [|c r] eqn:E.
  - by left.
  - right. exists (rev r), c. split; [done|]. by eapply drop_while_head.
Qed.

Lemma strip_by_last (p : char → bool) (s : str) :
  strip_by p s = [] ∨ ∃ b c, strip_by p s = b ++ [c] ∧ p c = false.
Proof. apply rstrip_by_last. Qed.

(** ** The matches *)

Lemma title_eol_spec (s : str) (n : nat) (g : str) :
  Heading.title_eol s = Some (n, g) → g ≠ [] ∧ NL ∉ g.
Proof.
  unfold Heading.title_eol.
  assert (Hnl : NL ∉ take_while Heading.not_nl s).
  { induction s as [|x s IH]; cbn [take_while]; [by intros ?%elem_of_nil|].
    destruct (Heading.not_nl x) eqn:Hx; [|by intros ?%elem_of_nil].
    intros [E|H]%elem_of_cons; [subst x; by vm_compute in Hx | by apply IH]. }
  destruct (take_while Heading.not_nl s) as [|c r]; [done|].
  intros [= _ <-]. done.
Qed.

Lemma ws_star_title_spec (s : str) :
  ∀ n g, Heading.ws_star_title s = Some (n, g) → g ≠ [] ∧ NL ∉ g.
Proof.
  induction s as [|c r IH]; intros n g; cbn [Heading.ws_star_title]; [done|].
  destruct (is_space c).
  - destruct (Heading.ws_star_title r) as [[n' g']|] eqn:E.
    + intros [= _ <-]. by eapply IH.
    + apply title_eol_spec.
  - apply title_eol_spec.
Qed.

Lemma match_here_title (level : nat) (s : str) (n : nat) (g : str) :
  Heading.match_here level s = Some (n, g) → g ≠ [] ∧ NL ∉ g.
Proof.
  unfold Heading.match_here.
  destruct (Heading.literal _ s) as [rest|]; [|done].
  unfold Heading.ws_plus_title. destruct rest as [|c r]; [done|].
  destruct (is_space c); [|done].
  destruct (Heading.ws_star_title r) as [[n' g']|] eqn:E; [|done].
  intros [= _ <-]. by eapply ws_star_title_spec.
Qed.

(** Where a match starts and what it starts with, for the search from
    any position. *)
Lemma finditer_from_shape (level : nat) (s : str) :
  ∀ bol skip pos,
    Forall (λ m : nat * str,
              pos ≤ m.1 ∧
              (∃ c rest, drop (m.1 - pos) s = replicate level HASH ++ c :: rest
                         ∧ is_space c = true) ∧
              ((m.1 = pos ∧ bol = true)
               ∨ (pos < m.1 ∧ s !! (m.1 - pos - 1) = Some NL)) ∧
              m.2 ≠ [] ∧ NL ∉ m.2)
           (Heading.finditer_from level bol skip pos s).
Proof.
  induction s as [|c r IH]; intros bol skip pos;
    cbn [Heading.finditer_from]; [constructor|].
  assert (Hshift : ∀ k,
    Forall (λ m : nat * str,
              pos ≤ m.1 ∧
              (∃ c0 rest, drop (m.1 - pos) (c :: r)
                          = replicate level HASH ++ c0 :: rest
                          ∧ is_space c0 = true) ∧
              ((m.1 = pos ∧ bol = true)
               ∨ (pos < m.1 ∧ (c :: r) !! (m.1 - pos - 1) = Some NL)) ∧
              m.2 ≠ [] ∧ NL ∉ m.2)
           (Heading.finditer_from level (c =? NL)%N k (S pos) r)).
  { intros k. eapply Forall_impl; [apply IH|].
    intros [p g] (Hp & Hd & Hb & Hg); cbn [fst snd] in *.
    split; [lia|]. split; [|split; [|done]].
    - replace (p - pos) with (S (p - S pos)) by lia. exact Hd.
    - right. split; [lia|]. destruct Hb as [[-> Hc]|[Hlt Hl]].
      + replace (S pos - pos - 1) with 0 by lia. cbn.
        apply N.eqb_eq in Hc. by rewrite Hc.
      + replace (p - pos - 1) with (S (p - S pos - 1)) by lia. exact Hl. }
  destruct skip as [|k]; [|apply Hshift].
  destruct (if bol then Heading.match_here level (c :: r) else None)
    as [[n g]|] eqn:E; [|apply Hshift].
  constructor; [|apply Hshift]. cbn [fst snd].
  destruct bol; [|done].
  split; [lia|]. rewrite Nat.sub_diag. cbn [drop].
  split; [by eapply match_here_exact_level|].
  split; [by left|]. by eapply match_here_title.
Qed.

(** X1: every match of the heading pattern starts at the beginning of
    the text or right after a line feed, with exactly [level] marks and
    then a white space character; its title group is not empty and has
    no line feed. *)
Theorem finditer_boundary_shape (level : nat) (text : str) (p : nat)
    (g : str) :
  (p, g) ∈ Heading.finditer level text →
  (p = 0 ∨ (0 < p ∧ text !! (p - 1) = Some NL)) ∧
  (∃ c rest, drop p text = replicate level HASH ++ c :: rest
             ∧ is_space c = true) ∧
  g ≠ [] ∧ NL ∉ g.
Proof.
  intros Hin. pose proof (finditer_from_shape level text true 0 0) as H.
  rewrite Forall_forall in H. specialize (H _ Hin) as (_ & Hd & Hb & Hg).
  cbn [fst snd] in *. rewrite Nat.sub_0_r in Hd.
  split; [|by split].
  destruct Hb as [[-> _]|[Hlt Hl]]; [by left|].
  right. split; [done|]. by rewrite Nat.sub_0_r in Hl.
Qed.

Lemma finditer_boundary_shape_witness :
  (11 = 0 ∨ (0 < 11 ∧ example_text !! (11 - 1) = Some NL)) ∧
  (∃ c rest, drop 11 example_text = replicate 1 HASH ++ c :: rest
             ∧ is_space c = true) ∧
  py "A" ≠ [] ∧ NL ∉ py "A".
Proof.
  apply (finditer_boundary_shape 1 example_text 11 (py "A")).
  vm_compute. constructor.
Defined.

(** ** The segments *)

Lemma pieces_titles (text : str) (ms : list (nat * str)) :
  ∀ last_pos last_title t p,
    (t, p) ∈ pieces text ms last_pos last_title →
    t = last_title ∨ ∃ start g, (start, g) ∈ ms ∧ t = strip g.
Proof.
  induction ms as [|[start g2] ms IH]; intros lp lt t p; cbn [pieces].
  - intros [[= -> _]|H%elem_of_nil]%elem_of_cons; [by left | done].
  - intros [[= -> _]|H]%elem_of_cons; [by left|].
    right. destruct (IH _ _ _ _ H) as [->|(st & g & Hin & ->)].
    + exists start, g2. split; [left | done].
    + exists st, g. split; [by right | done].
Qed.

Lemma pieces_slices (P : char → Prop) (text : str) (ms : list (nat * str)) :
  Forall P text →
  ∀ last_pos last_title,
    Forall (λ tp : str * str, Forall P tp.2)
           (pieces text ms last_pos last_title).
Proof.
  intros Ht. induction ms as [|[start g2] ms IH]; intros lp lt; cbn [pieces].
  - constructor; [|constructor]. by apply Forall_drop.
  - constructor; [|apply IH]. by apply Forall_take, Forall_drop.
Qed.

Lemma pieces_length (text : str) (ms : list (nat * str)) :
  ∀ last_pos last_title,
    length (pieces text ms last_pos last_title) = S (length ms).
Proof.
  induction ms as [|[start g2] ms IH]; intros lp lt; cbn [pieces length];
    [done|]. by rewrite IH.
Qed.

(** A segment is a slice, stripped, not empty, and passed through
    [refine]. *)
Lemma split_markdown_elem (text : str) (level : nat) (t b : str) :
  (t, b) ∈ split_markdown text level →
  ∃ p, (t, p) ∈ pieces text (Heading.finditer level text) 0 PROLOGUE ∧
       truthy (strip p) = true ∧
       (t, b) = refine level (t, strip p).
Proof.
  unfold split_markdown. rewrite split_loop_pieces. cbn [app].
  intros ([t' c] & E & Hin)%list_elem_of_fmap.
  apply list_elem_of_In, filter_In in Hin as [Hin Hk].
  apply list_elem_of_In, list_elem_of_fmap in Hin as ([t'' p] & [= -> ->] & Hin).
  unfold kept in Hk. cbn [snd] in Hk. cbn [fst] in *.
  assert (t = t'') as ->.
  { unfold refine in E. by destruct (negb _); injection E. }
  by exists p.
Qed.

(** X2: a title has no line feed and no white space at its ends. *)
Theorem split_titles_single_line (text : str) (level : nat) (t b : str) :
  (t, b) ∈ split_markdown text level → (NL ∉ t) ∧ strip t = t.
Proof.
  intros (p & Hin & _ & _)%split_markdown_elem.
  apply pieces_titles in Hin as [->|(start & g & Hg & ->)].
  - split; [|by vm_compute]. vm_compute. intros H.
    repeat (apply elem_of_cons in H as [H|H]; [discriminate|]).
    by apply elem_of_nil in H.
  - pose proof (finditer_from_shape level text true 0 0) as Hsh.
    rewrite Forall_forall in Hsh.
    specialize (Hsh _ Hg) as (_ & _ & _ & _ & Hnl). cbn [snd] in Hnl. split.
    + intros H. apply Hnl. by eapply elem_of_strip_by.
    + apply strip_by_idemp.
Qed.

Lemma split_titles_single_line_witness :
  (NL ∉ py "A") ∧ strip (py "A") = py "A".
Proof.
  apply (split_titles_single_line example_text 1 (py "A")
           (py ("# A" +:+ nl +:+ "body1"))).
  vm_compute. right. left.
Defined.

(** X3: for a level of at least one every body starts with "#" and ends
    with a character that is no white space. *)
Theorem split_bodies_shape (text : str) (level : nat) (t b : str) :
  1 ≤ level → (t, b) ∈ split_markdown text level →
  startswith b [HASH] = true ∧
  ∃ b' c, b = b' ++ [c] ∧ is_space c = false.
Proof.
  intros Hl (p & _ & Hk & E)%split_markdown_elem.
  destruct (strip_by_last is_space p) as [Hnil|(b0 & c & Hb & Hc)].
  { unfold strip in Hk. by rewrite Hnil in Hk. }
  fold (strip p) in Hb. unfold refine in E.
  destruct (startswith (strip p) [HASH]) eqn:Hh; cbn [negb] in E;
    injection E as ->.
  - split; [done|]. by exists b0, c.
  - split.
    + destruct level as [|n]; [lia|]. apply startswith_hash. by eexists.
    + exists (replicate level HASH ++ py " " ++ t ++ [NL; NL] ++ b0), c.
      split; [|done]. rewrite Hb. by rewrite <- !app_assoc.
Qed.

Lemma split_bodies_shape_witness :
  startswith (py ("# prologue" +:+ nl +:+ nl +:+ "Intro text")) [HASH] = true ∧
  ∃ b' c, py ("# prologue" +:+ nl +:+ nl +:+ "Intro text") = b' ++ [c]
          ∧ is_space c = false.
Proof.
  apply (split_bodies_shape example_text 1 (py "prologue")); [lia|].
  vm_compute. left.
Defined.

(** X4: a text of white space only, the empty text among them, has no
    segment, at any level. *)
Theorem split_blank_text (text : str) (level : nat) :
  Forall (λ c, is_space c = true) text → split_markdown text level = [].
Proof.
  intros Hb. unfold split_markdown. rewrite split_loop_pieces. cbn [app].
  pose proof (pieces_slices _ text (Heading.finditer level text) Hb 0 PROLOGUE)
    as Hp.
  induction Hp as [|[t p] l Hp _ IH]; [done|].
  cbn [fmap list_fmap]. change (strip_piece (t, p)) with (t, strip p).
  cbn [List.filter]. unfold kept at 1. cbn [snd] in *.
  unfold strip at 1. rewrite strip_by_all by done. exact IH.
Qed.

Lemma split_blank_text_witness : split_markdown blank_text 1 = [].
Proof.
  apply (split_blank_text blank_text 1). repeat constructor.
Defined.

(** X5: a text that is not blank and has no "#" in it is one segment at
    every level of at least one: the prologue, under the heading line
    made for it. *)
Theorem split_without_marks (text : str) (level : nat) :
  1 ≤ level → HASH ∉ text → strip text ≠ [] →
  split_markdown text level =
  [(PROLOGUE,
    replicate level HASH ++ py " " ++ PROLOGUE ++ [NL; NL] ++ strip text)].
Proof.
  intros Hl Hno Hne. unfold split_markdown, Heading.finditer.
  pose proof (finditer_from_starts level text true 0 0) as Hst.
  destruct (Heading.finditer_from level true 0 0 text) as [|[p g] ms].
  - cbn [split_loop]. unfold slice_from. rewrite drop_0.
    destruct (strip text) as [|c r] eqn:E; [done|].
    cbn [truthy app fmap list_fmap]. unfold refine.
    destruct (startswith (c :: r) [HASH]) eqn:Hh; [|done].
    apply startswith_hash in Hh as [r' [= -> _]].
    exfalso. apply Hno. apply (elem_of_strip_by is_space).
    fold (strip text). rewrite E. left.
  - apply Forall_cons in Hst as [[_ Hh] _]. cbn [fst] in Hh.
    specialize (Hh Hl). apply startswith_hash in Hh as [r Hr].
    exfalso. apply Hno. apply (subseteq_drop (p - 0) text).
    rewrite Hr. left.
Qed.

Lemma split_without_marks_witness :
  split_markdown (py "just text") 1 =
  [(PROLOGUE,
    replicate 1 HASH ++ py " " ++ PROLOGUE ++ [NL; NL]
    ++ strip (py "just text"))].
Proof.
  apply (split_without_marks (py "just text") 1); [lia | | by vm_compute].
  vm_compute. intros H.
  repeat (apply elem_of_cons in H as [H|H]; [discriminate|]).
  by apply elem_of_nil in H.
Defined.

(** X6: there is at most one segment more than there are matches. *)
Theorem split_segment_count (text : str) (level : nat) :
  length (split_markdown text level)
  ≤ S (length (Heading.finditer level text)).
Proof.
  unfold split_markdown. rewrite split_loop_pieces. cbn [app].
  rewrite length_fmap.
  etrans; [apply List.filter_length_le|].
  by rewrite length_fmap, pieces_length.
Qed.

(** X7: when the text starts with a heading of the level, there is no
    prologue: the first segment has the title of that heading. *)
Theorem split_heading_first (text : str) (level n : nat) (g : str) :
  1 ≤ level → Heading.match_here level text = Some (n, g) →
  ∃ body rest, split_markdown text level = (strip g, body) :: rest.
Proof.
  intros Hl Hm. unfold split_markdown, Heading.finditer.
  pose proof (finditer_from_starts level text true 0 0) as Hst.
  pose proof (finditer_from_sorted level text true 0 0) as Hso.
  destruct text as [|c r].
  { apply match_here_hash in Hm; [|done]. by apply startswith_hash in Hm as [? ?]. }
  cbn [Heading.finditer_from] in *. rewrite Hm in *.
  apply Forall_cons in Hst as [[_ Hh] Hst]. cbn [fst] in Hh.
  specialize (Hh Hl). rewrite Nat.sub_0_r in Hh.
  apply StronglySorted_inv in Hso as [Hso Hlt].
  rewrite split_loop_pieces. cbn [app pieces fmap list_fmap].
  change (strip_piece (PROLOGUE, slice (c :: r) 0 0)) with (PROLOGUE, @nil N).
  cbn [List.filter kept snd truthy].
  set (ms := Heading.finditer_from level (c =? NL)%N (n - 1) 1 r) in *.
  assert (Hp : Forall (λ tp : str * str, startswith tp.2 [HASH] = true)
                      (pieces (c :: r) ms 0 (strip g))).
  { apply pieces_hash; [done| |done].
    apply Forall_forall. intros [p g'] Hin.
    rewrite Forall_forall in Hst, Hlt.
    specialize (Hst _ Hin) as [_ Hp]. specialize (Hlt _ Hin).
    cbn [fst] in *. split; [done|].
    specialize (Hp Hl). by rewrite Nat.sub_0_r in Hp. }
  rewrite refine_kept_hash by done.
  destruct ms as [|[start g'] ms']; cbn [pieces fmap list_fmap];
    eexists _, _; reflexivity.
Qed.

Lemma split_heading_first_witness :
  ∃ body rest,
    split_markdown (py ("# A" +:+ nl +:+ "body")) 1
    = (strip (py "A"), body) :: rest.
Proof.
  apply (split_heading_first (py ("# A" +:+ nl +:+ "body")) 1 3 (py "A"));
    [lia | by vm_compute].
Defined.

(** * More of [sanitize_filename] *)

Lemma sub_invalid_valid (s : str) :
  Forall (λ c, valid_char c = true) s → sub_invalid false s = s.
Proof.
  induction 1 as [|c s Hc _ IH]; [done|].
  cbn [sub_invalid]. by rewrite Hc, IH.
Qed.

Lemma rstrip_by_snoc (p : char → bool) (s : str) (c : char) :
  p c = false → rstrip_by p (s ++ [c]) = s ++ [c].
Proof.
  intros Hc. unfold rstrip_by. rewrite rev_app_distr. cbn [rev app drop_while].
  rewrite Hc. cbn [rev]. by rewrite rev_involutive.
Qed.

Lemma sub_invalid_length (s : str) :
  ∀ in_run, length (sub_invalid in_run s) ≤ length s.
Proof.
  induction s as [|c s IH]; intros b; cbn [sub_invalid length]; [done|].
  destruct (valid_char c); cbn [length].
  - specialize (IH false). lia.
  - destruct b; cbn [length]; specialize (IH true); lia.
Qed.

Lemma drop_while_length (p : char → bool) (s : str) :
  length (drop_while p s) ≤ length s.
Proof.
  induction s as [|c s IH]; cbn [drop_while length]; [done|].
  destruct (p c); cbn [length]; lia.
Qed.

Lemma strip_by_length (p : char → bool) (s : str) :
  length (strip_by p s) ≤ length s.
Proof.
  unfold strip_by, rstrip_by, lstrip_by. rewrite length_rev.
  etrans; [apply drop_while_length|]. rewrite length_rev.
  apply drop_while_length.
Qed.

(** X8: the result is never empty.  With a [max_len] that is not
    negative it is never longer than the larger of [max_len] and 8, the
    length of "untitled", and with [max_len] 0 it is always "untitled".
    A negative [max_len] is no cap: it cuts that many characters off the
    end, and the result has at most the length of the lowered name less
    that many, or the 8 of "untitled". *)
Theorem sanitize_filename_length (lower : str → str) (name : str)
    (max_len : Z) :
  sanitize_filename lower name max_len ≠ [] ∧
  ((0 ≤ max_len)%Z →
   length (sanitize_filename lower name max_len)
   ≤ Z.to_nat max_len `max` 8) ∧
  ((max_len < 0)%Z →
   length (sanitize_filename lower name max_len)
   ≤ (length (lower name) - Z.to_nat (- max_len)) `max` 8) ∧
  sanitize_filename lower name 0 = UNTITLED.
Proof.
  unfold sanitize_filename.
  set (clean := strip_by is_uscore (sub_invalid false (lower name))).
  assert (Hlen : length clean ≤ length (lower name)).
  { subst clean. etrans; [apply strip_by_length|]. apply sub_invalid_length. }
  split; [|split; [|split]].
  - by destruct (slice_to clean max_len).
  - intros Hpos. unfold slice_to. apply Z.ltb_ge in Hpos. rewrite Hpos.
    destruct (take (Z.to_nat max_len) clean) eqn:E.
    + change (length UNTITLED) with 8. lia.
    + rewrite <- E, length_take. lia.
  - intros Hneg. unfold slice_to. apply Z.ltb_lt in Hneg. rewrite Hneg.
    destruct (take (length clean - Z.to_nat (- max_len)) clean) eqn:E.
    + change (length UNTITLED) with 8. lia.
    + rewrite <- E, length_take. lia.
  - done.
Qed.

Lemma sanitize_filename_length_witness :
  length (sanitize_filename lower_ascii (py "abcdefghijkl") (-1))
  ≤ (length (lower_ascii (py "abcdefghijkl")) - Z.to_nat (- (-1))) `max` 8
  ∧ length (sanitize_filename lower_ascii (py "abcdefghijkl") 3)
    ≤ Z.to_nat 3 `max` 8.
Proof.
  split.
  - apply (sanitize_filename_length lower_ascii (py "abcdefghijkl") (-1)).
    lia.
  - apply (sanitize_filename_length lower_ascii (py "abcdefghijkl") 3).
    lia.
Defined.

(** X9: a name that [lower] leaves as it is, made of characters of
    [A-Za-z0-9._-], not empty, not longer than [max_len], with no "_" at
    its ends, is returned as it is. *)
Theorem sanitize_filename_keeps_safe_name (lower : str → str) (name : str)
    (max_len : Z) :
  lower name = name →
  Forall (λ c, valid_char c = true) name →
  name ≠ [] → (Z.of_nat (length name) ≤ max_len)%Z →
  head name ≠ Some USCORE → last name ≠ Some USCORE →
  sanitize_filename lower name max_len = name.
Proof.
  intros Hlow Hv Hne Hlen Hh Hl. unfold sanitize_filename.
  rewrite Hlow, sub_invalid_valid by done.
  assert (Hs : strip_by is_uscore name = name).
  { unfold strip_by, lstrip_by.
    destruct name as [|c r]; [done|]. cbn [drop_while].
    assert (Hc : is_uscore c = false).
    { unfold is_uscore. apply N.eqb_neq. intros ->. by apply Hh. }
    rewrite Hc.
    destruct (@exists_last _ (c :: r)) as (b & d & E); [done|]. rewrite E.
    apply rstrip_by_snoc. unfold is_uscore. apply N.eqb_neq. intros ->.
    apply Hl. rewrite E. apply last_snoc. }
  rewrite Hs. unfold slice_to.
  assert (Hpos : (max_len <? 0)%Z = false) by (apply Z.ltb_ge; lia).
  rewrite Hpos, take_ge by lia.
  by destruct name.
Qed.

Lemma sanitize_filename_keeps_safe_name_witness :
  sanitize_filename lower_ascii (py "notes_v2.1") 80 = py "notes_v2.1".
Proof.
  apply (sanitize_filename_keeps_safe_name lower_ascii (py "notes_v2.1") 80);
    try (by vm_compute).
  repeat constructor.
Defined.

(** * What the scripts do to the world *)

(** ** Relations that a computation keeps *)

Section Keeps.

Context {R : world → world → Prop} `{!PreOrder R}.

Lemma keeps_pure {A} (m : M A) : (∀ w, (m w).1 = w) → keeps R m.
Proof. intros H w. by rewrite H. Qed.

Lemma keeps_ret {A} (a : A) : keeps R (ret a).
Proof. by apply keeps_pure. Qed.

Lemma keeps_raise {A} (e : exn) : keeps R (raise (A:=A) e).
Proof. by apply keeps_pure. Qed.

Lemma keeps_bind {A B} (m : M A) (k : A → M B) :
  keeps R m → (∀ w w' a, m w = (w', inr a) → keeps R (k a)) →
  keeps R (bind m k).
Proof.
  intros Hm Hk w. unfold bind. specialize (Hm w).
  destruct (m w) as [w1 [e|a]] eqn:E; cbn [fst] in *; [done|].
  etrans; [exact Hm|]. by eapply Hk.
Qed.

Lemma keeps_try_except {A} (body : M A) (handler : exn → M A) :
  keeps R body → (∀ e, keeps R (handler e)) →
  keeps R (try_except body handler).
Proof.
  intros Hb Hh w. unfold try_except. specialize (Hb w).
  destruct (body w) as [w1 [e|a]]; cbn [fst] in *; [|done].
  etrans; [exact Hb|]. apply Hh.
Qed.

Lemma keeps_for_each {A} (f : A → M unit) (l : list A) :
  (∀ a, a ∈ l → keeps R (f a)) → keeps R (for_each f l).
Proof.
  induction l as [|a l IH]; intros Hf; cbn [for_each]; [apply keeps_ret|].
  apply keeps_bind; [apply Hf; left|]. intros _ _ _ _.
  apply IH. intros b Hb. apply Hf. by right.
Qed.

Lemma keeps_exists_ (p : path) : keeps R (exists_ p).
Proof. by apply keeps_pure. Qed.

Lemma keeps_read_bytes (p : path) : keeps R (read_bytes p).
Proof.
  apply keeps_pure. intros w. unfold read_bytes.
  by destruct (lookup_node w p) as [[]|].
Qed.

Lemma keeps_st_mtime (p : path) : keeps R (st_mtime p).
Proof.
  apply keeps_pure. intros w. unfold st_mtime.
  by destruct (lookup_node w p).
Qed.

Lemma keeps_with_suffix (p : path) (suf : str) : keeps R (with_suffix p suf).
Proof.
  apply keeps_pure. intros w. unfold with_suffix. by destruct (name p).
Qed.

Lemma keeps_relative_to (p root : path) : keeps R (relative_to p root).
Proof.
  apply keeps_pure. intros w. unfold relative_to.
  by destruct (relative_to_aux p root).
Qed.

End Keeps.

Lemma with_suffix_inv (p q : path) (suf : str) (w w' : world) :
  with_suffix p suf w = (w', inr q) → w' = w ∧ ∃ n, q = parent p ++ [n].
Proof.
  unfold with_suffix. destruct (name p); [discriminate|].
  intros [= <- <-]. split; [done|]. by eexists.
Qed.

Lemma parent_snoc (p : path) (n : str) : parent (p ++ [n]) = p.
Proof. unfold parent. apply removelast_last. Qed.

Lemma prefix_of_app (p q : path) : prefix_of p (p ++ q) = true.
Proof.
  induction p as [|c p IH]; [done|]. cbn [app prefix_of].
  by rewrite bool_decide_eq_true_2, IH.
Qed.

Lemma prefix_of_spec (p q : path) :
  prefix_of p q = true ↔ ∃ r, q = p ++ r.
Proof.
  revert q. induction p as [|c p IH]; intros q; cbn [prefix_of].
  - split; [by exists q | done].
  - destruct q as [|d q]; [split; [done | by intros [r ?]]|].
    rewrite andb_true_iff, bool_decide_eq_true, IH. split.
    + intros [-> [r ->]]. by exists r.
    + intros [r [= -> ->]]. split; [done | by exists r].
Qed.

Lemma prefix_of_trans (p q r : path) :
  prefix_of p q = true → prefix_of q r = true → prefix_of p r = true.
Proof.
  rewrite !prefix_of_spec. intros [a ->] [b ->].
  exists (a ++ b). by rewrite app_assoc.
Qed.

(** ** Outside the destination root *)

Global Instance outside_kept_preorder (root : path) :
  PreOrder (outside_kept root).
Proof.
  split.
  - intros w p n _ H. exact H.
  - intros w1 w2 w3 H12 H23 p n Hp H. by apply H23, H12.
Qed.

Lemma outside_kept_of_adds_dirs (root : path) (w w1 : world) :
  adds_dirs_only w w1 → outside_kept root w w1.
Proof.
  intros (_ & _ & H) p n _ E. destruct (H p) as [E1|[E1 _]]; congruence.
Qed.

Lemma outside_kept_log (root : path) (lv : log_level) (msg : str) :
  keeps (outside_kept root) (log lv msg).
Proof. intros w p n _ H. exact H. Qed.

Lemma outside_kept_mkdir (root p : path) :
  keeps (outside_kept root) (mkdir_parents p).
Proof.
  intros w. destruct (mkdir_from_spec p [] w) as (w1 & r & E & H).
  unfold mkdir_parents. rewrite E. by apply outside_kept_of_adds_dirs.
Qed.

Lemma outside_kept_rmtree (root p : path) :
  prefix_of root p = true → keeps (outside_kept root) (rmtree p).
Proof.
  intros Hp w. unfold rmtree.
  destruct (lookup_node w p) as [[c t|t]|]; [reflexivity| |reflexivity].
  intros q n Hq E. cbn [fst files]. apply map_lookup_filter_Some.
  split; [done|]. cbn [fst].
  destruct (prefix_of p q) eqn:Hpq; [|done].
  by rewrite (prefix_of_trans root p q Hp Hpq) in Hq.
Qed.

Lemma outside_kept_write_bytes (root p : path) (c : list Byte.byte) :
  prefix_of root p = true → keeps (outside_kept root) (write_bytes p c).
Proof.
  intros Hp w. unfold write_bytes.
  destruct (is_dir w p); [reflexivity|].
  destruct (is_dir w (parent p)); [|reflexivity].
  intros q n Hq E. cbn [fst files set_node].
  rewrite lookup_insert_ne; [done|]. intros <-. congruence.
Qed.

Lemma outside_kept_copy (root src dst : path) :
  prefix_of root dst = true → keeps (outside_kept root) (copy src dst).
Proof.
  intros Hd. unfold copy. apply keeps_bind; [by apply keeps_pure|].
  intros w w' d _. case_bool_decide; [apply keeps_raise|].
  apply keeps_bind; [apply keeps_read_bytes|]. intros _ _ c _.
  apply outside_kept_write_bytes.
  destruct d; [|done].
  eapply prefix_of_trans; [exact Hd | apply prefix_of_app].
Qed.

Section SplitFrame.

Variable lower : str → str.
Variable decode : list Byte.byte → str.
Variable encode : str → list Byte.byte.

Lemma outside_kept_write_chapters (root book_dir : path)
    (chapters : list (str * str)) (force dry_run : bool) :
  prefix_of root book_dir = true →
  keeps (outside_kept root)
        (Split._write_chapters lower encode book_dir chapters force dry_run).
Proof.
  intros Hb. unfold Split._write_chapters.
  apply keeps_bind; [apply keeps_exists_|]. intros _ _ e _.
  apply keeps_bind.
  { destruct (force && e); [by apply outside_kept_rmtree | apply keeps_ret]. }
  intros _ _ _ _. apply keeps_bind; [apply outside_kept_mkdir|].
  intros _ _ _ _. apply keeps_for_each. intros [idx [title content]] _.
  cbn [fst snd]. unfold Split.write_chapter.
  destruct dry_run; [apply outside_kept_log|].
  apply keeps_bind; [|intros; apply outside_kept_log].
  apply outside_kept_write_bytes.
  eapply prefix_of_trans; [exact Hb | apply prefix_of_app].
Qed.

Lemma outside_kept_process_file (src_path dst_root : path) (level : nat)
    (force : bool) (no_split_action : str) (dry_run : bool) :
  keeps (outside_kept dst_root)
        (Split.process_file lower decode encode src_path dst_root level
           force no_split_action dry_run).
Proof.
  unfold Split.process_file.
  apply keeps_try_except; [|intros; apply outside_kept_log].
  unfold Split.process_file_body, Split.read_text.
  apply keeps_bind.
  { apply keeps_bind; [apply keeps_read_bytes | intros; apply keeps_ret]. }
  intros _ _ md_text _. cbv zeta.
  destruct (length (split_markdown md_text level) <=? 1).
  - case_bool_decide; [|apply outside_kept_log].
    apply keeps_bind; [apply keeps_with_suffix|].
    intros w w' dst (_ & n & ->)%with_suffix_inv.
    rewrite parent_snoc.
    destruct dry_run; [apply outside_kept_log|].
    apply keeps_bind; [apply outside_kept_mkdir|]. intros _ _ _ _.
    apply keeps_bind; [|intros; apply outside_kept_log].
    apply outside_kept_copy, prefix_of_app.
  - apply keeps_bind; [|intros; apply outside_kept_log].
    apply outside_kept_write_chapters, prefix_of_app.
Qed.

Lemma outside_kept_main_sequential (md_files : list path) (dst : path)
    (level : nat) (force : bool) (no_split_action : str) (dry_run : bool) :
  keeps (outside_kept dst)
        (Split.main_sequential lower decode encode md_files dst level
           force no_split_action dry_run).
Proof.
  unfold Split.main_sequential. apply keeps_for_each.
  intros fp _. apply outside_kept_process_file.
Qed.

End SplitFrame.





(** ** Dry runs *)

Global Instance dirs_added_preorder : PreOrder dirs_added.
Proof.
  split.
  - intros w. split; [done|]. intros p. by left.
  - intros w1 w2 w3 [Hc1 H1] [Hc2 H2]. split; [congruence|].
    intros p. destruct (H1 p) as [E1|[E1 E1']], (H2 p) as [E2|[E2 E2']].
    + left. congruence.
    + right. split; congruence.
    + right. split; congruence.
    + right. split; congruence.
Qed.

Lemma dirs_added_log (lv : log_level) (msg : str) :
  keeps dirs_added (log lv msg).
Proof. intros w. split; [done|]. intros p. by left. Qed.

Lemma dirs_added_mkdir (p : path) : keeps dirs_added (mkdir_parents p).
Proof.
  intros w. destruct (mkdir_from_spec p [] w) as (w1 & r & E & Hc & _ & H).
  unfold mkdir_parents. rewrite E. by split.
Qed.

(** X12: a dry run without [force] leaves every file as it is, creates
    no file and removes nothing; all it may do to the file system is to
    add directories. *)
Theorem split_dry_run_adds_directories_only (lower : str → str)
    (decode : list Byte.byte → str) (encode : str → list Byte.byte)
    (src_path dst_root : path) (level : nat) (no_split_action : str)
    (w : world) :
  dirs_added w
    (Split.process_file lower decode encode src_path dst_root level
       false no_split_action true w).1.
Proof.
  revert w. change (keeps dirs_added
    (Split.process_file lower decode encode src_path dst_root level
       false no_split_action true)).
  unfold Split.process_file.
  apply keeps_try_except; [|intros; apply dirs_added_log].
  unfold Split.process_file_body, Split.read_text.
  apply keeps_bind.
  { apply keeps_bind; [apply keeps_read_bytes | intros; apply keeps_ret]. }
  intros _ _ md_text _. cbv zeta.
  destruct (length (split_markdown md_text level) <=? 1).
  - case_bool_decide; [|apply dirs_added_log].
    apply keeps_bind; [apply keeps_with_suffix|].
    intros; apply dirs_added_log.
  - apply keeps_bind; [|intros; apply dirs_added_log].
    unfold Split._write_chapters.
    apply keeps_bind; [apply keeps_exists_|]. intros _ _ e _.
    cbn [andb]. apply keeps_bind; [apply keeps_ret|]. intros _ _ _ _.
    apply keeps_bind; [apply dirs_added_mkdir|]. intros _ _ _ _.
    apply keeps_for_each. intros [idx [title content]] _.
    apply dirs_added_log.
Qed.

(** ** The records of a run *)

Global Instance same_reports_preorder : PreOrder same_reports.
Proof.
  split; [done|]. intros w1 w2 w3 H12 H23. unfold same_reports in *.
  congruence.
Qed.

Lemma same_reports_logged {A} (m : M A) :
  (∀ w, logged (m w).1 = logged w) → keeps same_reports m.
Proof. intros H w. unfold same_reports, reports. by rewrite H. Qed.

Lemma same_reports_debug (msg : str) : keeps same_reports (log DEBUG msg).
Proof. done. Qed.

Lemma same_reports_mkdir (p : path) : keeps same_reports (mkdir_parents p).
Proof.
  apply same_reports_logged. intros w.
  destruct (mkdir_from_spec p [] w) as (w1 & r & E & _ & Hl & _).
  unfold mkdir_parents. by rewrite E.
Qed.

Lemma same_reports_rmtree (p : path) : keeps same_reports (rmtree p).
Proof.
  apply same_reports_logged. intros w. unfold rmtree.
  by destruct (lookup_node w p) as [[]|].
Qed.

Lemma same_reports_write_bytes (p : path) (c : list Byte.byte) :
  keeps same_reports (write_bytes p c).
Proof.
  apply same_reports_logged. intros w. unfold write_bytes.
  destruct (is_dir w p); [done|]. by destruct (is_dir w (parent p)).
Qed.

Lemma same_reports_copy (src dst : path) : keeps same_reports (copy src dst).
Proof.
  unfold copy. apply keeps_bind; [by apply keeps_pure|].
  intros _ _ d _. case_bool_decide; [apply keeps_raise|].
  apply keeps_bind; [apply keeps_read_bytes|]. intros.
  apply same_reports_write_bytes.
Qed.

Lemma one_info_log (msg : str) : one_info (log INFO msg).
Proof. intros w. by exists msg. Qed.

Lemma one_info_bind {A} (m : M A) (k : A → M unit) :
  keeps same_reports m → (∀ a, one_info (k a)) → one_info (bind m k).
Proof.
  intros Hm Hk w. unfold bind. specialize (Hm w).
  destruct (m w) as [w1 [e|a]]; cbn [fst snd] in *; [exact Hm|].
  specialize (Hk a w1). unfold same_reports in Hm.
  destruct (k a w1) as [w2 [e|[]]]; cbn [fst snd] in *; by rewrite <- Hm.
Qed.

Section SplitReports.

Variable lower : str → str.
Variable decode : list Byte.byte → str.
Variable encode : str → list Byte.byte.

Lemma same_reports_write_chapters (book_dir : path)
    (chapters : list (str * str)) (force dry_run : bool) :
  keeps same_reports
        (Split._write_chapters lower encode book_dir chapters force dry_run).
Proof.
  unfold Split._write_chapters.
  apply keeps_bind; [apply keeps_exists_|]. intros _ _ e _.
  apply keeps_bind.
  { destruct (force && e); [apply same_reports_rmtree | apply keeps_ret]. }
  intros _ _ _ _. apply keeps_bind; [apply same_reports_mkdir|].
  intros _ _ _ _. apply keeps_for_each. intros [idx [title content]] _.
  cbn [fst snd]. unfold Split.write_chapter.
  destruct dry_run; [apply same_reports_debug|].
  apply keeps_bind; [|intros; apply same_reports_debug].
  apply same_reports_write_bytes.
Qed.

Lemma one_info_process_file_body (src_path dst_root : path) (level : nat)
    (force : bool) (no_split_action : str) (dry_run : bool) :
  one_info (Split.process_file_body lower decode encode src_path dst_root
              level force no_split_action dry_run).
Proof.
  unfold Split.process_file_body, Split.read_text.
  apply one_info_bind.
  { apply keeps_bind; [apply keeps_read_bytes | intros; apply keeps_ret]. }
  intros md_text. cbv zeta.
  destruct (length (split_markdown md_text level) <=? 1).
  - case_bool_decide; [|apply one_info_log].
    apply one_info_bind; [apply keeps_with_suffix|]. intros dst.
    destruct dry_run; [apply one_info_log|].
    apply one_info_bind; [apply same_reports_mkdir|]. intros _.
    apply one_info_bind; [apply same_reports_copy|]. intros _.
    apply one_info_log.
  - apply one_info_bind; [apply same_reports_write_chapters|]. intros _.
    apply one_info_log.
Qed.

Lemma process_file_one_report (src_path dst_root : path) (level : nat)
    (force : bool) (no_split_action : str) (dry_run : bool) (w : world) :
  ∃ lv msg,
    (lv = INFO ∨ lv = ERROR) ∧
    (Split.process_file lower decode encode src_path dst_root level force
       no_split_action dry_run w).2 = inr tt ∧
    reports (Split.process_file lower decode encode src_path dst_root level
               force no_split_action dry_run w).1 = (lv, msg) :: reports w.
Proof.
  pose proof (one_info_process_file_body src_path dst_root level force
                no_split_action dry_run w) as H.
  unfold Split.process_file, try_except.
  destruct (Split.process_file_body _ _ _ _ _ _ _ _ _ w) as [w1 [e|[]]];
    cbn [fst snd] in *.
  - eexists ERROR, _. split; [by right|]. split; [done|].
    rewrite log_files. unfold reports in *. cbn [fst logged List.filter].
    unfold above_debug at 1. cbn [fst]. by rewrite H.
  - destruct H as [msg H]. exists INFO, msg. split; [by left|]. done.
Qed.

Lemma main_sequential_reports (md_files : list path) (dst : path)
    (level : nat) (force : bool) (no_split_action : str) (dry_run : bool) :
  ∀ w,
    length (reports (Split.main_sequential lower decode encode md_files dst
                       level force no_split_action dry_run w).1)
    = length md_files + length (reports w).
Proof.
  unfold Split.main_sequential.
  induction md_files as [|fp md_files IH]; intros w; cbn [for_each]; [done|].
  destruct (process_file_one_report fp dst level force no_split_action
              dry_run w) as (lv & msg & _ & Hr & Hrep).
  unfold bind.
  destruct (Split.process_file lower decode encode fp dst level force
              no_split_action dry_run w) as [w1 [e|[]]]; [done|].
  cbn [fst snd] in *. rewrite IH, Hrep. cbn [length]. lia.
Qed.

End SplitReports.

(** X13: every call of [process_file] of the splitting script returns
    and leaves exactly one record above DEBUG, an INFO record or the
    ERROR record of the handler, whatever the file and the flags. *)
Theorem split_process_file_one_report (lower : str → str)
    (decode : list Byte.byte → str) (encode : str → list Byte.byte)
    (src_path dst_root : path) (level : nat) (force : bool)
    (no_split_action : str) (dry_run : bool) (w : world) :
  ∃ lv msg,
    (lv = INFO ∨ lv = ERROR) ∧
    (Split.process_file lower decode encode src_path dst_root level force
       no_split_action dry_run w).2 = inr tt ∧
    reports (Split.process_file lower decode encode src_path dst_root level
               force no_split_action dry_run w).1 = (lv, msg) :: reports w.
Proof. apply process_file_one_report. Qed.

Lemma ends_info_log (P : log_level * str → Prop) (msg : str) :
  P (INFO, msg) → ends_info P (log INFO msg).
Proof. intros HP w. by exists (INFO, msg). Qed.

Lemma ends_info_bind {A} (P : log_level * str → Prop) (m : M A)
    (k : A → M unit) :
  keeps same_reports m → (∀ a, ends_info P (k a)) → ends_info P (bind m k).
Proof.
  intros Hm Hk w. unfold bind. specialize (Hm w).
  destruct (m w) as [w1 [e|a]]; cbn [fst snd] in *; [exact Hm|].
  specialize (Hk a w1). unfold same_reports in Hm.
  destruct (k a w1) as [w2 [e|[]]]; cbn [fst snd] in *; by rewrite <- Hm.
Qed.

Section SplitReportsOf.

Variable lower : str → str.
Variable decode : list Byte.byte → str.
Variable encode : str → list Byte.byte.

Lemma ends_info_process_file_body (src_path dst_root : path) (level : nat)
    (force : bool) (no_split_action : str) (dry_run : bool) :
  ends_info (report_of src_path)
            (Split.process_file_body lower decode encode src_path dst_root
               level force no_split_action dry_run).
Proof.
  unfold Split.process_file_body, Split.read_text.
  apply ends_info_bind.
  { apply keeps_bind; [apply keeps_read_bytes | intros; apply keeps_ret]. }
  intros md_text. cbv zeta.
  destruct (length (split_markdown md_text level) <=? 1).
  - case_bool_decide.
    + apply ends_info_bind; [apply keeps_with_suffix|]. intros dst.
      destruct dry_run.
      * apply ends_info_log. right. right. left. by exists dst.
      * apply ends_info_bind; [apply same_reports_mkdir|]. intros _.
        apply ends_info_bind; [apply same_reports_copy|]. intros _.
        apply ends_info_log. by left.
    + apply ends_info_log. right. by left.
  - apply ends_info_bind; [apply same_reports_write_chapters|]. intros _.
    apply ends_info_log. right. right. right. left. by eexists.
Qed.

(** One call: it returns, and leaves one record of its file. *)
Lemma process_file_report_of (src_path dst_root : path) (level : nat)
    (force : bool) (no_split_action : str) (dry_run : bool) (w : world) :
  ∃ w1 r,
    Split.process_file lower decode encode src_path dst_root level force
      no_split_action dry_run w = (w1, inr tt) ∧
    report_of src_path r ∧ reports w1 = r :: reports w.
Proof.
  pose proof (ends_info_process_file_body src_path dst_root level force
                no_split_action dry_run w) as H.
  unfold Split.process_file, try_except.
  destruct (Split.process_file_body _ _ _ _ _ _ _ _ _ w) as [w1 [e|[]]];
    cbn [fst snd] in *.
  - eexists _, _. split; [by rewrite log_files|]. split.
    + do 4 right. by exists e.
    + unfold reports in *. cbn [fst logged List.filter].
      unfold above_debug at 1. cbn [fst]. by rewrite H.
  - destruct H as (r & _ & Hr & H). by exists w1, r.
Qed.

Lemma main_sequential_report_of (md_files : list path) (dst : path)
    (level : nat) (force : bool) (no_split_action : str) (dry_run : bool) :
  ∀ w, ∃ recs,
    Forall2 report_of md_files recs ∧
    reports (Split.main_sequential lower decode encode md_files dst level
               force no_split_action dry_run w).1
    = rev recs ++ reports w.
Proof.
  unfold Split.main_sequential.
  induction md_files as [|fp md_files IH]; intros w; cbn [for_each].
  - exists []. split; [constructor | done].
  - destruct (process_file_report_of fp dst level force no_split_action
                dry_run w) as (w1 & r & E & Hr & Hrep).
    rewrite (bind_ok _ _ _ _ _ E).
    destruct (IH w1) as (recs & Hrecs & Hall).
    exists (r :: recs). split; [by constructor|].
    rewrite Hall, Hrep. cbn [rev]. by rewrite <- app_assoc.
Qed.

End SplitReportsOf.

(** X14: the loop of [main] leaves, above DEBUG, exactly one record for
    each file of the list, in the order of the list (the last one
    first in the log of the model): the record of a file is one of
    the five lines [process_file] has for it, each with the name or the
    path of that file.  No file is left out and none is reported twice. *)
Theorem split_main_sequential_reports (lower : str → str)
    (decode : list Byte.byte → str) (encode : str → list Byte.byte)
    (md_files : list path) (dst : path) (level : nat) (force : bool)
    (no_split_action : str) (dry_run : bool) (w : world) :
  ∃ recs,
    Forall2 report_of md_files recs ∧
    reports (Split.main_sequential lower decode encode md_files dst level
               force no_split_action dry_run w).1
    = rev recs ++ reports w.
Proof. apply main_sequential_report_of. Qed.

(** ** The chapter files *)

Global Instance entry_kept_preorder (p : path) (n : node) :
  PreOrder (entry_kept p n).
Proof.
  split; [by intros w H|]. intros w1 w2 w3 H12 H23 H. by apply H23, H12.
Qed.

Lemma entry_kept_log (p : path) (n : node) (lv : log_level) (msg : str) :
  keeps (entry_kept p n) (log lv msg).
Proof. by intros w H. Qed.

Lemma entry_kept_mkdir (p : path) (n : node) (q : path) :
  keeps (entry_kept p n) (mkdir_parents q).
Proof.
  intros w. destruct (mkdir_from_spec q [] w) as (w1 & r & E & _ & _ & H).
  unfold mkdir_parents. rewrite E. intros Hp.
  destruct (H p) as [E1|[E1 _]]; cbn [fst]; congruence.
Qed.

Lemma entry_kept_write_bytes (p : path) (n : node) (q : path)
    (c : list Byte.byte) :
  p ≠ q → keeps (entry_kept p n) (write_bytes q c).
Proof.
  intros Hne w. unfold write_bytes.
  destruct (is_dir w q); [reflexivity|].
  destruct (is_dir w (parent q)); [|reflexivity].
  intros H. cbn [fst files set_node]. by rewrite lookup_insert_ne.
Qed.

Lemma bind_inv_ok {A B} (m : M A) (k : A → M B) (w w' : world) (b : B) :
  bind m k w = (w', inr b) →
  ∃ w1 a, m w = (w1, inr a) ∧ k a w1 = (w', inr b).
Proof.
  unfold bind. destruct (m w) as [w1 [e|a]]; [discriminate|].
  intros H. by exists w1, a.
Qed.

Lemma prefix_of_antisym (p q : path) :
  prefix_of p q = true → prefix_of q p = true → p = q.
Proof.
  rewrite !prefix_of_spec. intros [a ->] [b E].
  rewrite <- app_assoc in E. rewrite <- (app_nil_r p) in E at 1.
  apply app_inv_head in E. symmetry in E.
  apply app_eq_nil in E as [-> _]. by rewrite app_nil_r.
Qed.

Lemma ensure_dir_where (p : path) (w w1 : world) (r : exn + unit) :
  ensure_dir p w = (w1, r) →
  ∀ q, files w1 !! q = files w !! q ∨ q = p.
Proof.
  unfold ensure_dir. destruct (lookup_node w p) as [[c t|t]|];
    intros [= <- _] q; [by left..|].
  destruct (decide (q = p)) as [->|Hne]; [by right|]. left.
  cbn [files set_node]. by rewrite lookup_insert_ne.
Qed.

(** [mkdir] only touches the path and what is above it. *)
Lemma mkdir_from_where (rest : path) :
  ∀ pre w w1 r, mkdir_from pre rest w = (w1, r) →
    ∀ q, files w1 !! q = files w !! q ∨ prefix_of q (pre ++ rest) = true.
Proof.
  induction rest as [|c rest IH]; intros pre w w1 r; cbn [mkdir_from].
  - intros [= <- _] q. by left.
  - unfold bind at 1.
    destruct (ensure_dir (pre ++ [c]) w) as [w0 [e|[]]] eqn:E.
    + intros [= <- _] q.
      destruct (ensure_dir_where _ _ _ _ E q) as [?| ->]; [by left|].
      right. rewrite (app_assoc pre [c] rest : pre ++ c :: rest = _).
      apply prefix_of_app.
    + intros E2 q.
      destruct (IH _ _ _ _ E2 q) as [E3|Hp].
      * destruct (ensure_dir_where _ _ _ _ E q) as [?| ->];
          [left; congruence|].
        right. rewrite (app_assoc pre [c] rest : pre ++ c :: rest = _).
        apply prefix_of_app.
      * right. by rewrite <- app_assoc in Hp.
Qed.

Global Instance same_at_preorder (p : path) : PreOrder (same_at p).
Proof.
  split; [done|]. intros w1 w2 w3 H12 H23. unfold same_at in *. congruence.
Qed.

Lemma same_at_log (p : path) (lv : log_level) (msg : str) :
  keeps (same_at p) (log lv msg).
Proof. done. Qed.

Lemma same_at_write_bytes (p q : path) (c : list Byte.byte) :
  p ≠ q → keeps (same_at p) (write_bytes q c).
Proof.
  intros Hne w. unfold write_bytes.
  destruct (is_dir w q); [reflexivity|].
  destruct (is_dir w (parent q)); [|reflexivity].
  unfold same_at. cbn [fst files set_node]. by rewrite lookup_insert_ne.
Qed.

Section Chapters.

Variable lower : str → str.
Variable encode : str → list Byte.byte.

Lemma write_chapter_ok (book_dir : path) (idx : nat) (title content : str)
    (w w1 : world) :
  Split.write_chapter lower encode book_dir false idx (title, content) w
    = (w1, inr tt) →
  clock w1 = clock w ∧
  files w1 !! (book_dir ++ [chapter_fname lower idx title])
    = Some (File (encode (content ++ [NL])) (clock w)).
Proof.
  unfold Split.write_chapter, Split.write_text.
  intros (w0 & [] & Hw & Hl)%bind_inv_ok.
  rewrite log_files in Hl. injection Hl as <-.
  unfold write_bytes in Hw.
  destruct (is_dir w _); [discriminate|].
  destruct (is_dir w (parent _)); [|discriminate].
  injection Hw as <-. cbn [files clock set_node].
  by rewrite lookup_insert_eq.
Qed.

Lemma entry_kept_write_chapter (p : path) (n : node) (book_dir : path)
    (dry_run : bool) (idx : nat) (chapter : str * str) :
  p ≠ book_dir ++ [chapter_fname lower idx chapter.1] →
  keeps (entry_kept p n)
        (Split.write_chapter lower encode book_dir dry_run idx chapter).
Proof.
  intros Hne. destruct chapter as [title content].
  unfold Split.write_chapter.
  destruct dry_run; [apply entry_kept_log|].
  apply keeps_bind; [|intros; apply entry_kept_log].
  by apply entry_kept_write_bytes.
Qed.

(** The loop of [_write_chapters] over the chapters from index [k] on. *)
Lemma write_loop_content (book_dir : path) (l : list (str * str)) :
  ∀ k w w',
    for_each (λ ic, Split.write_chapter lower encode book_dir false ic.1 ic.2)
             (imap (λ i ch, (k + i, ch)) l) w = (w', inr tt) →
    clock w' = clock w ∧
    ∀ i title content,
      l !! i = Some (title, content) →
      files w' !! (book_dir ++ [chapter_fname lower (k + i) title])
        = Some (File (encode (content ++ [NL])) (clock w)).
Proof.
  induction l as [|[t0 c0] l IH]; intros k w w'.
  - intros [= <-]. split; [done|]. intros i ? ? H. done.
  - rewrite imap_cons. cbn [for_each].
    intros (w1 & [] & Hw & Hrest)%bind_inv_ok. cbn [fst snd] in Hw.
    apply write_chapter_ok in Hw as [Hc Hf].
    rewrite (imap_ext _ (λ i ch, (S k + i, ch))) in Hrest
      by (intros; unfold compose; f_equal; lia).
    pose proof Hrest as Hkeep.
    apply IH in Hrest as [Hc' Hrest]. split; [congruence|].
    intros [|i] title content Hi; cbn in Hi.
    + injection Hi as <- <-.
      assert (Hk : keeps (entry_kept
                 (book_dir ++ [chapter_fname lower (k + 0) t0])
                 (File (encode (c0 ++ [NL])) (clock w)))
               (for_each
                  (λ ic, Split.write_chapter lower encode book_dir false
                           ic.1 ic.2)
                  (imap (λ i ch, (S k + i, ch)) l))).
      { apply keeps_for_each. intros [j ch] (i & y & [= -> ->] & _)%elem_of_lookup_imap_1.
        cbn [fst snd]. apply entry_kept_write_chapter.
        intros [_ E]%app_inj_tail.
        apply chapter_fname_inj in E. lia. }
      specialize (Hk w1). rewrite Hkeep in Hk. by apply Hk.
    + rewrite <- Hc. replace (k + S i) with (S k + i) by lia.
      by apply Hrest.
Qed.

Lemma same_at_write_loop (p : path) (book_dir : path) (dry_run : bool)
    (chapters : list (str * str)) :
  (∀ i ch, chapters !! i = Some ch →
           p ≠ book_dir ++ [chapter_fname lower i ch.1]) →
  keeps (same_at p)
        (for_each (λ ic, Split.write_chapter lower encode book_dir dry_run
                           ic.1 ic.2)
                  (imap (λ i ch, (0 + i, ch)) chapters)).
Proof.
  intros Hne. apply keeps_for_each.
  intros [j ch] (i & [title content] & [= -> ->] & Hi)%elem_of_lookup_imap_1.
  cbn [fst snd Nat.add]. unfold Split.write_chapter.
  destruct dry_run; [apply same_at_log|].
  apply keeps_bind; [|intros; apply same_at_log].
  apply same_at_write_bytes. apply (Hne _ _ Hi).
Qed.

Lemma write_chapters_steps (book_dir : path) (chapters : list (str * str))
    (force dry_run : bool) (w w' : world) :
  Split._write_chapters lower encode book_dir chapters force dry_run w
    = (w', inr tt) →
  ∃ w1 w2,
    (if force && bool_decide (is_Some (lookup_node w book_dir))
     then rmtree book_dir w = (w1, inr tt) else w1 = w) ∧
    mkdir_parents book_dir w1 = (w2, inr tt) ∧
    for_each (λ ic, Split.write_chapter lower encode book_dir dry_run
                      ic.1 ic.2)
             (imap (λ i ch, (0 + i, ch)) chapters) w2 = (w', inr tt).
Proof.
  unfold Split._write_chapters.
  intros (w0 & e & He & H)%bind_inv_ok.
  unfold exists_ in He. injection He as <- <-.
  apply bind_inv_ok in H as (w1 & [] & Hrm & H).
  apply bind_inv_ok in H as (w2 & [] & Hmk & H).
  exists w1, w2. split; [|by split].
  destruct (force && _); [done | by injection Hrm].
Qed.

Lemma rmtree_ok (p : path) (w w1 : world) :
  rmtree p w = (w1, inr tt) →
  clock w1 = clock w ∧ ∀ q, prefix_of p q = true → files w1 !! q = None.
Proof.
  unfold rmtree. destruct (lookup_node w p) as [[c t|t]|]; [discriminate| |discriminate].
  intros [= <-]. split; [done|]. intros q Hq. cbn [files].
  apply map_lookup_filter_None. right. intros n _. cbn [fst]. congruence.
Qed.

End Chapters.

(** X15: when [_write_chapters] returns and the run is no dry run, every
    chapter is in the file of its index and title, in the book
    directory: the bytes of its text and of a line feed after it. *)
Theorem write_chapters_contents (lower : str → str)
    (encode : str → list Byte.byte) (book_dir : path)
    (chapters : list (str * str)) (force : bool) (w w' : world)
    (idx : nat) (title content : str) :
  Split._write_chapters lower encode book_dir chapters force false w
    = (w', inr tt) →
  chapters !! idx = Some (title, content) →
  files w' !! (book_dir ++ [chapter_fname lower idx title])
    = Some (File (encode (content ++ [NL])) (clock w)).
Proof.
  intros (w1 & w2 & Hrm & Hmk & Hloop)%write_chapters_steps Hidx.
  apply write_loop_content in Hloop as [_ Hloop].
  specialize (Hloop _ _ _ Hidx). cbn [Nat.add] in Hloop.
  rewrite Hloop. do 2 f_equal.
  destruct (mkdir_from_spec book_dir [] w1) as (w2' & r & E & Hc & _).
  unfold mkdir_parents in Hmk. rewrite Hmk in E. injection E as <- _.
  rewrite Hc. destruct (force && _); [|by subst].
  by apply rmtree_ok in Hrm as [-> _].
Qed.

Lemma write_chapters_contents_witness :
  files (Split._write_chapters lower_ascii encode_ascii
           [py "out"; py "notes"] (split_markdown example_text 1) true false
           book_world).1
    !! ([py "out"; py "notes"] ++ [chapter_fname lower_ascii 2 (py "B")])
  = Some (File (encode_ascii (py ("# B" +:+ nl +:+ "body2") ++ [NL]))
               (clock book_world)).
Proof.
  apply (write_chapters_contents lower_ascii encode_ascii
           [py "out"; py "notes"] (split_markdown example_text 1) true
           book_world _ 2 (py "B") (py ("# B" +:+ nl +:+ "body2")));
    vm_compute; reflexivity.
Defined.

(** X16: with [force], a book directory that was there holds, after
    [_write_chapters] has returned, nothing but the chapter files of this
    run: what an earlier run left in it is gone. *)
Theorem write_chapters_force_replaces (lower : str → str)
    (encode : str → list Byte.byte) (book_dir : path)
    (chapters : list (str * str)) (w w' : world) (p : path) (n : node) :
  is_dir w book_dir = true →
  Split._write_chapters lower encode book_dir chapters true false w
    = (w', inr tt) →
  prefix_of book_dir p = true → files w' !! p = Some n →
  p = book_dir ∨
  ∃ idx title content,
    chapters !! idx = Some (title, content) ∧
    p = book_dir ++ [chapter_fname lower idx title].
Proof.
  intros Hdir (w1 & w2 & Hrm & Hmk & Hloop)%write_chapters_steps Hp Hn.
  rewrite bool_decide_eq_true_2 in Hrm.
  2:{ unfold is_dir in Hdir. by destruct (lookup_node w book_dir). }
  cbn [andb] in Hrm. apply rmtree_ok in Hrm as [_ Hrm].
  destruct (decide (p ∈ imap (λ i (ch : str * str),
                               book_dir ++ [chapter_fname lower i ch.1])
                             chapters)) as [Hin|Hnin].
  { apply elem_of_lookup_imap_1 in Hin as (i & [t c] & -> & Hi).
    right. by exists i, t, c. }
  left.
  assert (Hsame : files w' !! p = files w2 !! p).
  { pose proof (same_at_write_loop lower encode p book_dir false chapters)
      as Hk.
    specialize (Hk ltac:(intros i ch Hi ->; apply Hnin;
      by apply (elem_of_lookup_imap_2
                  (λ i (ch : str * str),
                     book_dir ++ [chapter_fname lower i ch.1]))) w2).
    unfold same_at in Hk. by rewrite Hloop in Hk. }
  rewrite Hsame in Hn.
  destruct (mkdir_from_where book_dir [] w1 w2 _ Hmk p) as [E|Hpre].
  - rewrite E, (Hrm p Hp) in Hn. discriminate.
  - cbn [app] in Hpre. by apply prefix_of_antisym.
Qed.

Lemma write_chapters_force_replaces_witness :
  [py "out"; py "notes"; py "ch01_a.md"] = [py "out"; py "notes"] ∨
  ∃ idx title content,
    split_markdown example_text 1 !! idx = Some (title, content) ∧
    [py "out"; py "notes"; py "ch01_a.md"]
    = [py "out"; py "notes"] ++ [chapter_fname lower_ascii idx title].
Proof.
  apply (write_chapters_force_replaces lower_ascii encode_ascii
           [py "out"; py "notes"] (split_markdown example_text 1)
           book_world
           (Split._write_chapters lower_ascii encode_ascii
              [py "out"; py "notes"] (split_markdown example_text 1) true
              false book_world).1
           [py "out"; py "notes"; py "ch01_a.md"]
           (File (encode_ascii (py ("# A" +:+ nl +:+ "body1" +:+ nl))) 9));
    vm_compute; reflexivity.
Defined.

Section ChaptersKept.

Variable lower : str → str.
Variable encode : str → list Byte.byte.

Lemma entry_kept_of_same_at {A} (p : path) (n : node) (m : M A) :
  keeps (same_at p) m → keeps (entry_kept p n) m.
Proof. intros H w Hp. specialize (H w). unfold same_at in H. congruence. Qed.

Lemma entry_kept_write_chapters (p : path) (n : node) (book_dir : path)
    (chapters : list (str * str)) (dry_run : bool) :
  (∀ idx ch, chapters !! idx = Some ch →
             p ≠ book_dir ++ [chapter_fname lower idx ch.1]) →
  keeps (entry_kept p n)
        (Split._write_chapters lower encode book_dir chapters false dry_run).
Proof.
  intros Hne. unfold Split._write_chapters.
  apply keeps_bind; [apply keeps_exists_|]. intros _ _ e _. cbn [andb].
  apply keeps_bind; [apply keeps_ret|]. intros _ _ _ _.
  apply keeps_bind; [apply entry_kept_mkdir|]. intros _ _ _ _.
  apply entry_kept_of_same_at.
  by apply (same_at_write_loop lower encode p book_dir dry_run chapters).
Qed.

End ChaptersKept.



(** X18: a source that is missing, or is a directory, is reported by an
    ERROR record; the call returns and the files stay as they are. *)
Theorem split_unreadable_source (lower : str → str)
    (decode : list Byte.byte → str) (encode : str → list Byte.byte)
    (src_path dst_root : path) (level : nat) (force : bool)
    (no_split_action : str) (dry_run : bool) (w : world) :
  (∀ c t, lookup_node w src_path ≠ Some (File c t)) →
  ∃ msg,
    Split.process_file lower decode encode src_path dst_root level force
      no_split_action dry_run w
    = (World (files w) (clock w) ((ERROR, msg) :: logged w), inr tt).
Proof.
  intros Hsrc. unfold Split.process_file, try_except,
    Split.process_file_body, Split.read_text.
  unfold bind at 1. unfold bind at 1. unfold read_bytes.
  destruct (lookup_node w src_path) as [[c t|t]|] eqn:E.
  - by destruct (Hsrc c t).
  - eexists. by rewrite log_files.
  - eexists. by rewrite log_files.
Qed.

Lemma split_unreadable_source_witness :
  ∃ msg,
    Split.process_file lower_ascii decode_ascii encode_ascii
      [py "src"; py "gone.md"] [py "out"] 1 false (py "copy") false
      book_world
    = (World (files book_world) (clock book_world)
         ((ERROR, msg) :: logged book_world), inr tt).
Proof.
  apply (split_unreadable_source lower_ascii decode_ascii encode_ascii
           [py "src"; py "gone.md"] [py "out"] 1 false (py "copy") false
           book_world).
  intros c t H. vm_compute in H. discriminate.
Defined.

(** * More of [convert_any_to_md.py] *)

Lemma lookup_node_snoc (w : world) (p : path) (c : list N) :
  lookup_node w (p ++ [c]) = files w !! (p ++ [c]).
Proof. unfold lookup_node. by destruct p. Qed.

Lemma ensure_dir_is_dir (p : path) (c : list N) (w w1 : world) :
  ensure_dir (p ++ [c]) w = (w1, inr tt) → is_dir w1 (p ++ [c]) = true.
Proof.
  unfold ensure_dir, is_dir.
  destruct (lookup_node w (p ++ [c])) as [[b t|t]|] eqn:E;
    [discriminate| |]; intros [= <-].
  - by rewrite E.
  - rewrite lookup_node_snoc. cbn [files set_node].
    by rewrite lookup_insert_eq.
Qed.

Lemma mkdir_from_is_dir (rest : path) :
  ∀ pre w w1, is_dir w pre = true →
              mkdir_from pre rest w = (w1, inr tt) →
              is_dir w1 (pre ++ rest) = true.
Proof.
  induction rest as [|c rest IH]; intros pre w w1 Hpre; cbn [mkdir_from].
  - intros [= <-]. by rewrite app_nil_r.
  - intros (w0 & [] & He & Hm)%bind_inv_ok.
    apply ensure_dir_is_dir in He.
    rewrite (app_assoc pre [c] rest : pre ++ c :: rest = _).
    by eapply IH.
Qed.

Lemma mkdir_parents_is_dir (p : path) (w w1 : world) :
  mkdir_parents p w = (w1, inr tt) → is_dir w1 p = true.
Proof. intros H. by apply (mkdir_from_is_dir p [] w w1). Qed.

Section ConvertMore.

Variable lower : str → str.
Variable encode : str → list Byte.byte.
Variable external : Convert.converter → path → path → M unit.

(** X19: without [force], a destination that is there and newer than
    the source ends the call at once: the result is [None], the record
    is a DEBUG record, and nothing is made, not even a directory. *)
Theorem convert_skips_newer_destination (src_path src_root dst_root : path)
    (w : world) (rel_path rel_md : path) (ns nd : node) :
  relative_to src_path src_root w = (w, inr rel_path) →
  with_suffix rel_path (py ".md") w = (w, inr rel_md) →
  lookup_node w src_path = Some ns →
  lookup_node w (dst_root ++ rel_md) = Some nd →
  (node_mtime ns < node_mtime nd)%Z →
  Convert.process_file lower encode external src_path src_root dst_root
    false w
  = (World (files w) (clock w)
       ((DEBUG, py "Skipping (already up-to-date): " ++ str_of_path rel_path)
        :: logged w), inr None).
Proof.
  intros Hrel Hmd Hs Hd Hlt. unfold Convert.process_file.
  rewrite (bind_ok _ _ _ _ _ Hrel). cbn beta.
  rewrite (bind_ok _ _ _ _ _ Hmd). cbn beta zeta.
  assert (Hup : Convert.up_to_date false src_path (dst_root ++ rel_md) w
                = (w, inr true)).
  { unfold Convert.up_to_date. cbn [negb].
    assert (He : exists_ (dst_root ++ rel_md) w = (w, inr true)).
    { unfold exists_. rewrite Hd. by rewrite bool_decide_eq_true_2 by by eexists. }
    rewrite (bind_ok _ _ _ _ _ He). cbn beta iota.
    assert (Hmd' : st_mtime (dst_root ++ rel_md) w = (w, inr (node_mtime nd)))
      by (unfold st_mtime; by rewrite Hd).
    assert (Hms : st_mtime src_path w = (w, inr (node_mtime ns)))
      by (unfold st_mtime; by rewrite Hs).
    rewrite (bind_ok _ _ _ _ _ Hmd'). cbn beta.
    rewrite (bind_ok _ _ _ _ _ Hms). cbn beta.
    unfold ret. apply Z.ltb_lt in Hlt. by rewrite Hlt. }
  rewrite (bind_ok _ _ _ _ _ Hup). cbn beta iota.
  unfold bind. by rewrite log_files.
Qed.

(** X20: a source whose lowered suffix is ".txt" is converted by a copy:
    when the item is due, the parent of the destination can be made and
    the destination is neither a directory nor the source, the
    destination holds the bytes of the source and the result is the line
    of success. *)
Theorem convert_txt_copies (src_path src_root dst_root : path)
    (force : bool) (w w1 : world) (rel_path rel_md : path)
    (c : list Byte.byte) (t : Z) :
  relative_to src_path src_root w = (w, inr rel_path) →
  with_suffix rel_path (py ".md") w = (w, inr rel_md) →
  Convert.up_to_date force src_path (dst_root ++ rel_md) w = (w, inr false) →
  mkdir_parents (parent (dst_root ++ rel_md)) w = (w1, inr tt) →
  lower (suffix src_path) = py ".txt" →
  lookup_node w src_path = Some (File c t) →
  is_dir w1 (dst_root ++ rel_md) = false →
  src_path ≠ dst_root ++ rel_md →
  Convert.process_file lower encode external src_path src_root dst_root
    force w
  = (World (<[dst_root ++ rel_md := File c (clock w)]> (files w1))
       (clock w)
       ((INFO, py "Converting: " ++ str_of_path rel_path ++ py " -> "
               ++ str_of_path rel_md) :: logged w1),
     inr (Some (py "Successfully converted: " ++ str_of_path rel_path))).
Proof.
  intros Hrel Hmd Hup Hmk Hext Hsrc Hnd Hne.
  unfold Convert.process_file.
  rewrite (bind_ok _ _ _ _ _ Hrel). cbn beta.
  rewrite (bind_ok _ _ _ _ _ Hmd). cbn beta zeta.
  rewrite (bind_ok _ _ _ _ _ Hup). cbn beta iota.
  rewrite (bind_ok _ _ _ _ _ Hmk). cbn beta. rewrite Hext.
  change (Convert.get Convert.CONVERTERS (py ".txt"))
    with (Some Convert.plain_copy).
  unfold try_except.
  assert (Hto : relative_to (dst_root ++ rel_md) dst_root w1
                = (w1, inr rel_md)).
  { unfold relative_to. by rewrite relative_to_aux_app. }
  rewrite (bind_ok _ _ _ _ _ Hto). cbn beta.
  unfold bind at 1. rewrite log_files.
  set (w2 := World (files w1) (clock w1) _).
  pose proof (mkdir_parents_is_dir _ _ _ Hmk) as Hpd.
  destruct (mkdir_from_spec (parent (dst_root ++ rel_md)) [] w)
    as (w1' & r & E & Hadd).
  unfold mkdir_parents in Hmk. rewrite Hmk in E. injection E as <- <-.
  pose proof (adds_dirs_only_lookup _ _ _ _ Hadd Hsrc) as Hsrc1.
  destruct Hadd as (Hc & _ & _).
  assert (Hcopy : Convert.run_converter external Convert.plain_copy src_path
                    (dst_root ++ rel_md) w2
                  = (set_node (dst_root ++ rel_md) (File c (clock w)) w2,
                     inr tt)).
  { cbn [Convert.run_converter]. unfold copy. unfold bind at 1.
    cbn beta iota.
    change (is_dir w2 (dst_root ++ rel_md))
      with (is_dir w1 (dst_root ++ rel_md)). rewrite Hnd.
    rewrite bool_decide_eq_false_2 by done.
    unfold bind, read_bytes, write_bytes.
    change (lookup_node w2 src_path) with (lookup_node w1 src_path).
    rewrite Hsrc1.
    change (is_dir w2 (dst_root ++ rel_md))
      with (is_dir w1 (dst_root ++ rel_md)). rewrite Hnd.
    change (is_dir w2 (parent (dst_root ++ rel_md)))
      with (is_dir w1 (parent (dst_root ++ rel_md))). rewrite Hpd.
    change (clock w2) with (clock w1). by rewrite Hc. }
  rewrite (bind_ok _ _ _ _ _ Hcopy). cbn beta.
  unfold ret, set_node. subst w2. cbn [files clock logged]. by rewrite Hc.
Qed.

(** X21: an error raised before the [try] block is not caught: when the
    parent of the destination cannot be made, [process_file] raises that
    error; no sidecar is written and no record is left. *)
Theorem convert_mkdir_error_escapes (src_path src_root dst_root : path)
    (force : bool) (w w1 : world) (rel_path rel_md : path) (e : exn) :
  relative_to src_path src_root w = (w, inr rel_path) →
  with_suffix rel_path (py ".md") w = (w, inr rel_md) →
  Convert.up_to_date force src_path (dst_root ++ rel_md) w = (w, inr false) →
  mkdir_parents (parent (dst_root ++ rel_md)) w = (w1, inl e) →
  Convert.process_file lower encode external src_path src_root dst_root
    force w = (w1, inl e)
  ∧ adds_dirs_only w w1.
Proof.
  intros Hrel Hmd Hup Hmk. split.
  - unfold Convert.process_file.
    rewrite (bind_ok _ _ _ _ _ Hrel). cbn beta.
    rewrite (bind_ok _ _ _ _ _ Hmd). cbn beta zeta.
    rewrite (bind_ok _ _ _ _ _ Hup). cbn beta iota.
    by rewrite (bind_err _ _ _ _ _ Hmk).
  - destruct (mkdir_from_spec (parent (dst_root ++ rel_md)) [] w)
      as (w1' & r & E & Hadd).
    unfold mkdir_parents in Hmk. rewrite Hmk in E. by injection E as <- _.
Qed.

End ConvertMore.

Lemma convert_skips_newer_destination_witness :
  Convert.process_file lower_ascii encode_ascii failing_tool
    [py "src"; py "a.txt"] [py "src"] [py "out"] false fresh_world
  = (World (files fresh_world) (clock fresh_world)
       ((DEBUG, py "Skipping (already up-to-date): "
                ++ str_of_path [py "a.txt"]) :: logged fresh_world),
     inr None).
Proof.
  apply (convert_skips_newer_destination lower_ascii encode_ascii
           failing_tool [py "src"; py "a.txt"] [py "src"] [py "out"]
           fresh_world [py "a.txt"] [py "a.md"]
           (File (encode_ascii (py "new")) 5)
           (File (encode_ascii (py "old")) 7));
    vm_compute; reflexivity.
Defined.

Lemma convert_txt_copies_witness :
  Convert.process_file lower_ascii encode_ascii failing_tool
    [py "src"; py "a.txt"] [py "src"] [py "out"] false tie_world
  = (World (<[[py "out"] ++ [py "a.md"] :=
                File (encode_ascii (py "new")) (clock tie_world)]>
              (files tie_world))
       (clock tie_world)
       ((INFO, py "Converting: " ++ str_of_path [py "a.txt"] ++ py " -> "
               ++ str_of_path [py "a.md"]) :: logged tie_world),
     inr (Some (py "Successfully converted: " ++ str_of_path [py "a.txt"]))).
Proof.
  apply (convert_txt_copies lower_ascii encode_ascii failing_tool
           [py "src"; py "a.txt"] [py "src"] [py "out"] false
           tie_world tie_world [py "a.txt"] [py "a.md"]
           (encode_ascii (py "new")) 5);
    try (vm_compute; reflexivity).
  vm_compute. discriminate.
Defined.

Lemma convert_mkdir_error_escapes_witness :
  ∃ w1 e,
    Convert.process_file lower_ascii encode_ascii failing_tool
      [py "src"; py "sub"; py "c.txt"] [py "src"] [py "out"] false
      blocked_parent_world = (w1, inl e)
    ∧ adds_dirs_only blocked_parent_world w1.
Proof.
  eexists _, _.
  apply (convert_mkdir_error_escapes lower_ascii encode_ascii failing_tool
           [py "src"; py "sub"; py "c.txt"] [py "src"] [py "out"] false
           blocked_parent_world blocked_parent_world
           [py "sub"; py "c.txt"] [py "sub"; py "c.md"]);
    vm_compute; reflexivity.
Defined.

(** * From a file to its book *)

Lemma mkdir_parents_adds (p : path) (w w1 : world) (r : exn + unit) :
  mkdir_parents p w = (w1, r) → adds_dirs_only w w1.
Proof.
  intros H. destruct (mkdir_from_spec p [] w) as (w1' & r' & E & Hadd).
  unfold mkdir_parents in H. rewrite H in E. by injection E as <- _.
Qed.

Lemma is_dir_snoc (w : world) (p : path) (x : list N) :
  is_dir w (p ++ [x]) =
  match files w !! (p ++ [x]) with Some (Dir _) => true | _ => false end.
Proof. unfold is_dir. by rewrite lookup_node_snoc. Qed.

(** Whether a path is a directory is not changed by a copy to it, or
    into it, and a [mkdir] after that. *)
Lemma is_dir_after_copy (u1 w1 u2 : world) (p : path) (x : list N)
    (inside : path) (c : list Byte.byte) (clk : Z) :
  inside ≠ p ++ [x] →
  files w1 = <[(if is_dir u1 (p ++ [x]) then inside else p ++ [x])
               := File c clk]> (files u1) →
  adds_dirs_only w1 u2 →
  is_dir u2 (p ++ [x]) = is_dir u1 (p ++ [x]).
Proof.
  intros Hne Hf (_ & _ & Hadd). specialize (Hadd (p ++ [x])).
  rewrite !is_dir_snoc in *. rewrite Hf in Hadd.
  destruct (files u1 !! (p ++ [x])) as [[b t|t]|] eqn:Eu.
  - rewrite lookup_insert_eq in Hadd. by destruct Hadd as [->|[? _]].
  - rewrite lookup_insert_ne, Eu in Hadd by done.
    by destruct Hadd as [->|[? _]].
  - rewrite lookup_insert_eq in Hadd. by destruct Hadd as [->|[? _]].
Qed.

Section Books.

Variable lower : str → str.
Variable decode : list Byte.byte → str.
Variable encode : str → list Byte.byte.

Lemma write_chapters_contents_aux (book_dir : path)
    (chapters : list (str * str)) (force : bool) (w w' : world)
    (idx : nat) (title content : str) :
  Split._write_chapters lower encode book_dir chapters force false w
    = (w', inr tt) →
  chapters !! idx = Some (title, content) →
  files w' !! (book_dir ++ [chapter_fname lower idx title])
    = Some (File (encode (content ++ [NL])) (clock w)).
Proof.
  intros (w1 & w2 & Hrm & Hmk & Hloop)%write_chapters_steps Hidx.
  apply write_loop_content in Hloop as [_ Hloop].
  specialize (Hloop _ _ _ Hidx). cbn [Nat.add] in Hloop.
  rewrite Hloop. do 2 f_equal.
  destruct (mkdir_from_spec book_dir [] w1) as (w2' & r & E & Hc & _).
  unfold mkdir_parents in Hmk. rewrite Hmk in E. injection E as <- _.
  rewrite Hc. destruct (force && _); [|by subst].
  by apply rmtree_ok in Hrm as [-> _].
Qed.

(** X22: a source of two segments or more, no dry run: when the [try]
    block ends without an error, the directory named by the stem of the
    source, under the destination root, holds every segment of
    [split_markdown] in the file of its index and title, the body
    followed by a line feed. *)
Theorem split_process_file_writes_book (src_path dst_root : path)
    (level : nat) (force : bool) (no_split_action : str) (w w' : world)
    (c : list Byte.byte) (t : Z) (idx : nat) (title content : str) :
  lookup_node w src_path = Some (File c t) →
  2 ≤ length (split_markdown (decode c) level) →
  Split.process_file_body lower decode encode src_path dst_root level force
    no_split_action false w = (w', inr tt) →
  split_markdown (decode c) level !! idx = Some (title, content) →
  files w' !! (dst_root ++ [stem src_path]
               ++ [chapter_fname lower idx title])
  = Some (File (encode (content ++ [NL])) (clock w)).
Proof.
  intros Hsrc Hlen Hbody Hidx.
  unfold Split.process_file_body, Split.read_text in Hbody.
  unfold bind at 1 in Hbody. unfold bind at 1 in Hbody.
  unfold read_bytes in Hbody. rewrite Hsrc in Hbody.
  unfold ret at 1 in Hbody. cbn beta iota zeta in Hbody.
  apply Nat.leb_gt in Hlen. rewrite Hlen in Hbody.
  apply bind_inv_ok in Hbody as (w1 & [] & Hw & Hl).
  rewrite log_files in Hl. injection Hl as <-. cbn [files].
  rewrite app_assoc.
  by apply (write_chapters_contents_aux _ _ _ _ _ _ _ _ Hw).
Qed.

(** The copy of the no heading branch, with the place it goes to. *)
Lemma fallback_copy_target (src_path dst_root : path) (level : nat)
    (force : bool) (w w2 : world) (c : list Byte.byte) (t : Z) :
  lookup_node w src_path = Some (File c t) →
  length (split_markdown (decode c) level) ≤ 1 →
  Split.process_file_body lower decode encode src_path dst_root level
    force (py "copy") false w = (w2, inr tt) →
  ∃ w1 n,
    adds_dirs_only w w1 ∧
    clock w2 = clock w ∧
    files w2 =
      <[(if is_dir w1 (dst_root ++ [n ++ py ".md"])
         then dst_root ++ [n ++ py ".md"] ++ [name src_path]
         else dst_root ++ [n ++ py ".md"]) := File c (clock w)]> (files w1) ∧
    n = take (length (stem src_path)
              - length (suffix (dst_root ++ [stem src_path])))
             (stem src_path).
Proof.
  intros Hsrc Hlen.
  unfold Split.process_file_body, Split.read_text.
  unfold bind at 1. unfold bind at 1. unfold read_bytes. rewrite Hsrc.
  unfold ret at 1. cbn beta iota.
  apply Nat.leb_le in Hlen. rewrite Hlen.
  rewrite bool_decide_eq_true_2 by done.
  intros (w0 & dst & Hws & H)%bind_inv_ok.
  unfold with_suffix in Hws.
  assert (Hname : name (dst_root ++ [stem src_path]) = stem src_path).
  { unfold name. by rewrite last_last. }
  rewrite Hname, parent_snoc in Hws.
  destruct (stem src_path) as [|x st] eqn:Est; [discriminate|].
  injection Hws as <- <-.
  apply bind_inv_ok in H as (w1 & [] & Hmk & H).
  apply bind_inv_ok in H as (w3 & [] & Hcopy & Hl).
  rewrite log_files in Hl. injection Hl as <-.
  pose proof (mkdir_parents_adds _ _ _ _ Hmk) as Hadd.
  exists w1, (take (length (x :: st)
                    - length (suffix (dst_root ++ [x :: st]))) (x :: st)).
  split; [done|].
  unfold copy in Hcopy. unfold bind at 1 in Hcopy. cbn beta iota in Hcopy.
  revert Hcopy. case_bool_decide as Hsame; [unfold raise; discriminate|].
  unfold bind, read_bytes, write_bytes.
  rewrite (adds_dirs_only_lookup w w1 src_path _ Hadd Hsrc).
  destruct Hadd as (Hc & _ & _).
  set (dst := dst_root ++ [_ ++ py ".md"]) in *.
  set (target := if is_dir w1 dst then dst ++ [name src_path] else dst).
  destruct (is_dir w1 target); [discriminate|].
  destruct (is_dir w1 (parent target)); [|discriminate].
  intros [= <-]. cbn [clock files set_node]. rewrite Hc.
  split; [done|]. split; [|done].
  subst target dst. destruct (is_dir w1 _); [|done].
  by rewrite <- app_assoc.
Qed.

(** X23: two sources without headings and with the same name, in
    whatever directories, are copied to the same destination file: after
    the second copy the file holds the bytes of the second source and
    the copy of the first one is gone. *)
Theorem split_copy_same_name_overwrites (src1 src2 dst_root : path)
    (level : nat) (force : bool) (w w1 w2 : world)
    (c1 c2 : list Byte.byte) (t1 t2 : Z) :
  name src1 = name src2 →
  lookup_node w src1 = Some (File c1 t1) →
  length (split_markdown (decode c1) level) ≤ 1 →
  Split.process_file_body lower decode encode src1 dst_root level force
    (py "copy") false w = (w1, inr tt) →
  lookup_node w1 src2 = Some (File c2 t2) →
  length (split_markdown (decode c2) level) ≤ 1 →
  Split.process_file_body lower decode encode src2 dst_root level force
    (py "copy") false w1 = (w2, inr tt) →
  ∃ target,
    files w1 !! target = Some (File c1 (clock w)) ∧
    files w2 !! target = Some (File c2 (clock w)).
Proof.
  intros Hname Hs1 Hl1 Hb1 Hs2 Hl2 Hb2.
  apply (fallback_copy_target _ _ _ _ _ _ _ _ Hs1 Hl1) in Hb1
    as (u1 & n1 & Hadd1 & Hc1 & Hf1 & Hn1).
  apply (fallback_copy_target _ _ _ _ _ _ _ _ Hs2 Hl2) in Hb2
    as (u2 & n2 & Hadd2 & Hc2 & Hf2 & Hn2).
  assert (n1 = n2) as <-.
  { rewrite Hn1, Hn2. unfold stem, suffix, name in *.
    rewrite !last_last. by rewrite Hname. }
  rewrite <- Hname in Hf2. rewrite Hc1 in Hf2.
  assert (Hdir : is_dir u2 (dst_root ++ [n1 ++ py ".md"])
                 = is_dir u1 (dst_root ++ [n1 ++ py ".md"])).
  { eapply (is_dir_after_copy u1 w1 u2 dst_root (n1 ++ py ".md")
              (dst_root ++ [n1 ++ py ".md"] ++ [name src1]));
      [|exact Hf1|exact Hadd2].
    intros E. apply (f_equal length) in E.
    rewrite !length_app in E. cbn [length] in E. lia. }
  rewrite Hdir in Hf2.
  exists (if is_dir u1 (dst_root ++ [n1 ++ py ".md"])
          then dst_root ++ [n1 ++ py ".md"] ++ [name src1]
          else dst_root ++ [n1 ++ py ".md"]).
  rewrite Hf1, Hf2. by rewrite !lookup_insert_eq.
Qed.

End Books.

Lemma split_process_file_writes_book_witness :
  files (Split.process_file_body lower_ascii decode_ascii encode_ascii
           [py "src"; py "notes.md"] [py "out"] 1 false (py "skip") false
           book_world).1
    !! ([py "out"] ++ [stem [py "src"; py "notes.md"]]
        ++ [chapter_fname lower_ascii 1 (py "A")])
  = Some (File (encode_ascii (py ("# A" +:+ nl +:+ "body1") ++ [NL]))
               (clock book_world)).
Proof.
  apply (split_process_file_writes_book lower_ascii decode_ascii encode_ascii
           [py "src"; py "notes.md"] [py "out"] 1 false (py "skip")
           book_world _ (encode_ascii example_text) 5 1 (py "A")
           (py ("# A" +:+ nl +:+ "body1")));
    try (vm_compute; reflexivity).
  vm_compute. lia.
Defined.

Lemma split_copy_same_name_overwrites_witness :
  ∃ target,
    files (Split.process_file_body lower_ascii decode_ascii encode_ascii
             [py "src"; py "a"; py "x.md"] [py "out"] 1 false (py "copy")
             false twin_world).1 !! target
      = Some (File (encode_ascii (py "first")) (clock twin_world)) ∧
    files (Split.process_file_body lower_ascii decode_ascii encode_ascii
             [py "src"; py "b"; py "x.md"] [py "out"] 1 false (py "copy")
             false
             (Split.process_file_body lower_ascii decode_ascii encode_ascii
                [py "src"; py "a"; py "x.md"] [py "out"] 1 false (py "copy")
                false twin_world).1).1 !! target
      = Some (File (encode_ascii (py "second")) (clock twin_world)).
Proof.
  apply (split_copy_same_name_overwrites lower_ascii decode_ascii
           encode_ascii [py "src"; py "a"; py "x.md"]
           [py "src"; py "b"; py "x.md"] [py "out"] 1 false twin_world
           _ _ (encode_ascii (py "first")) (encode_ascii (py "second")) 5 5);
    try (vm_compute; reflexivity); vm_compute; lia.
Defined.

(** X24: a source whose lowered suffix is not in [CONVERTERS] gets a
    WARNING record and the result [None]; by then the parent of its
    destination has been made, and nothing else is changed. *)
Theorem convert_without_converter (lower : str → str)
    (encode : str → list Byte.byte)
    (external : Convert.converter → path → path → M unit)
    (src_path src_root dst_root : path) (force : bool) (w w1 : world)
    (rel_path rel_md : path) :
  relative_to src_path src_root w = (w, inr rel_path) →
  with_suffix rel_path (py ".md") w = (w, inr rel_md) →
  Convert.up_to_date force src_path (dst_root ++ rel_md) w = (w, inr false) →
  mkdir_parents (parent (dst_root ++ rel_md)) w = (w1, inr tt) →
  Convert.get Convert.CONVERTERS (lower (suffix src_path)) = None →
  Convert.process_file lower encode external src_path src_root dst_root
    force w
  = (World (files w1) (clock w1)
       ((WARNING, py "No converter found for " ++ lower (suffix src_path)
                  ++ py ", skipping: " ++ str_of_path rel_path)
        :: logged w1), inr None)
  ∧ adds_dirs_only w w1
  ∧ is_dir w1 (parent (dst_root ++ rel_md)) = true.
Proof.
  intros Hrel Hmd Hup Hmk Hget. split; [|split].
  - unfold Convert.process_file.
    rewrite (bind_ok _ _ _ _ _ Hrel). cbn beta.
    rewrite (bind_ok _ _ _ _ _ Hmd). cbn beta zeta.
    rewrite (bind_ok _ _ _ _ _ Hup). cbn beta iota.
    rewrite (bind_ok _ _ _ _ _ Hmk). cbn beta. rewrite Hget.
    unfold bind. by rewrite log_files.
  - by eapply mkdir_parents_adds.
  - by eapply mkdir_parents_is_dir.
Qed.

Lemma convert_without_converter_witness :
  ∃ w1,
    Convert.process_file lower_ascii encode_ascii failing_tool
      [py "src"; py "deep"; py "d.xyz"] [py "src"] [py "out"] false odd_world
    = (World (files w1) (clock w1)
         ((WARNING, py "No converter found for "
                    ++ lower_ascii (suffix [py "src"; py "deep"; py "d.xyz"])
                    ++ py ", skipping: "
                    ++ str_of_path [py "deep"; py "d.xyz"])
          :: logged w1), inr None)
    ∧ adds_dirs_only odd_world w1
    ∧ is_dir w1 (parent ([py "out"] ++ [py "deep"; py "d.md"])) = true.
Proof.
  eexists.
  apply (convert_without_converter lower_ascii encode_ascii failing_tool
           [py "src"; py "deep"; py "d.xyz"] [py "src"] [py "out"] false
           odd_world _ [py "deep"; py "d.xyz"] [py "deep"; py "d.md"]);
    vm_compute; reflexivity.
Defined.

(** * The copy of a file without headings *)

Section Fallback.

Variable lower : str → str.
Variable decode : list Byte.byte → str.
Variable encode : str → list Byte.byte.

(** The name [book_dir.with_suffix(".md")] gives to the copy: the stem
    of the source, its own last suffix taken off, and ".md". *)
Lemma with_suffix_book_dir (src_path dst_root : path) (w : world) :
  stem src_path ≠ [] →
  with_suffix (dst_root ++ [stem src_path]) (py ".md") w
  = (w, inr (dst_root ++ [stem [stem src_path] ++ py ".md"])).
Proof.
  intros Hne. unfold with_suffix.
  assert (Hname : name (dst_root ++ [stem src_path]) = stem src_path).
  { unfold name. by rewrite last_last. }
  rewrite Hname, parent_snoc.
  destruct (stem src_path) as [|x st] eqn:E; [done|].
  unfold ret. do 4 f_equal. unfold stem, suffix. rewrite Hname.
  by change (name [x :: st]) with (x :: st).
Qed.

Lemma fallback_copy_exact (src_path dst_root : path) (level : nat)
    (force : bool) (w w2 : world) (c : list Byte.byte) (t : Z) :
  lookup_node w src_path = Some (File c t) →
  length (split_markdown (decode c) level) ≤ 1 →
  Split.process_file_body lower decode encode src_path dst_root level
    force (py "copy") false w = (w2, inr tt) →
  ∃ w1,
    mkdir_parents dst_root w = (w1, inr tt) ∧
    adds_dirs_only w w1 ∧
    files w2 =
      <[(if is_dir w1 (dst_root ++ [stem [stem src_path] ++ py ".md"])
         then dst_root ++ [stem [stem src_path] ++ py ".md"; name src_path]
         else dst_root ++ [stem [stem src_path] ++ py ".md"])
        := File c (clock w)]> (files w1).
Proof.
  intros Hsrc Hlen.
  unfold Split.process_file_body, Split.read_text.
  unfold bind at 1. unfold bind at 1. unfold read_bytes. rewrite Hsrc.
  unfold ret at 1. cbn beta iota.
  apply Nat.leb_le in Hlen. rewrite Hlen.
  rewrite bool_decide_eq_true_2 by done.
  intros (w0 & dst & Hws & H)%bind_inv_ok.
  assert (Hne : stem src_path ≠ []).
  { intros E. unfold with_suffix in Hws.
    assert (Hname : name (dst_root ++ [stem src_path]) = stem src_path).
    { unfold name. by rewrite last_last. }
    rewrite Hname, E in Hws. discriminate. }
  rewrite (with_suffix_book_dir _ _ _ Hne) in Hws. injection Hws as <- <-.
  rewrite parent_snoc in H.
  apply bind_inv_ok in H as (w1 & [] & Hmk & H).
  apply bind_inv_ok in H as (w3 & [] & Hcopy & Hl).
  rewrite log_files in Hl. injection Hl as <-.
  pose proof (mkdir_parents_adds _ _ _ _ Hmk) as Hadd.
  exists w1. split; [done|]. split; [done|].
  unfold copy in Hcopy. unfold bind at 1 in Hcopy. cbn beta iota in Hcopy.
  revert Hcopy. case_bool_decide as Hsame; [unfold raise; discriminate|].
  unfold bind, read_bytes, write_bytes.
  rewrite (adds_dirs_only_lookup w w1 src_path _ Hadd Hsrc).
  destruct Hadd as (Hc & _ & _).
  set (dst := dst_root ++ [stem [stem src_path] ++ py ".md"]) in *.
  set (target := if is_dir w1 dst then dst ++ [name src_path] else dst).
  destruct (is_dir w1 target); [discriminate|].
  destruct (is_dir w1 (parent target)); [|discriminate].
  intros [= <-]. cbn [clock files set_node]. rewrite Hc.
  subst target dst. destruct (is_dir w1 _); [|done].
  by rewrite <- app_assoc.
Qed.

End Fallback.



(** The copy of "notes.v1.md" is "notes.md". *)
Example fallback_name_drops_inner_suffix :
  stem [stem [py "src"; py "notes.v1.md"]] ++ py ".md" = py "notes.md".
Proof. vm_compute. reflexivity. Qed.

(** * The order of the items *)

(** ** What a computation depends on *)

Section Determined.

Context {Q : path → bool}.

Lemma agree_refl (w : world) : agree Q w w.
Proof. by split. Qed.

Lemma agree_lookup (w w' : world) (p : path) :
  agree Q w w' → Q p = true → lookup_node w p = lookup_node w' p.
Proof. intros [_ H] Hp. destruct p; [done|]. cbn [lookup_node]. by apply H. Qed.

Lemma agree_is_dir (w w' : world) (p : path) :
  agree Q w w' → Q p = true → is_dir w p = is_dir w' p.
Proof. intros H Hp. unfold is_dir. by rewrite (agree_lookup w w' p H Hp). Qed.

Lemma determined_pure {A} (m : M A) :
  (∀ w, (m w).1 = w) → (∀ w w', agree Q w w' → (m w).2 = (m w').2) →
  determined Q m.
Proof.
  intros H1 H2 w w' H. split; [by apply H2|]. rewrite !H1.
  split; [done|]. by exists [].
Qed.

Lemma determined_ret {A} (a : A) : determined Q (ret a).
Proof. by apply determined_pure. Qed.

Lemma determined_raise {A} (e : exn) : determined Q (raise (A:=A) e).
Proof. by apply determined_pure. Qed.

Lemma determined_bind {A B} (m : M A) (k : A → M B) :
  determined Q m → (∀ w w' a, m w = (w', inr a) → determined Q (k a)) →
  determined Q (bind m k).
Proof.
  intros Hm Hk w w' H. unfold bind.
  destruct (Hm w w' H) as (Hr & Ha & l & Hl & Hl').
  destruct (m w) as [w1 [e|a]] eqn:E, (m w') as [w1' [e'|a']] eqn:E';
    cbn [fst snd] in *; try discriminate.
  - injection Hr as <-. split; [done|]. split; [done|]. by exists l.
  - injection Hr as <-.
    destruct (Hk w w1 a E w1 w1' Ha) as (Hr2 & Ha2 & l2 & Hl2 & Hl2').
    split; [done|]. split; [done|]. exists (l2 ++ l).
    rewrite Hl2, Hl2', Hl, Hl'. by rewrite !app_assoc.
Qed.

Lemma determined_try_except {A} (body : M A) (handler : exn → M A) :
  determined Q body → (∀ e, determined Q (handler e)) →
  determined Q (try_except body handler).
Proof.
  intros Hb Hh w w' H. unfold try_except.
  destruct (Hb w w' H) as (Hr & Ha & l & Hl & Hl').
  destruct (body w) as [w1 [e|a]] eqn:E, (body w') as [w1' [e'|a']] eqn:E';
    cbn [fst snd] in *; try discriminate.
  - injection Hr as <-.
    destruct (Hh e w1 w1' Ha) as (Hr2 & Ha2 & l2 & Hl2 & Hl2').
    split; [done|]. split; [done|]. exists (l2 ++ l).
    rewrite Hl2, Hl2', Hl, Hl'. by rewrite !app_assoc.
  - split; [done|]. split; [done|]. by exists l.
Qed.

Lemma determined_for_each {A} (f : A → M unit) (l : list A) :
  (∀ a, a ∈ l → determined Q (f a)) → determined Q (for_each f l).
Proof.
  induction l as [|a l IH]; intros Hf; cbn [for_each]; [apply determined_ret|].
  apply determined_bind; [apply Hf; left|]. intros _ _ _ _.
  apply IH. intros b Hb. apply Hf. by right.
Qed.

Lemma determined_log (lv : log_level) (msg : str) : determined Q (log lv msg).
Proof.
  intros w w' H. split; [done|]. split; [exact H|]. by exists [(lv, msg)].
Qed.

Lemma determined_with_suffix (p : path) (suf : str) :
  determined Q (with_suffix p suf).
Proof.
  unfold with_suffix. destruct (name p);
    [apply determined_raise | apply determined_ret].
Qed.

Lemma determined_exists_ (p : path) : Q p = true → determined Q (exists_ p).
Proof.
  intros Hp. apply determined_pure; [done|]. intros w w' H.
  unfold exists_. cbn [snd]. by rewrite (agree_lookup w w' p H Hp).
Qed.

Lemma determined_read_bytes (p : path) :
  Q p = true → determined Q (read_bytes p).
Proof.
  intros Hp. apply determined_pure.
  - intros w. unfold read_bytes. by destruct (lookup_node w p) as [[]|].
  - intros w w' H. unfold read_bytes. rewrite (agree_lookup w w' p H Hp).
    by destruct (lookup_node w' p) as [[]|].
Qed.

Lemma agree_set_node (w w' : world) (p : path) (n n' : node) :
  agree Q w w' → n = n' → agree Q (set_node p n w) (set_node p n' w').
Proof.
  intros [Hc H] <-. split; [done|]. intros q Hq. cbn [files set_node].
  destruct (decide (p = q)) as [->|Hne].
  - by rewrite !lookup_insert_eq.
  - rewrite !lookup_insert_ne by done. by apply H.
Qed.

Lemma determined_ensure_dir (p : path) :
  Q p = true → determined Q (ensure_dir p).
Proof.
  intros Hp w w' H. unfold ensure_dir. rewrite (agree_lookup w w' p H Hp).
  destruct (lookup_node w' p) as [[c t|t]|]; cbn [fst snd].
  - split; [done|]. split; [done|]. by exists [].
  - split; [done|]. split; [done|]. by exists [].
  - split; [done|]. split; [|by exists []].
    apply agree_set_node; [done|]. by destruct H as [-> _].
Qed.

Lemma determined_mkdir_from (rest : path) :
  ∀ pre, (∀ k, Q (pre ++ take (S k) rest) = true) →
         determined Q (mkdir_from pre rest).
Proof.
  induction rest as [|c rest IH]; intros pre H; cbn [mkdir_from];
    [apply determined_ret|].
  apply determined_bind; [apply determined_ensure_dir, (H 0)|].
  intros _ _ _ _. apply IH. intros k. rewrite <- app_assoc.
  apply (H (S k)).
Qed.

Lemma determined_rmtree (p : path) : Q p = true → determined Q (rmtree p).
Proof.
  intros Hp w w' H. unfold rmtree. rewrite (agree_lookup w w' p H Hp).
  destruct (lookup_node w' p) as [[c t|t]|]; cbn [fst snd].
  - split; [done|]. split; [done|]. by exists [].
  - split; [done|]. split; [|by exists []].
    destruct H as [Hc H]. split; [done|]. intros q Hq. cbn [files].
    rewrite !map_lookup_filter. rewrite (H q Hq). done.
  - split; [done|]. split; [done|]. by exists [].
Qed.

Lemma determined_write_bytes (p : path) (c : list Byte.byte) :
  Q p = true → Q (parent p) = true → determined Q (write_bytes p c).
Proof.
  intros Hp Hpp w w' H. unfold write_bytes.
  rewrite (agree_is_dir w w' p H Hp), (agree_is_dir w w' _ H Hpp).
  destruct (is_dir w' p); cbn [fst snd].
  { split; [done|]. split; [done|]. by exists []. }
  destruct (is_dir w' (parent p)); cbn [fst snd].
  - split; [done|]. split; [|by exists []].
    apply agree_set_node; [done|]. by destruct H as [-> _].
  - split; [done|]. split; [done|]. by exists [].
Qed.

Lemma determined_copy (src dst : path) :
  Q src = true → Q dst = true → Q (parent dst) = true →
  Q (dst ++ [name src]) = true →
  determined Q (copy src dst).
Proof.
  intros Hs Hd Hpd Hds. unfold copy. apply determined_bind.
  { apply determined_pure; [done|]. intros w w' H. cbn [snd].
    by rewrite (agree_is_dir w w' dst H Hd). }
  intros _ _ d _. case_bool_decide; [apply determined_raise|].
  apply determined_bind; [by apply determined_read_bytes|].
  intros _ _ c _. destruct d.
  - apply determined_write_bytes; [done|]. by rewrite parent_snoc.
  - by apply determined_write_bytes.
Qed.

End Determined.

(** ** The entries of a source under the destination root *)

Lemma prefix_of_take (p : path) (k : nat) : prefix_of (take k p) p = true.
Proof. apply prefix_of_spec. exists (drop k p). by rewrite take_drop. Qed.

Lemma prefix_of_length (p q : path) :
  prefix_of p q = true → length p ≤ length q.
Proof. intros [r ->]%prefix_of_spec. rewrite length_app. lia. Qed.

Lemma take_snoc_cases (p : path) (c : list N) (k : nat) :
  prefix_of (take k (p ++ [c])) p = true ∨ take k (p ++ [c]) = p ++ [c].
Proof.
  destruct (decide (k ≤ length p)) as [Hk|Hk].
  - left. rewrite take_app_le by done. apply prefix_of_take.
  - right. apply take_ge. rewrite length_app. cbn [length]. lia.
Qed.

Lemma in_region_spec (dst_root src_path q : path) :
  in_region dst_root src_path q = true
  ↔ ∃ c r, c ∈ slots src_path ∧ q = dst_root ++ c :: r.
Proof.
  unfold in_region. rewrite existsb_exists. split.
  - intros (c & Hc%list_elem_of_In & [r ->]%prefix_of_spec).
    exists c, r. split; [done|]. by rewrite <- app_assoc.
  - intros (c & r & Hc & ->). exists c. split; [by apply list_elem_of_In|].
    apply prefix_of_spec. exists r. by rewrite <- app_assoc.
Qed.

Lemma in_region_book (dst_root src_path r : path) :
  in_region dst_root src_path (dst_root ++ stem src_path :: r) = true.
Proof. apply in_region_spec. exists (stem src_path), r. split; [left|done]. Qed.

Lemma in_region_copy (dst_root src_path r : path) :
  in_region dst_root src_path
    (dst_root ++ (stem [stem src_path] ++ py ".md") :: r) = true.
Proof.
  apply in_region_spec. exists (stem [stem src_path] ++ py ".md"), r.
  split; [right; left|done].
Qed.

Lemma in_region_below (dst_root src_path q q' : path) :
  in_region dst_root src_path q = true → prefix_of q q' = true →
  in_region dst_root src_path q' = true.
Proof.
  rewrite !in_region_spec. intros (c & r & Hc & ->) [r' ->]%prefix_of_spec.
  exists c, (r ++ r'). split; [done|]. by rewrite <- app_assoc.
Qed.

Lemma in_region_under_root (dst_root src_path q : path) :
  in_region dst_root src_path q = true → prefix_of dst_root q = true.
Proof.
  intros (c & r & _ & ->)%in_region_spec. apply prefix_of_app.
Qed.

Lemma in_region_not_above (dst_root src_path q : path) :
  prefix_of q dst_root = true → in_region dst_root src_path q = false.
Proof.
  intros Hq%prefix_of_length. destruct (in_region _ _ q) eqn:E; [|done].
  apply in_region_spec in E as (c & r & _ & ->).
  rewrite length_app in Hq. cbn [length] in Hq. lia.
Qed.

Lemma apart_spec (fp fp' : path) :
  apart fp fp' = true ↔ ∀ c, c ∈ slots fp → c ∉ slots fp'.
Proof.
  unfold apart. rewrite forallb_forall. split.
  - intros H c Hc%list_elem_of_In Hc'%list_elem_of_In.
    specialize (H c Hc). rewrite forallb_forall in H.
    specialize (H c Hc'). by rewrite bool_decide_eq_true_2 in H.
  - intros H c Hc%list_elem_of_In. apply forallb_forall.
    intros c' Hc'%list_elem_of_In. apply negb_true_iff, bool_decide_eq_false.
    intros ->. by apply (H c').
Qed.

Lemma apart_sym (fp fp' : path) : apart fp fp' = true → apart fp' fp = true.
Proof. rewrite !apart_spec. intros H c Hc Hc'. by apply (H c). Qed.

Lemma apart_regions (dst_root fp fp' q : path) :
  apart fp fp' = true → in_region dst_root fp q = true →
  in_region dst_root fp' q = false.
Proof.
  intros Ha (c & r & Hc & ->)%in_region_spec.
  pose proof (proj1 (apart_spec fp fp') Ha) as Hs.
  destruct (in_region dst_root fp' _) eqn:E; [|done].
  apply in_region_spec in E as (c' & r' & Hc' & E).
  apply app_inv_head in E. injection E as -> _. by destruct (Hs c').
Qed.

(** The entries of a source are not looked at for a source that is apart
    from it and outside the destination root. *)
Lemma region_not_in_footprint (dst_root fp fp' q : path) :
  apart fp fp' = true → prefix_of dst_root fp' = false →
  in_region dst_root fp q = true → footprint dst_root fp' q = false.
Proof.
  intros Ha Hout Hq. unfold footprint.
  rewrite (apart_regions dst_root fp fp' q Ha Hq), orb_false_r.
  apply orb_false_iff. split.
  - apply bool_decide_eq_false. intros ->.
    by rewrite (in_region_under_root _ _ _ Hq) in Hout.
  - destruct (prefix_of q dst_root) eqn:E; [|done].
    by rewrite (in_region_not_above dst_root fp q E) in Hq.
Qed.

Lemma chain_ok_spec (dst_root : path) (w : world) :
  chain_ok dst_root w = true ↔ ∀ q, prefix_of q dst_root = true → is_dir w q = true.
Proof.
  unfold chain_ok. rewrite forallb_forall. split.
  - intros H q Hq. pose proof (prefix_of_length _ _ Hq) as Hlen.
    apply prefix_of_spec in Hq as [r Hq].
    assert (q = take (length q) dst_root) as ->.
    { rewrite Hq. by rewrite take_app_length. }
    apply H, in_seq. lia.
  - intros H k _. apply H, prefix_of_take.
Qed.

Lemma region_kept_intro (dst_root src_path : path) (w w' : world) :
  clock w' = clock w →
  (∀ q, in_region dst_root src_path q = false → files w' !! q = files w !! q) →
  region_kept dst_root src_path w w'.
Proof.
  intros Hc Hf Hchain. split; [|done].
  apply chain_ok_spec. intros q Hq.
  rewrite chain_ok_spec in Hchain. specialize (Hchain q Hq).
  unfold is_dir, lookup_node in *. destruct q; [done|].
  by rewrite (Hf _ (in_region_not_above dst_root src_path _ Hq)).
Qed.

Global Instance region_kept_preorder (dst_root src_path : path) :
  PreOrder (region_kept dst_root src_path).
Proof.
  split.
  - intros w H. by split.
  - intros w1 w2 w3 H12 H23 H1.
    destruct (H12 H1) as (H2 & Hc2 & Hf2).
    destruct (H23 H2) as (H3 & Hc3 & Hf3).
    split; [done|]. split; [congruence|].
    intros q Hq. by rewrite Hf3, Hf2.
Qed.

Section RegionKept.

Variables dst_root src_path : path.

Lemma region_kept_log (lv : log_level) (msg : str) :
  keeps (region_kept dst_root src_path) (log lv msg).
Proof. intros w. by apply region_kept_intro. Qed.

Lemma region_kept_ensure_dir (p : path) :
  prefix_of p dst_root = true ∨ in_region dst_root src_path p = true →
  keeps (region_kept dst_root src_path) (ensure_dir p).
Proof.
  intros Hp w. unfold ensure_dir.
  destruct (lookup_node w p) as [[c t|t]|] eqn:E; cbn [fst];
    [reflexivity|reflexivity|].
  destruct Hp as [Hp|Hp].
  - intros Hchain. rewrite chain_ok_spec in Hchain.
    specialize (Hchain p Hp). unfold is_dir in Hchain. by rewrite E in Hchain.
  - apply region_kept_intro; [done|]. intros q Hq. cbn [files set_node].
    rewrite lookup_insert_ne; [done|]. intros <-. congruence.
Qed.

Lemma region_kept_mkdir_from (rest : path) :
  ∀ pre,
    (∀ k, prefix_of (pre ++ take (S k) rest) dst_root = true
          ∨ in_region dst_root src_path (pre ++ take (S k) rest) = true) →
    keeps (region_kept dst_root src_path) (mkdir_from pre rest).
Proof.
  induction rest as [|c rest IH]; intros pre H; cbn [mkdir_from];
    [apply keeps_ret|].
  apply keeps_bind; [apply region_kept_ensure_dir, (H 0)|].
  intros _ _ _ _. apply IH. intros k. rewrite <- app_assoc. apply (H (S k)).
Qed.

Lemma region_kept_mkdir_root :
  keeps (region_kept dst_root src_path) (mkdir_parents dst_root).
Proof.
  apply region_kept_mkdir_from. intros k. left. apply prefix_of_take.
Qed.

Lemma region_kept_mkdir_entry (c : list N) :
  in_region dst_root src_path (dst_root ++ [c]) = true →
  keeps (region_kept dst_root src_path) (mkdir_parents (dst_root ++ [c])).
Proof.
  intros Hc. apply region_kept_mkdir_from. intros k. cbn [app].
  destruct (take_snoc_cases dst_root c (S k)) as [H| ->]; [by left|by right].
Qed.

Lemma region_kept_rmtree (p : path) :
  in_region dst_root src_path p = true →
  keeps (region_kept dst_root src_path) (rmtree p).
Proof.
  intros Hp w. unfold rmtree.
  destruct (lookup_node w p) as [[c t|t]|]; [reflexivity| |reflexivity].
  apply region_kept_intro; [done|]. intros q Hq. cbn [fst files].
  rewrite map_lookup_filter.
  destruct (files w !! q) as [n|] eqn:E; [|done]. cbn.
  destruct (prefix_of p q) eqn:Hpq.
  - by rewrite (in_region_below _ _ _ _ Hp Hpq) in Hq.
  - by rewrite option_guard_True.
Qed.

Lemma region_kept_write_bytes (p : path) (c : list Byte.byte) :
  in_region dst_root src_path p = true →
  keeps (region_kept dst_root src_path) (write_bytes p c).
Proof.
  intros Hp w. unfold write_bytes.
  destruct (is_dir w p); [reflexivity|].
  destruct (is_dir w (parent p)); [|reflexivity].
  apply region_kept_intro; [done|]. intros q Hq. cbn [fst files set_node].
  rewrite lookup_insert_ne; [done|]. intros <-. congruence.
Qed.

Lemma region_kept_copy (src dst : path) :
  in_region dst_root src_path dst = true →
  keeps (region_kept dst_root src_path) (copy src dst).
Proof.
  intros Hd. unfold copy. apply keeps_bind; [by apply keeps_pure|].
  intros w w' d _. case_bool_decide; [apply keeps_raise|].
  apply keeps_bind; [apply keeps_read_bytes|]. intros _ _ c _.
  apply region_kept_write_bytes.
  destruct d; [|done].
  eapply in_region_below; [exact Hd | apply prefix_of_app].
Qed.

End RegionKept.

(** ** One item *)

Lemma with_suffix_book_dir_inv (src_path dst_root dst : path) (w w' : world) :
  with_suffix (dst_root ++ [stem src_path]) (py ".md") w = (w', inr dst) →
  dst = dst_root ++ [stem [stem src_path] ++ py ".md"].
Proof.
  destruct (decide (stem src_path = [])) as [E|Hne].
  - rewrite E. unfold with_suffix, name. rewrite last_last. discriminate.
  - rewrite (with_suffix_book_dir src_path dst_root w Hne). by intros [= _ <-].
Qed.

Section SplitOrder.

Variable lower : str → str.
Variable decode : list Byte.byte → str.
Variable encode : str → list Byte.byte.

Lemma region_kept_write_chapters (dst_root src_path : path)
    (chapters : list (str * str)) (force dry_run : bool) :
  keeps (region_kept dst_root src_path)
        (Split._write_chapters lower encode (dst_root ++ [stem src_path])
           chapters force dry_run).
Proof.
  unfold Split._write_chapters.
  apply keeps_bind; [apply keeps_exists_|]. intros _ _ e _.
  apply keeps_bind.
  { destruct (force && e); [|apply keeps_ret].
    apply region_kept_rmtree, in_region_book. }
  intros _ _ _ _.
  apply keeps_bind; [apply region_kept_mkdir_entry, in_region_book|].
  intros _ _ _ _. apply keeps_for_each. intros [idx [title content]] _.
  cbn [fst snd]. unfold Split.write_chapter.
  destruct dry_run; [apply region_kept_log|].
  apply keeps_bind; [|intros; apply region_kept_log].
  apply region_kept_write_bytes. rewrite <- app_assoc. apply in_region_book.
Qed.

Lemma region_kept_process_file (src_path dst_root : path) (level : nat)
    (force : bool) (no_split_action : str) (dry_run : bool) :
  keeps (region_kept dst_root src_path)
        (Split.process_file lower decode encode src_path dst_root level
           force no_split_action dry_run).
Proof.
  unfold Split.process_file.
  apply keeps_try_except; [|intros; apply region_kept_log].
  unfold Split.process_file_body, Split.read_text.
  apply keeps_bind.
  { apply keeps_bind; [apply keeps_read_bytes | intros; apply keeps_ret]. }
  intros _ _ md_text _. cbv zeta.
  destruct (length (split_markdown md_text level) <=? 1).
  - case_bool_decide; [|apply region_kept_log].
    apply keeps_bind; [apply keeps_with_suffix|].
    intros w w' dst ->%with_suffix_book_dir_inv.
    rewrite parent_snoc.
    destruct dry_run; [apply region_kept_log|].
    apply keeps_bind; [apply region_kept_mkdir_root|]. intros _ _ _ _.
    apply keeps_bind; [|intros; apply region_kept_log].
    apply region_kept_copy, in_region_copy.
  - apply keeps_bind; [|intros; apply region_kept_log].
    apply region_kept_write_chapters.
Qed.

Section Footprint.

Variable Q : path → bool.
Variables src_path dst_root : path.
Hypothesis Q_footprint : ∀ q, footprint dst_root src_path q = true → Q q = true.

Lemma Q_source : Q src_path = true.
Proof.
  apply Q_footprint. unfold footprint. by rewrite bool_decide_eq_true_2.
Qed.

Lemma Q_above (q : path) : prefix_of q dst_root = true → Q q = true.
Proof.
  intros H. apply Q_footprint. unfold footprint.
  by rewrite H, orb_true_r.
Qed.

Lemma Q_region (q : path) : in_region dst_root src_path q = true → Q q = true.
Proof.
  intros H. apply Q_footprint. unfold footprint. by rewrite H, orb_true_r.
Qed.

Lemma determined_mkdir_root : determined Q (mkdir_parents dst_root).
Proof.
  apply determined_mkdir_from. intros k. apply Q_above, prefix_of_take.
Qed.

Lemma determined_mkdir_entry (c : list N) :
  in_region dst_root src_path (dst_root ++ [c]) = true →
  determined Q (mkdir_parents (dst_root ++ [c])).
Proof.
  intros Hc. apply determined_mkdir_from. intros k. cbn [app].
  destruct (take_snoc_cases dst_root c (S k)) as [H| ->];
    [by apply Q_above | by apply Q_region].
Qed.

Lemma determined_write_chapters (chapters : list (str * str))
    (force dry_run : bool) :
  determined Q
    (Split._write_chapters lower encode (dst_root ++ [stem src_path])
       chapters force dry_run).
Proof.
  unfold Split._write_chapters.
  apply determined_bind;
    [apply determined_exists_, Q_region, in_region_book|].
  intros _ _ e _. apply determined_bind.
  { destruct (force && e); [|apply determined_ret].
    apply determined_rmtree, Q_region, in_region_book. }
  intros _ _ _ _.
  apply determined_bind; [apply determined_mkdir_entry, in_region_book|].
  intros _ _ _ _. apply determined_for_each. intros [idx [title content]] _.
  cbn [fst snd]. unfold Split.write_chapter.
  destruct dry_run; [apply determined_log|].
  apply determined_bind; [|intros; apply determined_log].
  apply determined_write_bytes.
  - apply Q_region. rewrite <- app_assoc. apply in_region_book.
  - rewrite parent_snoc. apply Q_region, in_region_book.
Qed.

Lemma determined_process_file (level : nat) (force : bool)
    (no_split_action : str) (dry_run : bool) :
  determined Q
    (Split.process_file lower decode encode src_path dst_root level
       force no_split_action dry_run).
Proof.
  unfold Split.process_file.
  apply determined_try_except; [|intros; apply determined_log].
  unfold Split.process_file_body, Split.read_text.
  apply determined_bind.
  { apply determined_bind;
      [apply determined_read_bytes, Q_source | intros; apply determined_ret]. }
  intros _ _ md_text _. cbv zeta.
  destruct (length (split_markdown md_text level) <=? 1).
  - case_bool_decide; [|apply determined_log].
    apply determined_bind; [apply determined_with_suffix|].
    intros w w' dst ->%with_suffix_book_dir_inv.
    rewrite parent_snoc.
    destruct dry_run; [apply determined_log|].
    apply determined_bind; [apply determined_mkdir_root|]. intros _ _ _ _.
    apply determined_bind; [|intros; apply determined_log].
    apply determined_copy.
    + apply Q_source.
    + apply Q_region, in_region_copy.
    + rewrite parent_snoc. apply Q_above, prefix_of_spec.
      exists []. by rewrite app_nil_r.
    + rewrite <- app_assoc. apply Q_region, in_region_copy.
  - apply determined_bind; [|intros; apply determined_log].
    apply determined_write_chapters.
Qed.

End Footprint.

(** ** Two items *)

Lemma same_outcome_determined {A} (m : M A) (w w' : world) :
  determined everywhere m → same_outcome w w' →
  (m w).2 = (m w').2 ∧ same_outcome (m w).1 (m w').1.
Proof.
  intros Hm (Hf & Hc & Hl).
  destruct (Hm w w') as (Hr & [Hc' Hf'] & l & El & El').
  { split; [done|]. intros q _. by rewrite Hf. }
  split; [done|]. split; [|split; [done|]].
  - apply map_eq. intros q. by apply Hf'.
  - rewrite El, El'. by f_equiv.
Qed.

Global Instance same_outcome_equiv : Equivalence same_outcome.
Proof.
  split.
  - intros w. by split.
  - intros w w' (Hf & Hc & Hl). by split; [|split].
  - intros w1 w2 w3 (Hf & Hc & Hl) (Hf' & Hc' & Hl').
    split; [congruence|]. split; [congruence|]. by etrans.
Qed.

Section Two.

Variables (dst : path) (level : nat) (force : bool)
          (no_split_action : str) (dry_run : bool).

Local Abbreviation item fp :=
  (Split.process_file lower decode encode fp dst level force no_split_action
     dry_run).
Local Abbreviation items l :=
  (Split.main_sequential lower decode encode l dst level force
     no_split_action dry_run).

Lemma items_commute (x y : path) (w : world) :
  apart x y = true → prefix_of dst x = false → prefix_of dst y = false →
  chain_ok dst w = true →
  same_outcome (item y (item x w).1).1 (item x (item y w).1).1.
Proof.
  intros Hxy Hx Hy Hchain.
  pose proof (apart_sym x y Hxy) as Hyx.
  destruct (region_kept_process_file x dst level force no_split_action
              dry_run w Hchain) as (Hchain1 & Hc1 & Hf1).
  destruct (region_kept_process_file y dst level force no_split_action
              dry_run w Hchain) as (Hchain2 & Hc2 & Hf2).
  set (w1 := (item x w).1) in *. set (w2 := (item y w).1) in *.
  destruct (region_kept_process_file y dst level force no_split_action
              dry_run w1 Hchain1) as (_ & Hc12 & Hf12).
  destruct (region_kept_process_file x dst level force no_split_action
              dry_run w2 Hchain2) as (_ & Hc21 & Hf21).
  assert (agree (footprint dst y) w w1) as Hag1.
  { split; [done|]. intros q Hq. symmetry. apply Hf1.
    destruct (in_region dst x q) eqn:E; [|done].
    by rewrite (region_not_in_footprint dst x y q Hxy Hy E) in Hq. }
  assert (agree (footprint dst x) w w2) as Hag2.
  { split; [done|]. intros q Hq. symmetry. apply Hf2.
    destruct (in_region dst y q) eqn:E; [|done].
    by rewrite (region_not_in_footprint dst y x q Hyx Hx E) in Hq. }
  destruct (determined_process_file (footprint dst y) y dst (λ q H, H)
              level force no_split_action dry_run w w1 Hag1)
    as (_ & [_ Hd2] & l2 & El2 & El12).
  destruct (determined_process_file (footprint dst x) x dst (λ q H, H)
              level force no_split_action dry_run w w2 Hag2)
    as (_ & [_ Hd1] & l1 & El1 & El21).
  fold w1 in El1, Hd1. fold w2 in El2, Hd2.
  split; [|split].
  - apply map_eq. intros q.
    destruct (in_region dst x q) eqn:Ex.
    + rewrite Hf12 by (by apply (apart_regions dst x y)).
      apply Hd1. unfold footprint. by rewrite Ex, orb_true_r.
    + rewrite Hf21 by done.
      destruct (in_region dst y q) eqn:Ey.
      * symmetry. apply Hd2. unfold footprint. by rewrite Ey, orb_true_r.
      * rewrite Hf12, Hf1, Hf2 by done. done.
  - congruence.
  - rewrite El12, El21, El1, El2. rewrite !app_assoc. f_equiv.
    apply Permutation_app_comm.
Qed.

(** ** All the items *)

Lemma items_returns (l : list path) (w : world) :
  (items l w).2 = inr tt.
Proof.
  destruct (main_sequential_returns lower decode encode l dst level force
              no_split_action dry_run w) as [w' E].
  by rewrite E.
Qed.

Lemma items_determined (l : list path) : determined everywhere (items l).
Proof.
  unfold Split.main_sequential. apply determined_for_each. intros fp _.
  by apply determined_process_file.
Qed.

Lemma items_chain_ok (x : path) (w : world) :
  chain_ok dst w = true → chain_ok dst (item x w).1 = true.
Proof.
  intros H.
  by destruct (region_kept_process_file x dst level force no_split_action
                 dry_run w H) as (H1 & _).
Qed.

Lemma items_cons (x : path) (l : list path) (w : world) :
  items (x :: l) w = items l (item x w).1.
Proof.
  unfold Split.main_sequential. cbn [for_each]. unfold bind.
  destruct (process_file_returns lower decode encode x dst level force
              no_split_action dry_run w) as [w1 E].
  by rewrite E.
Qed.

Lemma items_permutation (l l' : list path) :
  l ≡ₚ l' →
  (∀ x, x ∈ l → prefix_of dst x = false) →
  (∀ x y, x ∈ l → y ∈ l → x ≠ y → apart x y = true) →
  ∀ w, chain_ok dst w = true →
       same_outcome (items l w).1 (items l' w).1.
Proof.
  induction 1 as [|x l l' Hp IH|x y l|l l' l'' Hp IH Hp' IH'];
    intros Hout Hap w Hchain.
  - reflexivity.
  - rewrite !items_cons. apply IH.
    + intros z Hz. apply Hout. by right.
    + intros z z' Hz Hz'. apply Hap; by right.
    + by apply items_chain_ok.
  - rewrite !items_cons.
    apply same_outcome_determined; [apply items_determined|].
    destruct (decide (x = y)) as [->|Hne]; [reflexivity|].
    symmetry. apply items_commute; try done.
    + apply Hap; [right; left | left | done].
    + apply Hout. right; left.
    + apply Hout. left.
  - etrans; [by apply IH|]. apply IH'; [| |done].
    + intros x Hx. apply Hout. by rewrite Hp.
    + intros x y Hx Hy. apply Hap; by rewrite Hp.
Qed.

End Two.
End SplitOrder.

Lemma all_apart_spec (l : list path) :
  all_apart l = true → ∀ x y, x ∈ l → y ∈ l → x ≠ y → apart x y = true.
Proof.
  unfold all_apart. rewrite forallb_forall.
  intros H x y Hx%list_elem_of_In Hy%list_elem_of_In Hne.
  specialize (H x Hx). rewrite forallb_forall in H. specialize (H y Hy).
  apply orb_true_iff in H as [H|H]; [|done].
  by apply bool_decide_eq_true in H.
Qed.




(** The two files of the witness end where they should, in either
    order. *)
Example pair_world_outcome :
  let r := Split.main_sequential lower_ascii decode_ascii encode_ascii
             [[py "src"; py "plain.md"]; [py "src"; py "notes.md"]]
             [py "out"] 1 true (py "copy") false pair_world in
  files r.1 !! [py "out"; py "plain.md"]
    = Some (File (encode_ascii (py "just text")) 9) ∧
  is_dir r.1 [py "out"; py "notes"] = true ∧
  (logged r.1).*1 = [INFO; DEBUG; DEBUG; DEBUG; INFO].
Proof. by vm_compute. Qed.
